(** * bot_server.py: course registry, file resolver, archive ingestion and
      upload conversation

    A shallow embedding of [bot_server.py] and the properties of its
    specification.  The module keeps three pieces of state: the registry
    [COURSES] (a dict that is dumped to and loaded from a JSON snapshot), the
    table [TEMP_UPLOADS] of pending uploads, and the directory tree below
    [DATA_DIR].  Handlers are embedded as functions from the state they read
    to the state they leave and the reply they send. *)

From Stdlib Require Import ZArith NArith Ascii String List Lia Bool.
From Stdlib Require Import DecimalPos DecimalN DecimalZ DecimalFacts.
From Stdlib Require Import Sorted.
From stdpp Require Import base option list gmap.

Local Open Scope list_scope.
#[local] Set Warnings "-register-all".


(** * Python strings *)

(** A [str] is a sequence of code points.  File contents that are text are
    modelled by the decoded text itself. *)
Module PyStr.

Definition pychar : Type := N.
Definition pystr : Type := list N.

(** [py "abc"] is the [str] literal written in the source. *)
Definition py (s : string) : pystr :=
  List.map N_of_ascii (list_ascii_of_string s).

Definition char_eqb (a b : pychar) : bool := N.eqb a b.

Fixpoint str_eqb (a b : pystr) : bool :=
  match a, b with
  | [], [] => true
  | x :: a', y :: b' => char_eqb x y && str_eqb a' b'
  | _, _ => false
  end.

(** [s.startswith(p)] *)
Fixpoint startswith (s p : pystr) : bool :=
  match p, s with
  | [], _ => true
  | x :: p', y :: s' => char_eqb x y && startswith s' p'
  | _ :: _, [] => false
  end.

(** [s.endswith(p)] *)
Definition endswith (s p : pystr) : bool := startswith (rev s) (rev p).

(** [needle in hay] for two strings *)
Fixpoint contains (needle hay : pystr) : bool :=
  startswith hay needle ||
  match hay with
  | [] => false
  | _ :: hay' => contains needle hay'
  end.

(** [x in xs] for a string and a collection of strings *)
Definition str_in (x : pystr) (xs : list pystr) : bool :=
  existsb (str_eqb x) xs.

(** [str.lower]: the case mapping of the letters A to Z; the case mapping of
    the rest of Unicode is not modelled and leaves a character as it is. *)
Definition lower_char (c : pychar) : pychar :=
  if (65 <=? c)%N && (c <=? 90)%N then (c + 32)%N else c.

Definition lower (s : pystr) : pystr := List.map lower_char s.

(** [str.isspace] on one character *)
Definition isspace (c : pychar) : bool :=
  ((9 <=? c) && (c <=? 13) || (28 <=? c) && (c <=? 32)
   || (c =? 133) || (c =? 160) || (c =? 5760)
   || (8192 <=? c) && (c <=? 8202) || (c =? 8232) || (c =? 8233)
   || (c =? 8239) || (c =? 8287) || (c =? 12288))%N.

Fixpoint lstrip (s : pystr) : pystr :=
  match s with
  | c :: s' => if isspace c then lstrip s' else s
  | [] => []
  end.

(** [str.strip()] *)
Definition strip (s : pystr) : pystr := rev (lstrip (rev (lstrip s))).

(** [sep.join(xs)] *)
Fixpoint join (sep : pystr) (xs : list pystr) : pystr :=
  match xs with
  | [] => []
  | [x] => x
  | x :: xs' => x ++ sep ++ join sep xs'
  end.

(** [s.split(sep)] for a one-character separator: the pieces between the
    separators, empty pieces included. *)
Fixpoint split_on (sep : pychar) (s : pystr) : list pystr :=
  match s with
  | [] => [[]]
  | c :: s' =>
      if char_eqb c sep then [] :: split_on sep s'
      else match split_on sep s' with
           | [] => [[c]]
           | w :: ws => (c :: w) :: ws
           end
  end.

(** Lexicographic order by code point, the order of [sorted] on strings. *)
Fixpoint str_leb (a b : pystr) : bool :=
  match a, b with
  | [], _ => true
  | _ :: _, [] => false
  | x :: a', y :: b' =>
      if (x <? y)%N then true
      else if (y <? x)%N then false
      else str_leb a' b'
  end.

Fixpoint insert_sorted (x : pystr) (xs : list pystr) : list pystr :=
  match xs with
  | [] => [x]
  | y :: ys => if str_leb x y then x :: xs else y :: insert_sorted x ys
  end.

Definition sorted (xs : list pystr) : list pystr :=
  fold_right insert_sorted [] xs.

End PyStr.
Export PyStr.

(** * JSON values, [json.dumps] and [json.loads] *)

Module Json.

(** The values [json.loads] builds.  A dict keeps its insertion order and is
    an association list; [py_dict_ok] below says its keys are distinct.  A float
    is kept as the text of its literal: its arithmetic value plays no role in
    the program, whose records hold strings and one integer. *)
Inductive json : Type :=
| JNull
| JBool (b : bool)
| JInt (z : Z)
| JFloat (lexeme : pystr)
| JStr (s : pystr)
| JArr (xs : list json)
| JObj (kvs : list (pystr * json)).

Definition dict : Type := list (pystr * json).

(** [d.get(k)] *)
Fixpoint dict_get (k : pystr) (d : dict) : option json :=
  match d with
  | [] => None
  | (k', v) :: d' => if str_eqb k k' then Some v else dict_get k d'
  end.

(** [d[k] = v]: an existing key keeps its place, a new one goes last. *)
Fixpoint dict_set (k : pystr) (v : json) (d : dict) : dict :=
  match d with
  | [] => [(k, v)]
  | (k', v') :: d' =>
      if str_eqb k k' then (k', v) :: d' else (k', v') :: dict_set k v d'
  end.

(** [dict(pairs)] *)
Definition dict_of_pairs (pairs : list (pystr * json)) : dict :=
  fold_left (fun d kv => dict_set (fst kv) (snd kv) d) pairs [].

(** [d.values()] *)
Definition dict_values (d : dict) : list json := List.map snd d.

Definition dict_keys (d : dict) : list pystr := List.map fst d.

(** The digits of a float literal before its exponent. *)
Fixpoint mantissa_digits (lexeme : pystr) : pystr :=
  match lexeme with
  | [] => []
  | c :: rest =>
      if (c =? 101)%N || (c =? 69)%N then []
      else if (48 <=? c)%N && (c <=? 57)%N then c :: mantissa_digits rest
      else mantissa_digits rest
  end.

(** A float literal that is written as zero.  A literal without digits is
    one of the constants NaN and Infinity; a literal that is not written as
    zero and underflows to zero is not modelled. *)
Definition float_is_zero (lexeme : pystr) : bool :=
  match mantissa_digits lexeme with
  | [] => false
  | ds => forallb (fun c => (c =? 48)%N) ds
  end.

(** Truth value of a Python object, as [if not meta] tests it. *)
Definition truthy (v : json) : bool :=
  match v with
  | JNull => false
  | JBool b => b
  | JInt z => negb (Z.eqb z 0)
  | JFloat lexeme => negb (float_is_zero lexeme)
  | JStr s => negb (str_eqb s [])
  | JArr xs => match xs with [] => false | _ => true end
  | JObj kvs => match kvs with [] => false | _ => true end
  end.

(** ** Encoder: [json.dumps(obj, ensure_ascii=False, indent=2)] *)

Definition hexdigit (n : N) : pychar :=
  if (n <? 10)%N then (48 + n)%N else (87 + n)%N.

(** One character of a string, as [ESCAPE_DCT] rewrites it. *)
Definition escape_char (c : pychar) : pystr :=
  if (c =? 92)%N then [92; 92]%N
  else if (c =? 34)%N then [92; 34]%N
  else if (c =? 8)%N then [92; 98]%N
  else if (c =? 12)%N then [92; 102]%N
  else if (c =? 10)%N then [92; 110]%N
  else if (c =? 13)%N then [92; 114]%N
  else if (c =? 9)%N then [92; 116]%N
  else if (c <? 32)%N then
    [92; 117; 48; 48; hexdigit (c / 16); hexdigit (c mod 16)]%N
  else [c].

Fixpoint escape (s : pystr) : pystr :=
  match s with
  | [] => []
  | c :: s' => escape_char c ++ escape s'
  end.

Definition encode_basestring (s : pystr) : pystr :=
  (34 :: escape s ++ [34])%N.

Fixpoint uint_chars (d : Decimal.uint) : pystr :=
  match d with
  | Decimal.Nil => []
  | Decimal.D0 d => 48%N :: uint_chars d
  | Decimal.D1 d => 49%N :: uint_chars d
  | Decimal.D2 d => 50%N :: uint_chars d
  | Decimal.D3 d => 51%N :: uint_chars d
  | Decimal.D4 d => 52%N :: uint_chars d
  | Decimal.D5 d => 53%N :: uint_chars d
  | Decimal.D6 d => 54%N :: uint_chars d
  | Decimal.D7 d => 55%N :: uint_chars d
  | Decimal.D8 d => 56%N :: uint_chars d
  | Decimal.D9 d => 57%N :: uint_chars d
  end.

(** [int.__repr__] *)
Definition int_repr (z : Z) : pystr :=
  match Z.to_int z with
  | Decimal.Pos d => uint_chars d
  | Decimal.Neg d => 45%N :: uint_chars d
  end.

Definition newline_indent (level : nat) : pystr :=
  10%N :: repeat 32%N (2 * level).

Definition item_separator : pystr := [44%N].
Definition key_separator : pystr := [58; 32]%N.

Fixpoint iterencode (level : nat) (v : json) : pystr :=
  match v with
  | JNull => py "null"
  | JBool true => py "true"
  | JBool false => py "false"
  | JInt z => int_repr z
  | JFloat lexeme => lexeme
  | JStr s => encode_basestring s
  | JArr [] => py "[]"
  | JArr xs =>
      91%N :: newline_indent (S level)
      ++ join (item_separator ++ newline_indent (S level))
              (List.map (iterencode (S level)) xs)
      ++ newline_indent level ++ [93%N]
  | JObj [] => py "{}"
  | JObj kvs =>
      123%N :: newline_indent (S level)
      ++ join (item_separator ++ newline_indent (S level))
              (List.map (fun kv : pystr * json =>
                           encode_basestring (fst kv) ++ key_separator
                           ++ iterencode (S level) (snd kv)) kvs)
      ++ newline_indent level ++ [125%N]
  end.

Definition json_dumps (v : json) : pystr := iterencode 0 v.

(** ** Decoder: [json.loads] *)

Definition is_ws (c : pychar) : bool :=
  ((c =? 32) || (c =? 9) || (c =? 10) || (c =? 13))%N.

Fixpoint skip_ws (s : pystr) : pystr :=
  match s with
  | c :: s' => if is_ws c then skip_ws s' else s
  | [] => []
  end.

Definition hexval (c : pychar) : option N :=
  if (48 <=? c)%N && (c <=? 57)%N then Some (c - 48)%N
  else if (65 <=? c)%N && (c <=? 70)%N then Some (c - 55)%N
  else if (97 <=? c)%N && (c <=? 102)%N then Some (c - 87)%N
  else None.

(** Four hexadecimal digits after [\u]. *)
Definition decode_uXXXX (s : pystr) : option (N * pystr) :=
  match s with
  | a :: b :: c :: d :: rest =>
      match hexval a, hexval b, hexval c, hexval d with
      | Some a, Some b, Some c, Some d =>
          Some ((((a * 16 + b) * 16 + c) * 16 + d)%N, rest)
      | _, _, _, _ => None
      end
  | _ => None
  end.

(** [s] without the prefix [p], when it starts with it. *)
Fixpoint strip_prefix (p s : pystr) : option pystr :=
  match p, s with
  | [], _ => Some s
  | x :: p', y :: s' => if char_eqb x y then strip_prefix p' s' else None
  | _ :: _, [] => None
  end.

(** [s] without its first character, when that is [c]. *)
Definition expect (c : pychar) (s : pystr) : option pystr :=
  match s with
  | x :: s' => if char_eqb x c then Some s' else None
  | [] => None
  end.

Definition BACKSLASH (e : pychar) : option pychar :=
  if (e =? 34)%N then Some 34%N
  else if (e =? 92)%N then Some 92%N
  else if (e =? 47)%N then Some 47%N
  else if (e =? 98)%N then Some 8%N
  else if (e =? 102)%N then Some 12%N
  else if (e =? 110)%N then Some 10%N
  else if (e =? 114)%N then Some 13%N
  else if (e =? 116)%N then Some 9%N
  else None.

(** The escape after a backslash: the character it stands for and what is
    left of the input. *)
Definition scan_escape (s : pystr) : option (pychar * pystr) :=
  match s with
  | [] => None
  | e :: s' =>
      if (e =? 117)%N then
        match decode_uXXXX s' with
        | None => None
        | Some (uni, s2) =>
            if (55296 <=? uni)%N && (uni <=? 56319)%N then
              match strip_prefix [92; 117]%N s2 with
              | Some s3 =>
                  match decode_uXXXX s3 with
                  | None => None
                  | Some (uni2, s4) =>
                      if (56320 <=? uni2)%N && (uni2 <=? 57343)%N then
                        Some ((65536 +
                               N.lor (N.shiftl (uni - 55296) 10)
                                     (uni2 - 56320))%N, s4)
                      else Some (uni, s2)
                  end
              | None => Some (uni, s2)
              end
            else Some (uni, s2)
        end
      else
        match BACKSLASH e with
        | Some c => Some (c, s')
        | None => None
        end
  end.

(** [scanstring], strict: the input starts after the opening quote. *)
Fixpoint scanstring_go (fuel : nat) (s : pystr) : option (pystr * pystr) :=
  match fuel with
  | O => None
  | S fuel' =>
      match s with
      | [] => None
      | c :: s' =>
          if (c =? 34)%N then Some ([], s')
          else if (c =? 92)%N then
            match scan_escape s' with
            | Some (ch, s2) =>
                match scanstring_go fuel' s2 with
                | Some (str, rest) => Some (ch :: str, rest)
                | None => None
                end
            | None => None
            end
          else if (c <? 32)%N then None
          else
            match scanstring_go fuel' s' with
            | Some (str, rest) => Some (c :: str, rest)
            | None => None
            end
      end
  end.

Definition scanstring (s : pystr) : option (pystr * pystr) :=
  scanstring_go (length s) s.

Definition is_digit (c : pychar) : bool := (48 <=? c)%N && (c <=? 57)%N.

Fixpoint span_digits (s : pystr) : pystr * pystr :=
  match s with
  | c :: s' =>
      if is_digit c then
        let '(ds, rest) := span_digits s' in (c :: ds, rest)
      else ([], s)
  | [] => ([], [])
  end.

Fixpoint chars_uint (ds : pystr) : Decimal.uint :=
  match ds with
  | [] => Decimal.Nil
  | c :: ds' =>
      let d := chars_uint ds' in
      if (c =? 48)%N then Decimal.D0 d
      else if (c =? 49)%N then Decimal.D1 d
      else if (c =? 50)%N then Decimal.D2 d
      else if (c =? 51)%N then Decimal.D3 d
      else if (c =? 52)%N then Decimal.D4 d
      else if (c =? 53)%N then Decimal.D5 d
      else if (c =? 54)%N then Decimal.D6 d
      else if (c =? 55)%N then Decimal.D7 d
      else if (c =? 56)%N then Decimal.D8 d
      else Decimal.D9 d
  end.

(** The integer part of [NUMBER_RE]: an optional minus sign, then either a
    single zero or a digit from 1 to 9 followed by any digits. *)
Definition scan_integer (s : pystr) : option (bool * pystr * pystr) :=
  let '(neg, s1) :=
    match expect 45%N s with
    | Some s' => (true, s')
    | None => (false, s)
    end in
  match s1 with
  | c :: s2 =>
      if (c =? 48)%N then Some (neg, [c], s2)
      else if is_digit c then
        let '(ds, rest) := span_digits s2 in Some (neg, c :: ds, rest)
      else None
  | [] => None
  end.

(** The optional fraction of [NUMBER_RE]: a dot and at least one digit. *)
Definition scan_frac (s : pystr) : pystr * pystr :=
  match expect 46%N s with
  | Some (c :: s') =>
      if is_digit c then
        let '(ds, rest) := span_digits s' in (46%N :: c :: ds, rest)
      else ([], s)
  | _ => ([], s)
  end.

(** The optional exponent of [NUMBER_RE]: e or E, an optional sign and at
    least one digit. *)
Definition scan_exp (s : pystr) : pystr * pystr :=
  match s with
  | e :: s1 =>
      if (e =? 101)%N || (e =? 69)%N then
        let '(sign, s2) :=
          match s1 with
          | c :: s' => if (c =? 45)%N || (c =? 43)%N then ([c], s') else ([], s1)
          | [] => ([], s1)
          end in
        match s2 with
        | c :: s3 =>
            if is_digit c then
              let '(ds, rest) := span_digits s3 in
              (e :: sign ++ c :: ds, rest)
            else ([], s)
        | [] => ([], s)
        end
      else ([], s)
  | [] => ([], s)
  end.

Definition match_number (s : pystr) : option (json * pystr) :=
  match scan_integer s with
  | None => None
  | Some (neg, integer, s1) =>
      let '(frac, s2) := scan_frac s1 in
      let '(exp, s3) := scan_exp s2 in
      match frac, exp with
      | [], [] =>
          let n := Z.of_N (N.of_uint (chars_uint integer)) in
          Some (JInt (if neg then Z.opp n else n), s3)
      | _, _ =>
          Some (JFloat ((if neg then [45%N] else []) ++ integer ++ frac ++ exp),
                s3)
      end
  end.

Definition scan_constant (s : pystr) : option (json * pystr) :=
  match strip_prefix (py "NaN") s with
  | Some rest => Some (JFloat (py "NaN"), rest)
  | None =>
  match strip_prefix (py "Infinity") s with
  | Some rest => Some (JFloat (py "Infinity"), rest)
  | None =>
  match strip_prefix (py "-Infinity") s with
  | Some rest => Some (JFloat (py "-Infinity"), rest)
  | None => None
  end end end.

(** [scan_once] with [JSONArray] and [JSONObject].  Each call spends one unit
    of [fuel]; a call is made after at most one step that reads nothing, so
    twice the length of the input is enough fuel for every input. *)
Fixpoint scan_once (fuel : nat) (s : pystr) : option (json * pystr) :=
  match fuel with
  | O => None
  | S fuel' =>
      match s with
      | [] => None
      | c :: s' =>
          if (c =? 34)%N then
            match scanstring s' with
            | Some (str, rest) => Some (JStr str, rest)
            | None => None
            end
          else if (c =? 123)%N then
            let s1 := skip_ws s' in
            match expect 125%N s1 with
            | Some rest => Some (JObj [], rest)
            | None =>
                match expect 34%N s1 with
                | Some rest =>
                    match JSONObject_items fuel' rest with
                    | Some (pairs, rest') =>
                        Some (JObj (dict_of_pairs pairs), rest')
                    | None => None
                    end
                | None => None
                end
            end
          else if (c =? 91)%N then
            let s1 := skip_ws s' in
            match expect 93%N s1 with
            | Some rest => Some (JArr [], rest)
            | None =>
                match JSONArray_items fuel' s1 with
                | Some (values, rest') => Some (JArr values, rest')
                | None => None
                end
            end
          else
            match strip_prefix (py "null") s with
            | Some rest => Some (JNull, rest)
            | None =>
            match strip_prefix (py "true") s with
            | Some rest => Some (JBool true, rest)
            | None =>
            match strip_prefix (py "false") s with
            | Some rest => Some (JBool false, rest)
            | None =>
            match match_number s with
            | Some r => Some r
            | None => scan_constant s
            end end end end
      end
  end

(** The loop of [JSONArray]: the input starts at a value. *)
with JSONArray_items (fuel : nat) (s : pystr) : option (list json * pystr) :=
  match fuel with
  | O => None
  | S fuel' =>
      match scan_once fuel' s with
      | None => None
      | Some (value, s1) =>
          let s2 := skip_ws s1 in
          match expect 93%N s2 with
          | Some rest => Some ([value], rest)
          | None =>
              match expect 44%N s2 with
              | Some s3 =>
                  match JSONArray_items fuel' (skip_ws s3) with
                  | Some (values, rest) => Some (value :: values, rest)
                  | None => None
                  end
              | None => None
              end
          end
      end
  end

(** The loop of [JSONObject]: the input starts after the opening quote of a
    key. *)
with JSONObject_items (fuel : nat) (s : pystr)
  : option (list (pystr * json) * pystr) :=
  match fuel with
  | O => None
  | S fuel' =>
      match scanstring s with
      | None => None
      | Some (key, s1) =>
          match expect 58%N (skip_ws s1) with
          | None => None
          | Some s2 =>
              match scan_once fuel' (skip_ws s2) with
              | None => None
              | Some (value, s3) =>
                  let s4 := skip_ws s3 in
                  match expect 125%N s4 with
                  | Some rest => Some ([(key, value)], rest)
                  | None =>
                      match expect 44%N s4 with
                      | Some s5 =>
                          match expect 34%N (skip_ws s5) with
                          | Some s6 =>
                              match JSONObject_items fuel' s6 with
                              | Some (pairs, rest) =>
                                  Some ((key, value) :: pairs, rest)
                              | None => None
                              end
                          | None => None
                          end
                      | None => None
                      end
                  end
              end
          end
      end
  end.

Definition json_loads (s : pystr) : option json :=
  let s0 := skip_ws s in
  match scan_once (2 * length s0 + 2) s0 with
  | Some (v, rest) =>
      match skip_ws rest with
      | [] => Some v
      | _ :: _ => None
      end
  | None => None
  end.

(** Every dict inside [v] has distinct keys, as every Python dict has. *)
Fixpoint py_dict_ok (v : json) : bool :=
  match v with
  | JArr xs => forallb py_dict_ok xs
  | JObj kvs =>
      bool_decide (NoDup (dict_keys kvs))
      && forallb (fun kv : pystr * json => py_dict_ok (snd kv)) kvs
  | _ => true
  end.

(** No float occurs in [v]. *)
Fixpoint float_free (v : json) : bool :=
  match v with
  | JFloat _ => false
  | JArr xs => forallb float_free xs
  | JObj kvs => forallb (fun kv : pystr * json => float_free (snd kv)) kvs
  | _ => true
  end.

End Json.
Export Json.


(** * The registry and its snapshot *)

Module Registry.

(** What [DB_PATH] holds on disk: nothing; something [read_text] raises on,
    such as bytes that are not UTF-8; or text.  Text is a sequence of code
    points that UTF-8 can encode, so that what [write_text] writes is what
    [read_text] reads. *)
Inductive db_file : Type :=
| Missing
| Unreadable
| Text (s : pystr).

(** [load_db]: [COURSES] is rebound only when the snapshot exists; every
    exception of reading or parsing it leaves the empty dict. *)
Definition load_db (COURSES : json) (f : db_file) : json :=
  match f with
  | Missing => COURSES
  | Unreadable => JObj []
  | Text s =>
      match json_loads s with
      | Some v => v
      | None => JObj []
      end
  end.

(** A code point that UTF-8 can encode: any but a surrogate. *)
Definition utf8_char (c : pychar) : bool :=
  (c <? 55296)%N || (57343 <? c)%N.

(** [s.encode("utf-8")] does not raise. *)
Definition utf8_text (s : pystr) : bool := forallb utf8_char s.

(** Every string of [v], the keys of its dicts included, is text that UTF-8
    can encode. *)
Fixpoint encodable (v : json) : bool :=
  match v with
  | JStr s => utf8_text s
  | JArr xs => forallb encodable xs
  | JObj kvs =>
      forallb (fun kv : pystr * json =>
                 utf8_text (fst kv) && encodable (snd kv)) kvs
  | _ => true
  end.

(** [save_db]: the snapshot written for [COURSES].  [json.dumps] is called
    with [ensure_ascii=False], so the strings of [COURSES] reach
    [write_text(encoding="utf-8")] as they are: on a registry that is not
    [encodable] the write raises and leaves the file empty.  That case is
    outside the model; what is stated of a saved snapshot is stated of an
    [encodable] registry. *)
Definition save_db (COURSES : json) : db_file :=
  Text (json_dumps COURSES).

(** The module binds [COURSES = {}] and calls [load_db()] once, at import. *)
Definition startup (f : db_file) : json := load_db (JObj []) f.

(** A course record with the fields [ask_title] gives it. *)
Record CourseRecord : Type := {
  rec_id : pystr;
  rec_owner : Z;
  rec_number : pystr;
  rec_title : pystr;
  rec_filename : pystr;
  rec_path : pystr;
  rec_token : pystr;
  rec_created_at : pystr
}.

(** The dict literal [meta] of [ask_title]. *)
Definition meta (r : CourseRecord) : json :=
  JObj [ (py "id", JStr (rec_id r));
         (py "owner", JInt (rec_owner r));
         (py "number", JStr (rec_number r));
         (py "title", JStr (rec_title r));
         (py "filename", JStr (rec_filename r));
         (py "path", JStr (rec_path r));
         (py "token", JStr (rec_token r));
         (py "created_at", JStr (rec_created_at r)) ].

(** The registry that holds the records [rs], in their order. *)
Definition registry_of (rs : list CourseRecord) : json :=
  JObj (List.map (fun r => (rec_id r, meta r)) rs).

End Registry.
Export Registry.

(** * Paths and the file system seen by the file server *)

Module Paths.

(** A [pathlib.PurePosixPath]: whether it is anchored at the root, and its
    components.  Parsing drops empty components and single dots and keeps
    double dots. *)
Record ppath : Type := { is_abs : bool; parts : list pystr }.

Definition SEP : pychar := 47%N.
Definition DOT : pystr := [46%N].
Definition DOTDOT : pystr := [46%N; 46%N].

Definition keep_component (c : pystr) : bool :=
  negb (str_eqb c []) && negb (str_eqb c DOT).

Definition Path (s : pystr) : ppath :=
  {| is_abs := startswith s [SEP];
     parts := List.filter keep_component (split_on SEP s) |}.

(** [a / b] *)
Definition joinpath (a b : ppath) : ppath :=
  if is_abs b then b
  else {| is_abs := is_abs a; parts := parts a ++ parts b |}.

(** [str(p)] *)
Definition path_str (p : ppath) : pystr :=
  if is_abs p then SEP :: join [SEP] (parts p)
  else match parts p with
       | [] => DOT
       | _ => join [SEP] (parts p)
       end.

(** [p.name] *)
Definition name (p : ppath) : pystr := List.last (parts p) [].

(** [p.parent] *)
Definition parent (p : ppath) : ppath :=
  {| is_abs := is_abs p; parts := removelast (parts p) |}.

(** Index of the last dot of [s], counted from the left. *)
Fixpoint rfind_dot (s : pystr) : option nat :=
  match s with
  | [] => None
  | c :: s' =>
      match rfind_dot s' with
      | Some i => Some (S i)
      | None => if char_eqb c 46%N then Some 0 else None
      end
  end.

(** [p.suffix]: the name from its last dot on, unless that dot is the first
    or the last character of the name. *)
Definition suffix (p : ppath) : pystr :=
  let nm := name p in
  match rfind_dot nm with
  | Some i =>
      if (0 <? i)%nat && (i <? length nm - 1)%nat then skipn i nm else []
  | None => []
  end.

(** What the file server sees of the disk: for each canonical absolute path
    (the list of its components) the kind of node there.  The root is a
    directory and has no entry. *)
Inductive node : Type :=
| File
| Dir
| Symlink (target : pystr).

Abbreviation disk := (gmap (list pystr) node).

(** [os.path.realpath]: [resolved] is canonical, [rest] is still to walk.  A
    component that is a symbolic link is replaced by its target.  [fuel]
    bounds the number of steps; running out of it is the error Python
    reports for a loop of links. *)
Fixpoint realpath_go (fuel : nat) (d : disk) (resolved rest : list pystr)
  : option (list pystr) :=
  match fuel with
  | O => None
  | S fuel' =>
      match rest with
      | [] => Some resolved
      | c :: rest' =>
          if str_eqb c DOTDOT then
            realpath_go fuel' d (removelast resolved) rest'
          else
            let newpath := resolved ++ [c] in
            match d !! newpath with
            | Some (Symlink target) =>
                let t := Path target in
                if is_abs t then realpath_go fuel' d [] (parts t ++ rest')
                else realpath_go fuel' d resolved (parts t ++ rest')
            | _ => realpath_go fuel' d newpath rest'
            end
      end
  end.

Definition REALPATH_FUEL : nat := 4096.

(** The canonical path of [p], a relative [p] being taken from [cwd]. *)
Definition realpath (d : disk) (cwd : list pystr) (p : ppath)
  : option (list pystr) :=
  realpath_go REALPATH_FUEL d (if is_abs p then [] else cwd) (parts p).

(** [p.resolve()] *)
Definition resolve (d : disk) (cwd : list pystr) (p : ppath) : option ppath :=
  match realpath d cwd p with
  | Some q => Some {| is_abs := true; parts := q |}
  | None => None
  end.

(** A canonical path names something. *)
Definition present (d : disk) (q : list pystr) : bool :=
  match q with
  | [] => true
  | _ => bool_decide (is_Some (d !! q))
  end.

(** [p.exists()], which follows links. *)
Definition exists_ (d : disk) (cwd : list pystr) (p : ppath) : bool :=
  match realpath d cwd p with
  | Some q => present d q
  | None => false
  end.

(** [os.path.isfile], which follows links. *)
Definition isfile (d : disk) (cwd : list pystr) (p : ppath) : bool :=
  match realpath d cwd p with
  | Some q => match d !! q with Some File => true | _ => false end
  | None => false
  end.

(** [base] is a proper ancestor of [q]: [q] lies strictly inside [base]. *)
Fixpoint strictly_inside (base q : list pystr) : bool :=
  match base, q with
  | [], _ :: _ => true
  | b :: base', c :: q' => str_eqb b c && strictly_inside base' q'
  | _, [] => false
  end.

(** [posixpath.normpath] *)
Fixpoint normpath_go (anchored : bool) (acc comps : list pystr) : list pystr :=
  match comps with
  | [] => acc
  | c :: comps' =>
      if str_eqb c [] || str_eqb c DOT then normpath_go anchored acc comps'
      else if negb (str_eqb c DOTDOT) then normpath_go anchored (acc ++ [c]) comps'
      else
        match acc with
        | [] =>
            if anchored then normpath_go anchored acc comps'
            else normpath_go anchored (acc ++ [c]) comps'
        | _ =>
            if str_eqb (List.last acc []) DOTDOT
            then normpath_go anchored (acc ++ [c]) comps'
            else normpath_go anchored (removelast acc) comps'
        end
  end.

Definition normpath (s : pystr) : pystr :=
  match s with
  | [] => DOT
  | _ =>
      let slashes :=
        if startswith s [SEP; SEP] && negb (startswith s [SEP; SEP; SEP])
        then [SEP; SEP]
        else if startswith s [SEP] then [SEP] else [] in
      let anchored := startswith s [SEP] in
      match slashes ++ join [SEP] (normpath_go anchored [] (split_on SEP s)) with
      | [] => DOT
      | r => r
      end
  end.

(** [posixpath.join(a, b)] *)
Definition posix_join (a b : pystr) : pystr :=
  if startswith b [SEP] then b
  else if str_eqb a [] || endswith a [SEP] then a ++ b
  else a ++ SEP :: b.

(** [werkzeug.security.safe_join(directory, filename)] *)
Definition safe_join (directory filename : pystr) : option pystr :=
  let directory := if str_eqb directory [] then DOT else directory in
  let filename := if str_eqb filename [] then filename else normpath filename in
  if startswith filename [SEP]
     || str_eqb filename DOTDOT
     || startswith filename (DOTDOT ++ [SEP])
  then None
  else Some (posix_join directory filename).

End Paths.
Export Paths.

(** * The file server: [serve_course_file] and [serve_course_index] *)

Module Resolver.

(** The machine the server runs on: its disk, the working directory of the
    process and Flask's [app.root_path]. *)
Record host : Type := {
  host_disk : disk;
  host_cwd : list pystr;
  host_root_path : pystr
}.

(** What a view returns.  [SendFile p] is [send_file] opening the path [p];
    [ServerError] is an exception that leaves the view. *)
Inductive response : Type :=
| Abort (status : Z)
| SendFile (p : pystr)
| RedirectTo (location : pystr)
| Html (body : pystr)
| ServerError.

(** [v.get(k)]; [None] when [v] has no such method. *)
Definition py_get (v : json) (k : pystr) : option (option json) :=
  match v with
  | JObj d => Some (dict_get k d)
  | _ => None
  end.

(** The outcome of [not token or token != meta.get("token")]. *)
Inductive gate : Type :=
| Granted (token : pystr)
| Denied
| Raised.

Definition token_gate (token : option pystr) (meta : json) : gate :=
  match token with
  | None => Denied
  | Some t =>
      if str_eqb t [] then Denied
      else
        match py_get meta (py "token") with
        | None => Raised
        | Some (Some (JStr stored)) =>
            if str_eqb t stored then Granted t else Denied
        | Some _ => Denied
        end
  end.

(** [werkzeug.utils.send_from_directory] as Flask calls it, with
    [_root_path = app.root_path]. *)
Definition send_from_directory (h : host) (directory : ppath) (path : pystr)
  : response :=
  match safe_join (path_str directory) path with
  | None => Abort 404
  | Some joined =>
      let full := posix_join (host_root_path h) joined in
      if isfile (host_disk h) (host_cwd h) (Path full)
      then SendFile full
      else Abort 404
  end.

(** The route [/courses/<course_id>/<path:filename>]. *)
Definition serve_course_file (h : host) (COURSES : json)
    (course_id : pystr) (token : option pystr) (filename : pystr) : response :=
  match py_get COURSES course_id with
  | None => ServerError
  | Some None => Abort 404
  | Some (Some meta) =>
      if negb (truthy meta) then Abort 404
      else
        match token_gate token meta with
        | Raised => ServerError
        | Denied => Abort 403
        | Granted _ =>
            match py_get meta (py "path") with
            | Some (Some (JStr p)) =>
                let course_path := Path p in
                match resolve (host_disk h) (host_cwd h)
                              (joinpath course_path (Path filename)),
                      resolve (host_disk h) (host_cwd h) course_path with
                | Some requested, Some base =>
                    if negb (startswith (path_str requested) (path_str base))
                    then Abort 403
                    else if negb (present (host_disk h) (parts requested))
                    then Abort 404
                    else send_from_directory h course_path filename
                | _, _ => ServerError
                end
            | _ => ServerError
            end
        end
  end.

Definition INDEX_NAMES : list pystr :=
  [ py "trainer/custom_trainer_cp/index.html"; py "context.html";
    py "index.html"; py "help/en-US/contents/start.htm" ].

(** [l] without the prefix [p], component by component. *)
Fixpoint strip_components (p l : list pystr) : option (list pystr) :=
  match p, l with
  | [], _ => Some l
  | x :: p', y :: l' => if str_eqb x y then strip_components p' l' else None
  | _ :: _, [] => None
  end.

(** [course_path.rglob("*.html")], each hit relative to [course_path] and
    in POSIX form.  Directories reached through a link are not entered. *)
Definition rglob_html (h : host) (course_path : ppath) : list pystr :=
  match realpath (host_disk h) (host_cwd h) course_path with
  | None => []
  | Some base =>
      omap (fun kv : list pystr * node =>
              match strip_components base (fst kv) with
              | Some (c :: rel) =>
                  if endswith (List.last (c :: rel) []) (py ".html")
                  then Some (join [SEP] (c :: rel))
                  else None
              | _ => None
              end)
           (map_to_list (host_disk h))
  end.

Definition course_url (course_id rel token : pystr) : pystr :=
  py "/courses/" ++ course_id ++ py "/" ++ rel ++ py "?token=" ++ token.

(** The route [/courses/<course_id>/]. *)
Definition serve_course_index (h : host) (COURSES : json)
    (course_id : pystr) (token : option pystr) : response :=
  match py_get COURSES course_id with
  | None => ServerError
  | Some None => Abort 404
  | Some (Some meta) =>
      if negb (truthy meta) then Abort 404
      else
        match token_gate token meta with
        | Raised => ServerError
        | Denied => Abort 403
        | Granted t =>
            match py_get meta (py "path") with
            | Some (Some (JStr p)) =>
                let course_path := Path p in
                match List.find
                        (fun index_name =>
                           exists_ (host_disk h) (host_cwd h)
                                   (joinpath course_path (Path index_name)))
                        INDEX_NAMES with
                | Some index_name =>
                    RedirectTo (course_url course_id
                                (path_str (Path index_name)) t)
                | None =>
                    let files := sorted (rglob_html h course_path) in
                    Html (py "<h3>Available HTML files:</h3>"
                          ++ join (py "<br>")
                               (List.map
                                  (fun f =>
                                     py "<a href='"
                                     ++ course_url course_id f t
                                     ++ py "' target='_blank'>" ++ f
                                     ++ py "</a>")
                                  files))
                end
            | _ => ServerError
            end
        end
  end.

End Resolver.
Export Resolver.

(** * The directory tree the bot writes *)

Module Storage.

(** The tree below the working directory as the ingestion sees it: regular
    files with their bytes and directories, keyed by the components of their
    path from the working directory, which is itself the empty path.  The
    ingestion creates nothing else. *)
Inductive tnode : Type :=
| TFile (data : list Byte.byte)
| TDir.

Abbreviation tree := (gmap (list pystr) tnode).

Definition is_dir (t : tree) (p : list pystr) : bool :=
  match p with
  | [] => true
  | _ => match t !! p with Some TDir => true | _ => false end
  end.

(** [Path.mkdir(parents=True, exist_ok=True)] on [base ++ rest], [base]
    being a directory already: a component that is missing is created, one
    that is a directory is kept, one that is a file raises and leaves the
    tree as it was. *)
Fixpoint mkdir_from (t : tree) (base rest : list pystr) : option tree :=
  match rest with
  | [] => Some t
  | c :: rest' =>
      let q := base ++ [c] in
      match t !! q with
      | Some TDir => mkdir_from t q rest'
      | Some (TFile _) => None
      | None => mkdir_from (<[q := TDir]> t) q rest'
      end
  end.

Definition mkdir_parents (t : tree) (p : list pystr) : option tree :=
  mkdir_from t [] p.

(** [open(p, "wb")]: the file is created or truncated; a directory at [p]
    or a parent that is no directory raises. *)
Definition open_wb (t : tree) (p : list pystr) : option tree :=
  match p with
  | [] => None
  | _ =>
      match t !! p with
      | Some TDir => None
      | _ =>
          if is_dir t (removelast p) then Some (<[p := TFile []]> t) else None
      end
  end.

(** [shutil.rmtree(d, ignore_errors=True)]: [d] and all below it go. *)
Definition rmtree (t : tree) (d : list pystr) : tree :=
  filter (fun kv : list pystr * tnode => ¬ d `prefix_of` kv.1) t.

End Storage.
Export Storage.

(** * The Telegram handlers *)

Module Bot.

Definition MAX_ZIP_SIZE : Z := 200 * 1024 * 1024.

Definition DISALLOWED_EXTS : list pystr :=
  [ py ".exe"; py ".dll"; py ".bat"; py ".sh"; py ".com"; py ".py" ].

Definition DATA_DIR : list pystr := [ py "data"; py "courses" ].

(** What the process is started with: [BASE_URL] and its working
    directory. *)
Record config : Type := {
  BASE_URL : pystr;
  cwd : list pystr
}.

(** An entry of [TEMP_UPLOADS]. *)
Record pending : Type := {
  p_bytes : list Byte.byte;
  p_filename : pystr;
  p_uploader : Z;
  p_number : option pystr
}.

(** The state the handlers share. *)
Record bot : Type := {
  COURSES : json;
  TEMP_UPLOADS : gmap Z pending;
  files : tree;
  snapshot : db_file
}.

(** [message.document]: the declared size and name, both optional, and the
    bytes Telegram serves for its [file_id]. *)
Record document : Type := {
  file_size : option Z;
  file_name : option pystr;
  file_content : list Byte.byte
}.

(** What a handler returns to the [ConversationHandler]. *)
Inductive ret : Type :=
| END
| ASK_NUMBER
| ASK_TITLE.

(** The messages the handlers send, one constructor per [reply_text]. *)
Inductive reply : Type :=
| NotADocument
| TooLarge
| UnsupportedFormat
| AskNumber
| NoPendingUpload
| AskTitle
| ExtractionFailed
| Saved (course_id number title webapp_url : pystr)
| Cancelled.

(** A handler either returns, having sent one reply, or raises. *)
Inductive result : Type :=
| Returned (b : bot) (r : reply) (next : ret)
| Crashed (b : bot).

Definition with_uploads (b : bot) (u : gmap Z pending) : bot :=
  {| COURSES := COURSES b; TEMP_UPLOADS := u;
     files := files b; snapshot := snapshot b |}.

Definition with_files (b : bot) (t : tree) : bot :=
  {| COURSES := COURSES b; TEMP_UPLOADS := TEMP_UPLOADS b;
     files := t; snapshot := snapshot b |}.

(** [doc.file_size and doc.file_size > MAX_ZIP_SIZE] *)
Definition declared_too_large (doc : document) : bool :=
  match file_size doc with
  | Some n => negb (n =? 0)%Z && (MAX_ZIP_SIZE <? n)%Z
  | None => false
  end.

(** [doc.file_name or "upload.zip"] *)
Definition fname_of (doc : document) : pystr :=
  match file_name doc with
  | Some f => if str_eqb f [] then py "upload.zip" else f
  | None => py "upload.zip"
  end.

Definition recv_document (b : bot) (chat_id user_id : Z)
    (doc : option document) : result :=
  match doc with
  | None => Returned b NotADocument END
  | Some doc =>
      if declared_too_large doc then Returned b TooLarge END
      else
        let fname := fname_of doc in
        if negb (endswith (lower fname) (py ".zip"))
        then Returned b UnsupportedFormat END
        else
          Returned
            (with_uploads b
               (<[chat_id := {| p_bytes := file_content doc;
                                p_filename := fname;
                                p_uploader := user_id;
                                p_number := None |}]> (TEMP_UPLOADS b)))
            AskNumber ASK_NUMBER
  end.

Definition ask_number (b : bot) (chat_id : Z) (text : pystr) : result :=
  match TEMP_UPLOADS b !! chat_id with
  | None => Returned b NoPendingUpload END
  | Some temp =>
      Returned
        (with_uploads b
           (<[chat_id := {| p_bytes := p_bytes temp;
                            p_filename := p_filename temp;
                            p_uploader := p_uploader temp;
                            p_number := Some (strip text) |}]>
              (TEMP_UPLOADS b)))
        AskTitle ASK_TITLE
  end.

Definition cancel (b : bot) (chat_id : Z) : result :=
  Returned (with_uploads b (delete chat_id (TEMP_UPLOADS b))) Cancelled END.

(** ** Extraction *)

(** What reading a member of the archive gives: its bytes; an exception when
    the member is opened; or an exception during the copy, after [written]
    has reached the target. *)
Inductive member_data : Type :=
| ReadOk (data : list Byte.byte)
| OpenFails
| CopyFails (written : list Byte.byte).

(** A [ZipInfo] of [z.infolist()] together with what reading it gives. *)
Record ZipInfo : Type := {
  zi_filename : pystr;
  zi_data : member_data
}.

(** The tree when the loop ended, or when an exception left it. *)
Inductive outcome : Type :=
| Done (t : tree)
| Failed (t : tree).

(** The two [continue] tests of the loop. *)
Definition skip_member (nm : pystr) : bool :=
  startswith nm [SEP]
  || str_in DOTDOT (parts (Path nm))
  || str_in (lower (suffix (Path nm))) DISALLOWED_EXTS.

(** The body of the loop for a member that is not skipped. *)
Definition extract_member (t : tree) (course_dir : list pystr) (m : ZipInfo)
  : outcome :=
  let target := course_dir ++ parts (Path (zi_filename m)) in
  match mkdir_parents t (removelast target) with
  | None => Failed t
  | Some t1 =>
      match zi_data m with
      | OpenFails => Failed t1
      | ReadOk data =>
          match open_wb t1 target with
          | None => Failed t1
          | Some t2 => Done (<[target := TFile data]> t2)
          end
      | CopyFails written =>
          match open_wb t1 target with
          | None => Failed t1
          | Some t2 => Failed (<[target := TFile written]> t2)
          end
      end
  end.

Fixpoint extract_all (t : tree) (course_dir : list pystr) (ms : list ZipInfo)
  : outcome :=
  match ms with
  | [] => Done t
  | m :: ms' =>
      if skip_member (zi_filename m) then extract_all t course_dir ms'
      else
        match extract_member t course_dir m with
        | Done t' => extract_all t' course_dir ms'
        | Failed t' => Failed t'
        end
  end.

Section Ingestion.

(** [zipfile.ZipFile(bio).infolist()]: the members of an archive, or
    nothing when the bytes are no archive.  The ZIP format is not part of
    the model. *)
Variable ZipFile : list Byte.byte -> option (list ZipInfo).

Variable cfg : config.

(** The [try] block of [ask_title]. *)
Definition extraction (t : tree) (course_dir : list pystr)
    (bytes : list Byte.byte) : outcome :=
  match ZipFile bytes with
  | None => Failed t
  | Some ms => extract_all t course_dir ms
  end.

(** [str(course_dir.resolve())] *)
Definition course_dir_str (course_dir : list pystr) : pystr :=
  path_str {| is_abs := true; parts := cwd cfg ++ course_dir |}.

Definition webapp_url_of (course_id token : pystr) : pystr :=
  BASE_URL cfg ++ py "/courses/" ++ course_id ++ py "/?token=" ++ token.

(** [ask_title].  [course_id] and [token] are the two draws of
    [secrets.token_urlsafe], text over the URL-safe alphabet, and [now] is
    [datetime.datetime.utcnow().isoformat()]. *)
Definition ask_title (b : bot) (chat_id : Z) (text : pystr)
    (course_id token now : pystr) : result :=
  match TEMP_UPLOADS b !! chat_id with
  | None => Returned b NoPendingUpload END
  | Some temp =>
      let b1 := with_uploads b (delete chat_id (TEMP_UPLOADS b)) in
      let number := default [] (p_number temp) in
      let title := strip text in
      let course_dir := DATA_DIR ++ [course_id] in
      match mkdir_parents (files b) course_dir with
      | None => Crashed b1
      | Some t0 =>
          match extraction t0 course_dir (p_bytes temp) with
          | Failed t1 =>
              Returned (with_files b1 (rmtree t1 course_dir))
                       ExtractionFailed END
          | Done t1 =>
              let m :=
                meta {| rec_id := course_id;
                        rec_owner := p_uploader temp;
                        rec_number := number;
                        rec_title := title;
                        rec_filename := p_filename temp;
                        rec_path := course_dir_str course_dir;
                        rec_token := token;
                        rec_created_at := now |} in
              match COURSES b with
              | JObj d =>
                  let courses := JObj (dict_set course_id m d) in
                  Returned
                    {| COURSES := courses;
                       TEMP_UPLOADS := delete chat_id (TEMP_UPLOADS b);
                       files := t1;
                       snapshot := save_db courses |}
                    (Saved course_id number title
                           (webapp_url_of course_id token))
                    END
              | _ => Crashed (with_files b1 t1)
              end
          end
      end
  end.

End Ingestion.

(** ** [find_cmd] *)

(** [c.get("owner") == user.id]; [None] when [c] has no [get].  An owner
    that is a float is outside the model, which keeps a float as the text of
    its literal: Python compares it by value, and here it differs from every
    id.  The records [ask_title] makes hold an integer. *)
Definition owner_is (c : json) (user_id : Z) : option bool :=
  match py_get c (py "owner") with
  | None => None
  | Some (Some (JInt z)) => Some (z =? user_id)%Z
  | Some (Some (JBool b)) => Some (Z.b2z b =? user_id)%Z
  | Some _ => Some false
  end.

(** [c.get(k, "").lower()]; [None] when the value has no [lower]. *)
Definition get_lower (c : json) (k : pystr) : option pystr :=
  match py_get c k with
  | Some (Some (JStr s)) => Some (lower s)
  | Some None => Some []
  | _ => None
  end.

(** [query in (number.lower() + " " + title.lower())] *)
Definition matches (query : pystr) (c : json) : option bool :=
  match get_lower c (py "number"), get_lower c (py "title") with
  | Some n, Some t => Some (contains query (n ++ py " " ++ t))
  | _, _ => None
  end.

(** A list comprehension with a condition that may raise. *)
Fixpoint filter_raising (f : json -> option bool) (cs : list json)
  : option (list json) :=
  match cs with
  | [] => Some []
  | c :: cs' =>
      match f c with
      | None => None
      | Some keep =>
          match filter_raising f cs' with
          | None => None
          | Some rest => Some (if keep then c :: rest else rest)
          end
      end
  end.

(** What [find_cmd] does: the usage line, the nothing-found line, or one
    line and one button for each record of [found], in that order; or an
    exception. *)
Inductive find_reply : Type :=
| Usage
| NothingFound
| Found (found : list json)
| FindCrashed.

Definition has_key (k : pystr) (c : json) : bool :=
  match py_get c k with
  | Some (Some _) => true
  | _ => false
  end.

Definition find_cmd (courses : json) (args : list pystr) (user_id : Z)
  : find_reply :=
  let query := lower (strip (join (py " ") args)) in
  if str_eqb query [] then Usage
  else
    match courses with
    | JObj d =>
        match filter_raising (fun c => owner_is c user_id) (dict_values d) with
        | None => FindCrashed
        | Some user_courses =>
            match filter_raising (matches query) user_courses with
            | None => FindCrashed
            | Some [] => NothingFound
            | Some found =>
                if forallb (fun c => has_key (py "id") c
                                     && has_key (py "token") c) found
                then Found found
                else FindCrashed
            end
        end
    | _ => FindCrashed
    end.

(** ** The conversation *)

(** The state of one conversation of [conv_handler]; a conversation that is
    not in its table is [Idle]. *)
Inductive conv : Type :=
| Idle
| AwaitingNumber
| AwaitingTitle.

Definition conv_of (r : ret) : conv :=
  match r with
  | END => Idle
  | ASK_NUMBER => AwaitingNumber
  | ASK_TITLE => AwaitingTitle
  end.

(** The bot and the table of conversations, keyed by chat and user. *)
Record app : Type := {
  app_bot : bot;
  conversations : gmap (Z * Z) conv
}.

(** What reaches [conv_handler]: a document, a text that is no command, the
    command [/cancel], and the job that [conversation_timeout=300] schedules
    firing for a conversation. *)
Inductive update : Type :=
| Document (chat_id user_id : Z) (doc : document)
| TextMsg (chat_id user_id : Z) (text : pystr)
| CancelCmd (chat_id user_id : Z)
| ConversationTimeout (chat_id user_id : Z).

Definition state_of (a : app) (key : Z * Z) : conv :=
  default Idle (conversations a !! key).

Definition set_state (c : conv) (key : Z * Z) (m : gmap (Z * Z) conv)
  : gmap (Z * Z) conv :=
  match c with
  | Idle => delete key m
  | _ => <[key := c]> m
  end.

(** After a handler of the conversation ran: the state follows its return
    value and stays as it is when it raised. *)
Definition after (a : app) (key : Z * Z) (r : result) : app * option reply :=
  match r with
  | Returned b' msg next =>
      ({| app_bot := b';
          conversations := set_state (conv_of next) key (conversations a) |},
       Some msg)
  | Crashed b' =>
      ({| app_bot := b'; conversations := conversations a |}, None)
  end.

Section Dispatch.

Variable ZipFile : list Byte.byte -> option (list ZipInfo).
Variable cfg : config.

(** The handlers registered in [main], in their order.  [draws] are the
    two random strings and the time [ask_title] reads. *)
Definition dispatch (a : app) (draws : pystr * pystr * pystr) (u : update)
  : app * option reply :=
  match u with
  | Document chat_id user_id doc =>
      match state_of a (chat_id, user_id) with
      | Idle =>
          after a (chat_id, user_id)
                (recv_document (app_bot a) chat_id user_id (Some doc))
      | _ => (a, None)
      end
  | TextMsg chat_id user_id text =>
      match state_of a (chat_id, user_id) with
      | Idle => (a, None)
      | AwaitingNumber =>
          after a (chat_id, user_id) (ask_number (app_bot a) chat_id text)
      | AwaitingTitle =>
          let '(course_id, token, now) := draws in
          after a (chat_id, user_id)
                (ask_title ZipFile cfg (app_bot a) chat_id text
                           course_id token now)
      end
  | CancelCmd chat_id user_id =>
      after a (chat_id, user_id) (cancel (app_bot a) chat_id)
  | ConversationTimeout chat_id user_id =>
      ({| app_bot := app_bot a;
          conversations := delete (chat_id, user_id) (conversations a) |},
       None)
  end.

End Dispatch.

End Bot.
Export Bot.

(** * [list_cmd] *)

Module Listing.

(** [sorted(xs, key=..., reverse=True)] for keys that are strings, each
    element coming with its key: the keys descend, and elements with equal
    keys keep the order they had. *)
Fixpoint insert_desc {A : Type} (kx : pystr * A) (xs : list (pystr * A))
  : list (pystr * A) :=
  match xs with
  | [] => [kx]
  | y :: ys =>
      if str_leb (fst y) (fst kx) then kx :: xs else y :: insert_desc kx ys
  end.

Definition sorted_desc {A : Type} (xs : list (pystr * A))
  : list (pystr * A) :=
  fold_right insert_desc [] xs.

(** The key of the sort, [x.get("created_at", empty)] with the empty string
    for a record without the field, when it is a string. *)
Definition created_key (c : json) : option pystr :=
  match py_get c (py "created_at") with
  | Some (Some (JStr s)) => Some s
  | Some None => Some []
  | _ => None
  end.

(** The records with their keys, when every key is a string. *)
Fixpoint with_keys (cs : list json) : option (list (pystr * json)) :=
  match cs with
  | [] => Some []
  | c :: cs' =>
      match created_key c, with_keys cs' with
      | Some k, Some rest => Some ((k, c) :: rest)
      | _, _ => None
      end
  end.

(** What [list_cmd] does: the line for no course; or one line and one
    button for each record of [listed], in that order; or an exception.
    [KeysNotStrings] stands for a sort of two or more records of which one
    has a [created_at] that is no string: what the sort does then is not
    modelled. *)
Inductive list_reply : Type :=
| NoCourses
| Listed (listed : list json)
| ListCrashed
| KeysNotStrings.

Definition render_all (cs : list json) : list_reply :=
  if forallb (fun c => has_key (py "id") c && has_key (py "token") c) cs
  then Listed cs
  else ListCrashed.

Definition list_cmd (courses : json) (user_id : Z) : list_reply :=
  match courses with
  | JObj d =>
      match filter_raising (fun c => owner_is c user_id) (dict_values d) with
      | None => ListCrashed
      | Some [] => NoCourses
      | Some [c] => render_all [c]
      | Some user_courses =>
          match with_keys user_courses with
          | Some keyed => render_all (List.map snd (sorted_desc keyed))
          | None => KeysNotStrings
          end
      end
  | _ => ListCrashed
  end.

End Listing.
Export Listing.

(** * What is stated of the program *)

Section json_induction.
Variable P : json -> Prop.
Hypothesis HNull : P JNull.
Hypothesis HBool : forall b, P (JBool b).
Hypothesis HInt : forall z, P (JInt z).
Hypothesis HFloat : forall l, P (JFloat l).
Hypothesis HStr : forall s, P (JStr s).
Hypothesis HArr : forall xs, Forall P xs -> P (JArr xs).
Hypothesis HObj :
  forall kvs, Forall (fun kv => P (snd kv)) kvs -> P (JObj kvs).

Fixpoint json_nested_ind (v : json) : P v :=
  match v with
  | JNull => HNull
  | JBool b => HBool b
  | JInt z => HInt z
  | JFloat l => HFloat l
  | JStr s => HStr s
  | JArr xs =>
      HArr xs
        ((fix go (xs : list json) : Forall P xs :=
            match xs with
            | [] => List.Forall_nil P
            | x :: xs' => List.Forall_cons P x xs' (json_nested_ind x) (go xs')
            end) xs)
  | JObj kvs =>
      HObj kvs
        ((fix go (kvs : list (pystr * json))
            : Forall (fun kv => P (snd kv)) kvs :=
            match kvs with
            | [] => List.Forall_nil _
            | kv :: kvs' =>
                List.Forall_cons (fun kv => P (snd kv)) kv kvs'
                  (json_nested_ind (snd kv)) (go kvs')
            end) kvs)
  end.
End json_induction.

(** [json_nested_ind] is the induction principle of [json] that gives the
    hypothesis for every element of an array and every value of a dict. *)

(** The text does not go on with a digit. *)
Definition not_digit_head (s : pystr) : Prop :=
  match s with
  | [] => True
  | c :: _ => is_digit c = false
  end.

(** What may follow a value in the output of the encoder: nothing, a comma
    or a line break. *)
Definition delimited (rest : pystr) : Prop :=
  match rest with
  | [] => True
  | c :: _ => c = 44%N \/ c = 10%N
  end.

(** The fuel [scan_once] needs for the encoding of [v]: one unit for each
    value and one for each item of a list or dict. *)
Fixpoint measure (v : json) : nat :=
  match v with
  | JArr xs => S (list_sum (List.map (fun x => S (measure x)) xs))
  | JObj kvs =>
      S (list_sum (List.map (fun kv : pystr * json => S (measure (snd kv))) kvs))
  | _ => 1
  end.

(** The first character of an encoded value is no white space and closes
    no array. *)
Definition value_head (s : pystr) : Prop :=
  match s with
  | c :: _ => is_ws c = false /\ c <> 93%N
  | [] => False
  end.

(** The property proved of each value by induction. *)
Definition decodes (v : json) : Prop :=
  forall level rest fuel,
    py_dict_ok v = true -> float_free v = true ->
    delimited rest -> measure v <= fuel ->
    scan_once fuel (iterencode level v ++ rest) = Some (v, rest).

(** One item of a dict as [iterencode] writes it. *)
Definition encode_item (level : nat) (kv : pystr * json) : pystr :=
  encode_basestring (fst kv) ++ key_separator ++ iterencode level (snd kv).

(** The items of a dict between its braces. *)
Definition object_items (level : nat) (kvs : list (pystr * json)) : pystr :=
  join (item_separator ++ newline_indent (S level))
       (List.map (encode_item (S level)) kvs).

(** Every prefix of [dir] but the empty one is a directory of [t]. *)
Definition dirs_ok (t : tree) (dir : list pystr) : Prop :=
  forall q, q `prefix_of` dir -> q <> [] -> t !! q = Some TDir.

(** The tree an extraction leaves, however it ends. *)
Definition tree_of (o : outcome) : tree :=
  match o with
  | Done t => t
  | Failed t => t
  end.

(** A tree agrees with [t] outside [dir] and keeps the directories down to
    [dir]. *)
Definition below (dir : list pystr) (t t' : tree) : Prop :=
  (forall p, ¬ dir `prefix_of` p -> t' !! p = t !! p) /\ dirs_ok t' dir.

(** The supplied token is the stored one, and is not empty. *)
Definition valid_token (token : option pystr) (m : dict) : Prop :=
  exists t, token = Some t /\ t <> [] /\ dict_get (py "token") m = Some (JStr t).

(** The size of the bytes of a document. *)
Definition actual_size (doc : document) : Z :=
  Z.of_nat (length (file_content doc)).

(** C5 as the specification states it: a document whose declared or actual
    size exceeds the maximum is answered [TooLarge] and leaves the bot as it
    was. *)
Definition rejects_oversized (b : bot) (chat_id user_id : Z) (doc : document)
  : Prop :=
  (exists n, file_size doc = Some n /\ (MAX_ZIP_SIZE < n)%Z)
  \/ (MAX_ZIP_SIZE < actual_size doc)%Z ->
  recv_document b chat_id user_id (Some doc) = Returned b TooLarge END.

(** C10 as the specification states it: a document without a declared name
    becomes a pending upload under the name [upload.zip]. *)
Definition unnamed_accepted (b : bot) (chat_id user_id : Z) (doc : document)
  : Prop :=
  file_name doc = None ->
  exists b',
    recv_document b chat_id user_id (Some doc) = Returned b' AskNumber ASK_NUMBER
    /\ p_filename <$> (TEMP_UPLOADS b' !! chat_id) = Some (py "upload.zip").

(** The snapshot cannot be read or cannot be parsed. *)
Definition corrupt (f : db_file) : Prop :=
  f = Unreadable \/ exists s, f = Text s /\ json_loads s = None.

(** The query [find_cmd] looks for. *)
Definition query_of (args : list pystr) : pystr :=
  lower (strip (join (py " ") args)).

(** [q] occurs in [s], letter case apart. *)
Definition ci_contains (q s : pystr) : bool := contains (lower q) (lower s).

(** The record belongs to the requester and the query occurs, letter case
    apart, in its number and title, which a space joins. *)
Definition matching (args : list pystr) (user_id : Z) (r : CourseRecord)
  : bool :=
  (rec_owner r =? user_id)%Z
  && ci_contains (strip (join (py " ") args))
                 (rec_number r ++ py " " ++ rec_title r).

(** The records a reply shows. *)
Definition found_records (r : find_reply) : list json :=
  match r with
  | Found found => found
  | _ => []
  end.

(** The reply for the records [found]. *)
Definition reply_for (found : list json) : find_reply :=
  match found with
  | [] => NothingFound
  | _ => Found found
  end.


(** The members that pass both tests of the loop. *)
Definition safe_members (ms : list ZipInfo) : list ZipInfo :=
  List.filter (fun m => negb (skip_member (zi_filename m))) ms.

(** The name is absolute, or one of its segments is [..], or its extension
    is denied. *)
Definition unsafe_name (nm : pystr) : Prop :=
  startswith nm [SEP] = true
  \/ In DOTDOT (split_on SEP nm)
  \/ In (lower (suffix (Path nm))) DISALLOWED_EXTS.

(** C4 as the specification states it: the ingestion of an archive that
    has an unsafe member succeeds. *)
Definition succeeds_despite_unsafe
    (ZipFile : list Byte.byte -> option (list ZipInfo)) (cfg : config)
    (b : bot) (chat_id : Z) (text course_id token now : pystr) : Prop :=
  forall temp ms,
    TEMP_UPLOADS b !! chat_id = Some temp ->
    ZipFile (p_bytes temp) = Some ms ->
    (exists m, In m ms /\ unsafe_name (zi_filename m)) ->
    exists b' number title url,
      ask_title ZipFile cfg b chat_id text course_id token now
      = Returned b' (Saved course_id number title url) END.

(** * Scenarios *)

Module Scenarios.

(** The components of a path written as a literal. *)
Definition components (s : string) : list pystr := parts (Path (py s)).

(** A disk on which the directory of course [abc] holds a link to a file of
    its neighbour [abcd]. *)
Definition linked_disk : disk :=
  list_to_map
    [ (components "/data", Dir);
      (components "/data/courses", Dir);
      (components "/data/courses/abc", Dir);
      (components "/data/courses/abc/index.html", File);
      (components "/data/courses/abc/link", Symlink (py "/data/courses/abcd/secret.html"));
      (components "/data/courses/abcd", Dir);
      (components "/data/courses/abcd/secret.html", File) ].

(** The server on that disk, started in [/srv/app]. *)
Definition linked_host : host :=
  {| host_disk := linked_disk;
     host_cwd := components "/srv/app";
     host_root_path := py "/srv/app" |}.

(** Two courses of user 7. *)
Definition course_abc : CourseRecord :=
  {| rec_id := py "abc"; rec_owner := 7; rec_number := py "1";
     rec_title := py "Algebra I"; rec_filename := py "algebra.zip";
     rec_path := py "/data/courses/abc"; rec_token := py "tok";
     rec_created_at := py "2024-01-01T00:00:00" |}.

Definition course_geo : CourseRecord :=
  {| rec_id := py "geo"; rec_owner := 7; rec_number := py "2";
     rec_title := py "Geometry"; rec_filename := py "geometry.zip";
     rec_path := py "/data/courses/geo"; rec_token := py "kot";
     rec_created_at := py "2024-01-02T00:00:00" |}.

Definition two_courses : list CourseRecord := [course_abc; course_geo].

(** A bot with the two courses and no upload in progress. *)
Definition quiet_bot : bot :=
  {| COURSES := registry_of two_courses;
     TEMP_UPLOADS := ∅;
     files := ∅;
     snapshot := save_db (registry_of two_courses) |}.

(** 200 MiB and one byte of zeros. *)
Definition oversized_content : list Byte.byte :=
  N.iter 209715201 (cons Byte.x00) [].

(** A document that declares no size and holds [oversized_content]. *)
Definition undeclared_oversized : document :=
  {| file_size := None;
     file_name := Some (py "big.zip");
     file_content := oversized_content |}.

(** A document that declares no name and one byte more than 200 MiB. *)
Definition unnamed_oversized : document :=
  {| file_size := Some 209715201%Z;
     file_name := None;
     file_content := [] |}.

(** A document that declares neither a name nor a size. *)
Definition unnamed_document : document :=
  {| file_size := None; file_name := None; file_content := [Byte.x50] |}.

(** An upload of chat 5 that waits for its title. *)
Definition waiting_upload : pending :=
  {| p_bytes := [Byte.x50; Byte.x4b];
     p_filename := py "course.zip";
     p_uploader := 7;
     p_number := Some (py "3") |}.

(** The bot with that upload, the conversation of chat 5 and user 7 being
    asked for the title. *)
Definition waiting_app : app :=
  {| app_bot :=
       {| COURSES := registry_of two_courses;
          TEMP_UPLOADS := {[ 5%Z := waiting_upload ]};
          files := ∅;
          snapshot := save_db (registry_of two_courses) |};
     conversations := {[ (5%Z, 7%Z) := AwaitingTitle ]} |}.

Definition no_config : config :=
  {| BASE_URL := py "https://host"; cwd := components "/srv/app" |}.

(** A reader of archives that finds every upload corrupt. *)
Definition corrupt_ZipFile (bytes : list Byte.byte) : option (list ZipInfo) :=
  None.

(** An archive of three members, one of which climbs out of its
    directory. *)
Definition three_members : list ZipInfo :=
  [ {| zi_filename := py "index.html"; zi_data := ReadOk [Byte.x3c] |};
    {| zi_filename := py "../../etc/evil"; zi_data := ReadOk [Byte.x21] |};
    {| zi_filename := py "docs/a.html"; zi_data := ReadOk [Byte.x3e] |} ].

Definition three_ZipFile (bytes : list Byte.byte) : option (list ZipInfo) :=
  Some three_members.

(** An archive of two members: one climbs out of its directory, the copy of
    the other breaks off. *)
Definition broken_members : list ZipInfo :=
  [ {| zi_filename := py "../../etc/evil"; zi_data := ReadOk [Byte.x21] |};
    {| zi_filename := py "notes.txt"; zi_data := CopyFails [Byte.x6e] |} ].

Definition broken_ZipFile (bytes : list Byte.byte) : option (list ZipInfo) :=
  Some broken_members.

(** [data/courses/new] made in an empty tree. *)
Definition new_course_dir : tree :=
  <[components "data/courses/new" := TDir]>
    (<[components "data/courses" := TDir]> (<[components "data" := TDir]> ∅)).

End Scenarios.
Export Scenarios.

(** * Further statements *)

(** Where the loop writes the member [m]. *)
Definition target_of (dir : list pystr) (m : ZipInfo) : list pystr :=
  dir ++ parts (Path (zi_filename m)).

(** The member is not passed over by the loop. *)
Definition extracted (m : ZipInfo) : Prop :=
  skip_member (zi_filename m) = false.

(** An archive with a member for the directory [docs/] and a member in
    it. *)
Definition docs_members : list ZipInfo :=
  [ {| zi_filename := py "docs/"; zi_data := ReadOk [] |};
    {| zi_filename := py "docs/a.html"; zi_data := ReadOk [Byte.x3e] |} ].

Definition docs_ZipFile (bytes : list Byte.byte) : option (list ZipInfo) :=
  Some docs_members.

(** An archive as the usual tools write it, in which every member can be
    read: the directory [docs/] is listed before the file in it, and one
    member climbs out of its directory. *)
Definition listed_members : list ZipInfo :=
  [ {| zi_filename := py "docs/"; zi_data := ReadOk [] |};
    {| zi_filename := py "docs/a.html"; zi_data := ReadOk [Byte.x3e] |};
    {| zi_filename := py "../../etc/evil"; zi_data := ReadOk [Byte.x21] |} ].

Definition listed_ZipFile (bytes : list Byte.byte) : option (list ZipInfo) :=
  Some listed_members.

(** Every member of the archive can be read to its end. *)
Definition readable (ms : list ZipInfo) : Prop :=
  forall m, In m ms -> exists data, zi_data m = ReadOk data.

(** The bot a handler leaves, however it ends. *)
Definition bot_of (r : result) : bot :=
  match r with
  | Returned b _ _ => b
  | Crashed b => b
  end.

(** The value is no dict. *)
Definition not_a_dict (v : json) : Prop :=
  match v with
  | JObj _ => False
  | _ => True
  end.

(** The text [s] between double quotes. *)
Definition quoted (s : string) : pystr := (34%N :: py s) ++ [34%N].

(** A snapshot written by hand, in which the id [abc] comes twice. *)
Definition handwritten_snapshot : pystr :=
  py "{ " ++ quoted "abc" ++ py " : {" ++ quoted "owner" ++ py ":7}, "
  ++ quoted "abc" ++ py " : {" ++ quoted "owner" ++ py ":8} }".

(** The chat an update comes from, and the conversation it belongs to. *)
Definition chat_of (u : update) : Z :=
  match u with
  | Document chat_id _ _ => chat_id
  | TextMsg chat_id _ _ => chat_id
  | CancelCmd chat_id _ => chat_id
  | ConversationTimeout chat_id _ => chat_id
  end.

Definition key_of (u : update) : Z * Z :=
  match u with
  | Document chat_id user_id _ => (chat_id, user_id)
  | TextMsg chat_id user_id _ => (chat_id, user_id)
  | CancelCmd chat_id user_id => (chat_id, user_id)
  | ConversationTimeout chat_id user_id => (chat_id, user_id)
  end.

(** [recv_document] takes the document. *)
Definition acceptable (doc : document) : Prop :=
  declared_too_large doc = false
  /\ endswith (lower (fname_of doc)) (py ".zip") = true.

(** The upload [recv_document] files for a document. *)
Definition upload_of (doc : document) (user_id : Z) : pending :=
  {| p_bytes := file_content doc;
     p_filename := fname_of doc;
     p_uploader := user_id;
     p_number := None |}.

(** A named archive of a few bytes. *)
Definition small_document : document :=
  {| file_size := Some 2%Z;
     file_name := Some (py "Course.ZIP");
     file_content := [Byte.x50; Byte.x4b] |}.

(** A bot that has no registry entry and no upload, and nobody talking. *)
Definition fresh_app : app :=
  {| app_bot := {| COURSES := JObj []; TEMP_UPLOADS := ∅; files := ∅;
                   snapshot := Missing |};
     conversations := ∅ |}.

(** The records of [rs] that belong to [user_id]. *)
Definition owned_by (user_id : Z) (rs : list CourseRecord)
  : list CourseRecord :=
  List.filter (fun r => (rec_owner r =? user_id)%Z) rs.

(** Records in the order of the list: the newest first, records of one date
    in the order they had. *)
Definition by_date (rs : list CourseRecord) : list CourseRecord :=
  List.map snd (sorted_desc (List.map (fun r => (rec_created_at r, r)) rs)).

(** [r1] is as new as [r2] or newer. *)
Definition not_older (r1 r2 : CourseRecord) : Prop :=
  str_leb (rec_created_at r2) (rec_created_at r1) = true.

(** The records dated [k]. *)
Definition dated (k : pystr) (rs : list CourseRecord) : list CourseRecord :=
  List.filter (fun r => str_eqb (rec_created_at r) k) rs.

(** The key of [kx] is not below the key of [ky]. *)
Definition key_ge {A : Type} (kx ky : pystr * A) : Prop :=
  str_leb (fst ky) (fst kx) = true.

(** The view shows the course: it redirects to an index page or lists the
    HTML files. *)
Definition shows_course (r : response) : Prop :=
  match r with
  | RedirectTo _ | Html _ => True
  | _ => False
  end.

(** The extension of the last component of [p] is on the deny list. *)
Definition denied_file (p : list pystr) : bool :=
  str_in (lower (suffix {| is_abs := false; parts := p |})) DISALLOWED_EXTS.

(** A segment of a name that is neither empty nor [.] nor [..]. *)
Definition plain_segment (c : pystr) : Prop :=
  c <> [] /\ c <> DOT /\ c <> DOTDOT.

(** A relative name that climbs nowhere: the empty name, [.], or segments
    that are neither empty nor [.] nor [..], joined by [/]. *)
Definition plain_name (s : pystr) : Prop :=
  s = [] \/ s = DOT
  \/ exists segs, segs <> [] /\ Forall plain_segment segs
                  /\ s = join [SEP] segs.

(** The name is written in ASCII, where [lower] is the whole of
    [str.lower]. *)
Definition ascii_name (s : pystr) : Prop :=
  forallb (fun c => (c <? 128)%N) s = true.


(** The update is the text that answers the question for the title. *)
Definition gives_title (a : app) (u : update) : Prop :=
  match u with
  | TextMsg chat_id user_id _ => state_of a (chat_id, user_id) = AwaitingTitle
  | _ => False
  end.

(** * Properties of the string functions *)

Lemma str_eqb_eq (a b : pystr) : str_eqb a b = true <-> a = b.
Proof.
  revert b. induction a as [|x a IH]; intros [|y b]; simpl; split;
    try congruence; try done.
  - intros [Hxy Hab]%andb_true_iff. apply N.eqb_eq in Hxy.
    apply IH in Hab. congruence.
  - intros [= -> ->]. apply andb_true_iff. split.
    + apply N.eqb_refl.
    + by apply IH.
Qed.

Lemma str_eqb_refl (a : pystr) : str_eqb a a = true.
Proof. by apply str_eqb_eq. Qed.

Lemma str_eqb_neq (a b : pystr) : str_eqb a b = false <-> a <> b.
Proof.
  split.
  - intros H Hab. apply str_eqb_eq in Hab. congruence.
  - intros H. destruct (str_eqb a b) eqn:E; [|done].
    apply str_eqb_eq in E. done.
Qed.

(** * The JSON round trip *)

(** ** Dicts *)

Lemma dict_set_fresh k v (d : dict) :
  k ∉ dict_keys d -> dict_set k v d = d ++ [(k, v)].
Proof.
  induction d as [|[k' v'] d IH]; simpl; [done|].
  intros Hk. apply not_elem_of_cons in Hk as [Hne Hk].
  apply str_eqb_neq in Hne. rewrite Hne. by rewrite IH.
Qed.

Lemma dict_of_pairs_app (acc pairs : dict) :
  NoDup (dict_keys (acc ++ pairs)) ->
  fold_left (fun d kv => dict_set (fst kv) (snd kv) d) pairs acc = acc ++ pairs.
Proof.
  revert acc. induction pairs as [|[k v] pairs IH]; intros acc Hnd; simpl.
  - by rewrite app_nil_r.
  - rewrite dict_set_fresh.
    + rewrite IH; rewrite <- app_assoc; [done|]. exact Hnd.
    + unfold dict_keys in *. rewrite map_app in Hnd. simpl in Hnd.
      apply NoDup_app in Hnd as (_ & Hdis & _).
      intros Hin. apply (Hdis k Hin). left.
Qed.

Lemma dict_of_pairs_id (d : dict) :
  NoDup (dict_keys d) -> dict_of_pairs d = d.
Proof. intros H. unfold dict_of_pairs. by rewrite dict_of_pairs_app. Qed.

(** ** Strings *)

Lemma hex_escape_roundtrip (c : N) (rest : pystr) :
  (c < 32)%N ->
  scan_escape ([117; 48; 48; hexdigit (c / 16); hexdigit (c mod 16)]%N ++ rest)
  = Some (c, rest).
Proof.
  intros Hc.
  assert (Hn : exists n, n < 32 /\ c = N.of_nat n).
  { exists (N.to_nat c). split; [lia|]. by rewrite N2Nat.id. }
  destruct Hn as (n & Hn & ->).
  do 32 (destruct n as [|n]; [reflexivity|]). lia.
Qed.

Lemma escape_char_cases (c : pychar) :
  (escape_char c = [c] /\ c <> 34%N /\ c <> 92%N /\ (32 <= c)%N)
  \/ (exists e, escape_char c = 92%N :: e
               /\ forall rest, scan_escape (e ++ rest) = Some (c, rest)).
Proof.
  unfold escape_char.
  destruct (N.eqb_spec c 92) as [->|H92]; [right; by eexists|].
  destruct (N.eqb_spec c 34) as [->|H34]; [right; by eexists|].
  destruct (N.eqb_spec c 8) as [->|H8]; [right; by eexists|].
  destruct (N.eqb_spec c 12) as [->|H12]; [right; by eexists|].
  destruct (N.eqb_spec c 10) as [->|H10]; [right; by eexists|].
  destruct (N.eqb_spec c 13) as [->|H13]; [right; by eexists|].
  destruct (N.eqb_spec c 9) as [->|H9]; [right; by eexists|].
  destruct (N.ltb_spec c 32) as [Hlt|Hge].
  - right. eexists. split; [done|]. intros rest.
    by apply hex_escape_roundtrip.
  - left. done.
Qed.

Lemma escape_char_length (c : pychar) : 1 <= length (escape_char c).
Proof.
  unfold escape_char.
  repeat match goal with |- context [if ?b then _ else _] => destruct b end;
    simpl; lia.
Qed.

Lemma scanstring_go_escape (s rest : pystr) (fuel : nat) :
  length (escape s) < fuel ->
  scanstring_go fuel (escape s ++ 34%N :: rest) = Some (s, rest).
Proof.
  revert fuel. induction s as [|c s IH]; intros fuel Hfuel; simpl in *.
  - destruct fuel; [lia|]. done.
  - rewrite length_app in Hfuel.
    pose proof (escape_char_length c) as Hlen.
    destruct (escape_char_cases c) as [(-> & H34 & H92 & Hge)|(e & -> & He)].
    + destruct fuel as [|fuel]; [simpl in *; lia|]. simpl.
      apply N.eqb_neq in H34, H92. rewrite H34, H92.
      destruct (N.ltb_spec c 32) as [?|_]; [lia|].
      rewrite IH; [done|]. simpl in *. lia.
    + destruct fuel as [|fuel]; [simpl in *; lia|]. simpl.
      rewrite <- app_assoc, He.
      rewrite IH; [done|]. simpl in *. lia.
Qed.

Lemma scanstring_encode (s rest : pystr) :
  scanstring (escape s ++ 34%N :: rest) = Some (s, rest).
Proof.
  unfold scanstring. apply scanstring_go_escape.
  rewrite length_app. simpl. lia.
Qed.

(** ** Integers *)

Lemma chars_uint_uint_chars (d : Decimal.uint) : chars_uint (uint_chars d) = d.
Proof. induction d; simpl; by f_equal. Qed.

Lemma span_digits_uint_chars (d : Decimal.uint) (rest : pystr) :
  not_digit_head rest ->
  span_digits (uint_chars d ++ rest) = (uint_chars d, rest).
Proof.
  intros Hrest. induction d; simpl; try (by rewrite IHd).
  destruct rest as [|c rest]; simpl in *; [done|]. by rewrite Hrest.
Qed.

Lemma unorm_D0 (x y : Decimal.uint) :
  Decimal.unorm x = Decimal.D0 y -> y = Decimal.Nil.
Proof.
  induction x; simpl; try discriminate; auto.
  by intros [= <-].
Qed.

Lemma to_uint_head (p : positive) :
  match Pos.to_uint p with
  | Decimal.Nil | Decimal.D0 _ => False
  | _ => True
  end.
Proof.
  pose proof (DecimalPos.Unsigned.to_of (Pos.to_uint p)) as H.
  rewrite DecimalPos.Unsigned.of_to in H. simpl in H.
  pose proof (DecimalPos.Unsigned.to_uint_nonzero p) as Hnz.
  destruct (Pos.to_uint p) eqn:E; try done.
  simpl in H. symmetry in H. apply unorm_D0 in H. subst. done.
Qed.

Lemma delimited_not_digit rest : delimited rest -> not_digit_head rest.
Proof. destruct rest as [|c rest]; simpl; [done|]. by intros [-> | ->]. Qed.

Lemma scan_frac_delimited rest : delimited rest -> scan_frac rest = ([], rest).
Proof. destruct rest as [|c rest]; simpl; [done|]. by intros [-> | ->]. Qed.

Lemma scan_exp_delimited rest : delimited rest -> scan_exp rest = ([], rest).
Proof. destruct rest as [|c rest]; simpl; [done|]. by intros [-> | ->]. Qed.

Lemma scan_integer_pos (p : positive) (rest : pystr) :
  not_digit_head rest ->
  scan_integer (uint_chars (Pos.to_uint p) ++ rest)
  = Some (false, uint_chars (Pos.to_uint p), rest)
  /\ scan_integer (45%N :: uint_chars (Pos.to_uint p) ++ rest)
     = Some (true, uint_chars (Pos.to_uint p), rest).
Proof.
  intros Hrest. pose proof (to_uint_head p) as Hhead.
  unfold scan_integer.
  destruct (Pos.to_uint p) as [|d|d|d|d|d|d|d|d|d|d]; try done; simpl;
    rewrite (span_digits_uint_chars d rest Hrest); done.
Qed.

Lemma match_number_int_repr (z : Z) (rest : pystr) :
  delimited rest ->
  match_number (int_repr z ++ rest) = Some (JInt z, rest).
Proof.
  intros Hrest. pose proof (delimited_not_digit _ Hrest) as Hnd.
  unfold match_number, int_repr.
  destruct z as [|p|p]; simpl Z.to_int; cbv iota beta.
  - simpl. by rewrite scan_frac_delimited, scan_exp_delimited.
  - destruct (scan_integer_pos p rest Hnd) as [-> _].
    rewrite scan_frac_delimited, scan_exp_delimited by done.
    rewrite chars_uint_uint_chars.
    change (N.of_uint (Pos.to_uint p)) with (Pos.of_uint (Pos.to_uint p)).
    by rewrite DecimalPos.Unsigned.of_to.
  - change ((45%N :: uint_chars (Pos.to_uint p)) ++ rest)
      with (45%N :: uint_chars (Pos.to_uint p) ++ rest).
    destruct (scan_integer_pos p rest Hnd) as [_ ->].
    rewrite scan_frac_delimited, scan_exp_delimited by done.
    rewrite chars_uint_uint_chars.
    change (N.of_uint (Pos.to_uint p)) with (Pos.of_uint (Pos.to_uint p)).
    by rewrite DecimalPos.Unsigned.of_to.
Qed.

(** ** Values *)

Lemma skip_ws_value_head s : value_head s -> skip_ws s = s.
Proof. destruct s as [|c s]; simpl; [done|]. by intros [-> _]. Qed.

Lemma expect_value_head s : value_head s -> expect 93%N s = None.
Proof.
  destruct s as [|c s]; simpl; [done|]. intros [_ Hc].
  unfold char_eqb. by apply N.eqb_neq in Hc as ->.
Qed.

Lemma skip_ws_spaces n s : skip_ws (repeat 32%N n ++ s) = skip_ws s.
Proof. induction n; simpl; done. Qed.

Lemma skip_ws_newline_indent level s :
  skip_ws (newline_indent level ++ s) = skip_ws s.
Proof. unfold newline_indent. simpl. apply skip_ws_spaces. Qed.

Lemma delimited_newline_indent level s : delimited (newline_indent level ++ s).
Proof. simpl. by right. Qed.

Lemma uint_chars_head (d : Decimal.uint) (rest : pystr) :
  d <> Decimal.Nil -> 
  exists c tl, uint_chars d ++ rest = c :: tl /\ is_digit c = true.
Proof. destruct d; try done; intros _; simpl; by do 2 eexists. Qed.

Lemma int_repr_head (z : Z) (rest : pystr) :
  exists c tl, int_repr z ++ rest = c :: tl
               /\ (c = 45%N \/ is_digit c = true).
Proof.
  unfold int_repr. destruct z as [|p|p]; simpl Z.to_int; cbv iota beta.
  - simpl. do 2 eexists. split; [done|]. by right.
  - destruct (uint_chars_head (Pos.to_uint p) rest) as (c & tl & -> & Hc).
    { apply DecimalPos.Unsigned.to_uint_nonnil. }
    do 2 eexists. split; [done|]. by right.
  - simpl. do 2 eexists. split; [done|]. by left.
Qed.

Lemma is_digit_bounds c : is_digit c = true -> (48 <= c <= 57)%N.
Proof. unfold is_digit. intros [?%N.leb_le ?%N.leb_le]%andb_true_iff. lia. Qed.

Lemma number_head_value_head c tl :
  c = 45%N \/ is_digit c = true -> value_head (c :: tl).
Proof.
  intros [-> | Hc%is_digit_bounds]; simpl; [done|].
  unfold is_ws. split; [|lia].
  repeat (apply orb_false_iff; split); apply N.eqb_neq; lia.
Qed.

Lemma strip_prefix_head_ne x p c tl :
  x <> c -> strip_prefix (x :: p) (c :: tl) = None.
Proof. intros H. simpl. unfold char_eqb. by apply N.eqb_neq in H as ->. Qed.

Lemma scan_once_number fuel c tl :
  c = 45%N \/ is_digit c = true ->
  scan_once (S fuel) (c :: tl)
  = match match_number (c :: tl) with
    | Some r => Some r
    | None => scan_constant (c :: tl)
    end.
Proof.
  intros Hc.
  assert (Hne : forall n, (n < 45 \/ 57 < n)%N -> c <> n).
  { intros n Hn. destruct Hc as [-> | Hc%is_digit_bounds]; lia. }
  cbn [scan_once].
  rewrite (proj2 (N.eqb_neq c 34)), (proj2 (N.eqb_neq c 123)),
    (proj2 (N.eqb_neq c 91)) by (apply Hne; lia).
  change (py "null") with (110%N :: py "ull").
  change (py "true") with (116%N :: py "rue").
  change (py "false") with (102%N :: py "alse").
  rewrite !strip_prefix_head_ne; [done|..];
    (intros Heq; symmetry in Heq; revert Heq; apply Hne; lia).
Qed.

Lemma escape_value_head s rest : value_head (encode_basestring s ++ rest).
Proof. done. Qed.

Lemma iterencode_head level v rest :
  float_free v = true -> value_head (iterencode level v ++ rest).
Proof.
  destruct v as [|[]|z|l|s|[|x xs]|[|kv kvs]]; try done.
  intros _. simpl iterencode.
  destruct (int_repr_head z rest) as (c & tl & -> & Hc).
  by apply number_head_value_head.
Qed.

Lemma join_value_head {A} sep (f : A -> pystr) x xs rest :
  (forall r, value_head (f x ++ r)) ->
  value_head (join sep (List.map f (x :: xs)) ++ rest).
Proof.
  intros H. destruct xs; cbn [join List.map]; [apply H|].
  rewrite <- app_assoc. apply H.
Qed.

Lemma JSONArray_items_encode level rest (xs : list json) :
  xs <> [] ->
  Forall decodes xs ->
  forallb py_dict_ok xs = true -> forallb float_free xs = true ->
  forall fuel,
    list_sum (List.map (fun x => S (measure x)) xs) <= fuel ->
    JSONArray_items fuel
      (join (item_separator ++ newline_indent (S level))
            (List.map (iterencode (S level)) xs)
       ++ newline_indent level ++ 93%N :: rest)
    = Some (xs, rest).
Proof.
  induction xs as [|x xs IH]; [done|].
  intros _ Hdec Hok Hff fuel Hfuel.
  apply Forall_cons in Hdec as [Hx Hxs].
  simpl in Hok, Hff.
  apply andb_true_iff in Hok as [Hokx Hokxs].
  apply andb_true_iff in Hff as [Hffx Hffxs].
  destruct fuel as [|fuel]; [simpl in Hfuel; lia|].
  simpl in Hfuel.
  destruct xs as [|x' xs].
  - cbn [join List.map JSONArray_items].
    rewrite Hx; [|done|done|apply delimited_newline_indent|lia].
    cbv zeta. rewrite skip_ws_newline_indent. done.
  - change (join ?sep (List.map ?f (x :: x' :: xs)))
      with (f x ++ sep ++ join sep (List.map f (x' :: xs))).
    rewrite <- !app_assoc.
    cbn [JSONArray_items].
    rewrite Hx; [|done|done|by left|lia].
    cbv zeta. 
    change (skip_ws (item_separator ++ ?s)) with (item_separator ++ s).
    change (expect 93%N (item_separator ++ ?s)) with (@None pystr).
    change (expect 44%N (item_separator ++ ?s)) with (Some s).
    cbv iota beta.
    rewrite skip_ws_newline_indent.
    rewrite skip_ws_value_head.
    2:{ apply join_value_head. intros r. apply iterencode_head.
        simpl in Hffxs. by apply andb_true_iff in Hffxs as [? _]. }
    rewrite (IH ltac:(done) Hxs Hokxs Hffxs fuel); [done|].
    simpl in *. lia.
Qed.

Lemma encode_item_eq level k x r :
  encode_item level (k, x) ++ r
  = 34%N :: escape k ++ 34%N :: 58%N :: 32%N :: iterencode level x ++ r.
Proof.
  unfold encode_item, encode_basestring, key_separator. simpl.
  by rewrite <- !app_assoc.
Qed.

Lemma JSONObject_items_step fuel level k x r :
  decodes x -> py_dict_ok x = true -> float_free x = true ->
  delimited r -> measure x <= fuel ->
  JSONObject_items (S fuel)
    (escape k ++ 34%N :: 58%N :: 32%N :: iterencode level x ++ r)
  = match expect 125%N (skip_ws r) with
    | Some rest => Some ([(k, x)], rest)
    | None =>
        match expect 44%N (skip_ws r) with
        | Some s5 =>
            match expect 34%N (skip_ws s5) with
            | Some s6 =>
                match JSONObject_items fuel s6 with
                | Some (pairs, rest) => Some ((k, x) :: pairs, rest)
                | None => None
                end
            | None => None
            end
        | None => None
        end
    end.
Proof.
  intros Hx Hok Hff Hr Hfuel.
  cbn [JSONObject_items]. rewrite scanstring_encode.
  change (skip_ws (58%N :: ?s)) with (58%N :: s).
  change (expect 58%N (58%N :: ?s)) with (Some s).
  cbv iota beta.
  change (skip_ws (32%N :: ?s)) with (skip_ws s).
  rewrite skip_ws_value_head by by apply iterencode_head.
  rewrite Hx by done. done.
Qed.

Lemma object_items_head level kv kvs r :
  object_items level (kv :: kvs) ++ r
  = 34%N :: tl (object_items level (kv :: kvs) ++ r).
Proof. destruct kv as [k x]. by destruct kvs. Qed.

Lemma JSONObject_items_encode level rest (kvs : list (pystr * json)) :
  kvs <> [] ->
  Forall (fun kv => decodes (snd kv)) kvs ->
  forallb (fun kv : pystr * json => py_dict_ok (snd kv)) kvs = true ->
  forallb (fun kv : pystr * json => float_free (snd kv)) kvs = true ->
  forall fuel,
    list_sum (List.map (fun kv : pystr * json => S (measure (snd kv))) kvs)
    <= fuel ->
    JSONObject_items fuel
      (tl (object_items level kvs ++ newline_indent level ++ 125%N :: rest))
    = Some (kvs, rest).
Proof.
  induction kvs as [|[k x] kvs IH]; [done|].
  intros _ Hdec Hok Hff fuel Hfuel.
  apply Forall_cons in Hdec as [Hx Hxs].
  simpl in Hok, Hff, Hx.
  apply andb_true_iff in Hok as [Hokx Hokxs].
  apply andb_true_iff in Hff as [Hffx Hffxs].
  destruct fuel as [|fuel]; [simpl in Hfuel; lia|].
  simpl in Hfuel.
  destruct kvs as [|kv' kvs].
  - unfold object_items. cbn [join List.map].
    rewrite encode_item_eq. cbn [tl].
    etrans;
      [apply JSONObject_items_step;
         [done|done|done|apply delimited_newline_indent|lia]|].
    by rewrite skip_ws_newline_indent.
  - unfold object_items.
    change (join ?sep (List.map ?f ((k, x) :: kv' :: kvs)))
      with (f (k, x) ++ sep ++ join sep (List.map f (kv' :: kvs))).
    fold (object_items level (kv' :: kvs)).
    rewrite <- !app_assoc.
    rewrite encode_item_eq. cbn [tl].
    etrans; [apply JSONObject_items_step; [done|done|done|by left|lia]|].
    change (skip_ws (item_separator ++ ?s)) with (item_separator ++ s).
    change (expect 125%N (item_separator ++ ?s)) with (@None pystr).
    change (expect 44%N (item_separator ++ ?s)) with (Some s).
    cbv iota beta.
    rewrite skip_ws_newline_indent.
    rewrite object_items_head.
    change (skip_ws (34%N :: ?s)) with (34%N :: s).
    change (expect 34%N (34%N :: ?s)) with (Some s).
    cbv iota beta.
    rewrite (IH ltac:(done) Hxs Hokxs Hffxs fuel); [done|].
    simpl in *. lia.
Qed.

Lemma iterencode_JArr level x xs :
  iterencode level (JArr (x :: xs))
  = 91%N :: newline_indent (S level)
    ++ join (item_separator ++ newline_indent (S level))
            (List.map (iterencode (S level)) (x :: xs))
    ++ newline_indent level ++ [93%N].
Proof. done. Qed.

Lemma iterencode_JObj level kv kvs :
  iterencode level (JObj (kv :: kvs))
  = 123%N :: newline_indent (S level)
    ++ object_items level (kv :: kvs)
    ++ newline_indent level ++ [125%N].
Proof. done. Qed.

Lemma scan_once_iterencode (v : json) : decodes v.
Proof.
  induction v as [|b|z|l|s|xs IH|kvs IH] using json_nested_ind;
    intros level rest fuel Hok Hff Hrest Hfuel;
    (destruct fuel as [|fuel]; [simpl in Hfuel; lia|]).
  - done.
  - by destruct b.
  - simpl iterencode.
    destruct (int_repr_head z rest) as (c & tl & E & Hc).
    rewrite E, scan_once_number by done. rewrite <- E.
    by rewrite match_number_int_repr.
  - done.
  - simpl iterencode. unfold encode_basestring.
    change ((34%N :: escape s ++ [34%N]) ++ rest)
      with (34%N :: (escape s ++ [34%N]) ++ rest).
    rewrite <- app_assoc. cbn [scan_once].
    change (34 =? 34)%N with true. cbv iota.
    change ([34%N] ++ rest) with (34%N :: rest).
    by rewrite scanstring_encode.
  - destruct xs as [|x xs]; [done|].
    rewrite iterencode_JArr.
    change ((91%N :: ?a) ++ rest) with (91%N :: a ++ rest).
    rewrite <- !app_assoc.
    cbn [scan_once].
    change (91 =? 34)%N with false. change (91 =? 123)%N with false.
    change (91 =? 91)%N with true. cbv iota zeta.
    rewrite skip_ws_newline_indent.
    assert (Hhead : value_head
      (join (item_separator ++ newline_indent (S level))
            (List.map (iterencode (S level)) (x :: xs))
       ++ newline_indent level ++ [93%N] ++ rest)).
    { apply join_value_head. intros r. apply iterencode_head.
      simpl in Hff. by apply andb_true_iff in Hff as [? _]. }
    rewrite skip_ws_value_head by done.
    rewrite expect_value_head by done.
    change ([93%N] ++ rest) with (93%N :: rest).
    rewrite JSONArray_items_encode; try done.
    simpl in Hfuel. simpl. lia.
  - destruct kvs as [|kv kvs]; [done|].
    rewrite iterencode_JObj.
    change ((123%N :: ?a) ++ rest) with (123%N :: a ++ rest).
    rewrite <- !app_assoc.
    cbn [scan_once].
    change (123 =? 34)%N with false. change (123 =? 123)%N with true.
    cbv iota zeta.
    rewrite skip_ws_newline_indent.
    rewrite object_items_head.
    change (skip_ws (34%N :: ?s)) with (34%N :: s).
    change (expect 125%N (34%N :: ?s)) with (@None pystr).
    change (expect 34%N (34%N :: ?s)) with (Some s).
    cbv iota beta.
    change ([125%N] ++ rest) with (125%N :: rest).
    simpl in Hok. apply andb_true_iff in Hok as [Hnd Hok].
    apply bool_decide_eq_true in Hnd.
    rewrite JSONObject_items_encode; try done.
    + by rewrite dict_of_pairs_id.
    + simpl in Hfuel. simpl. lia.
Qed.

Lemma join_measure {A} (m : A -> nat) (f : A -> pystr) sep (xs : list A) :
  1 <= length sep ->
  Forall (fun x => m x <= length (f x)) xs ->
  list_sum (List.map (fun x => S (m x)) xs)
  <= length (join sep (List.map f xs)) + 1.
Proof.
  intros Hsep. induction 1 as [|x xs Hx Hxs IH]; [simpl; lia|].
  destruct xs as [|x' xs].
  - simpl. lia.
  - change (join sep (List.map f (x :: x' :: xs)))
      with (f x ++ sep ++ join sep (List.map f (x' :: xs))).
    rewrite !length_app.
    change (List.map (fun x => S (m x)) (x :: x' :: xs))
      with (S (m x) :: List.map (fun x => S (m x)) (x' :: xs)).
    cbn [list_sum fold_right]. fold (list_sum (List.map (fun x => S (m x)) (x' :: xs))). lia.
Qed.

Lemma int_repr_length (z : Z) : 1 <= length (int_repr z).
Proof.
  destruct (int_repr_head z []) as (c & tl & E & _).
  rewrite app_nil_r in E. rewrite E. simpl. lia.
Qed.

Lemma measure_le_length (v : json) :
  forall level, float_free v = true -> measure v <= length (iterencode level v).
Proof.
  induction v as [|b|z|l|s|xs IH|kvs IH] using json_nested_ind;
    intros level Hff.
  - simpl. lia.
  - destruct b; simpl; lia.
  - simpl. apply int_repr_length.
  - done.
  - simpl. lia.
  - destruct xs as [|x xs]; [simpl; lia|].
    rewrite iterencode_JArr.
    cbn [length measure]. rewrite !length_app. cbn [length].
    opose proof* (join_measure measure (iterencode (S level))
                  (item_separator ++ newline_indent (S level)) (x :: xs)) as H'.
    { simpl. lia. }
    { change (forallb float_free (x :: xs) = true) in Hff.
      rewrite forallb_forall in Hff.
      rewrite List.Forall_forall in IH. apply List.Forall_forall.
      intros y Hy. apply IH; [done|]. by apply Hff. }
    lia.
  - destruct kvs as [|kv kvs]; [simpl; lia|].
    rewrite iterencode_JObj.
    cbn [length measure]. rewrite !length_app. cbn [length].
    opose proof* (join_measure (fun kv => measure (snd kv))
                  (encode_item (S level))
                  (item_separator ++ newline_indent (S level)) (kv :: kvs)) as H'.
    { simpl. lia. }
    { change (forallb (fun kv : pystr * json => float_free (snd kv))
                      (kv :: kvs) = true) in Hff.
      rewrite forallb_forall in Hff.
      rewrite List.Forall_forall in IH. apply List.Forall_forall.
      intros y Hy. unfold encode_item. rewrite !length_app.
      specialize (IH y Hy (S level) (Hff y Hy)). lia. }
    fold (object_items level (kv :: kvs)) in H'. lia.
Qed.

(** [json.loads] undoes [json.dumps] on every value made of dicts, lists,
    strings, integers, booleans and [None]. *)
Lemma json_loads_dumps (v : json) :
  py_dict_ok v = true -> float_free v = true ->
  json_loads (json_dumps v) = Some v.
Proof.
  intros Hok Hff. unfold json_loads, json_dumps.
  pose proof (iterencode_head 0 v [] Hff) as Hhead.
  rewrite app_nil_r in Hhead.
  rewrite skip_ws_value_head by done.
  pose proof (scan_once_iterencode v 0 []
                (2 * length (iterencode 0 v) + 2) Hok Hff I) as H.
  rewrite app_nil_r in H. rewrite H; [done|].
  pose proof (measure_le_length v 0 Hff). lia.
Qed.

(** * The tree *)

Lemma rmtree_inside (t : tree) (d p : list pystr) :
  d `prefix_of` p -> rmtree t d !! p = None.
Proof.
  intros Hp. unfold rmtree. apply map_lookup_filter_None. right.
  intros x _ Hnot. by apply Hnot.
Qed.

Lemma rmtree_outside (t : tree) (d p : list pystr) :
  ¬ d `prefix_of` p -> rmtree t d !! p = t !! p.
Proof.
  intros Hp. unfold rmtree. destruct (t !! p) as [x|] eqn:E.
  - apply map_lookup_filter_Some. done.
  - apply map_lookup_filter_None. by left.
Qed.

(** [mkdir_from] changes nothing but missing paths between [base] and
    [base ++ rest], which become directories. *)
Lemma mkdir_from_lookup (rest : list pystr) :
  forall (t t' : tree) (base p : list pystr),
    mkdir_from t base rest = Some t' ->
    t' !! p = t !! p
    \/ (t !! p = None /\ t' !! p = Some TDir
        /\ p <> [] /\ p `prefix_of` base ++ rest).
Proof.
  induction rest as [|c rest IH]; intros t t' base p Hmk; simpl in Hmk.
  - left. congruence.
  - assert (Hq : forall p', p' `prefix_of` (base ++ [c]) ++ rest ->
                            p' `prefix_of` base ++ c :: rest).
    { intros p'. by rewrite <- app_assoc. }
    destruct (t !! (base ++ [c])) as [[data|]|] eqn:E; [done| |].
    + destruct (IH _ _ _ p Hmk) as [?|(? & ? & ? & ?)]; [by left|].
      right. eauto.
    + destruct (IH _ _ _ p Hmk) as [Hsame|(Hnone & Hdir & Hne & Hpre)].
      * destruct (decide (p = base ++ [c])) as [->|Hp].
        -- right. rewrite Hsame, lookup_insert_eq. repeat split; [done| |].
           ++ by destruct base.
           ++ apply prefix_app, prefix_cons, prefix_nil.
        -- left. by rewrite Hsame, lookup_insert_ne.
      * right. destruct (decide (p = base ++ [c])) as [->|Hp].
        -- by rewrite lookup_insert_eq in Hnone.
        -- rewrite lookup_insert_ne in Hnone by done. eauto.
Qed.

Lemma removelast_prefix {A} (l : list A) : removelast l `prefix_of` l.
Proof.
  destruct l as [|x l] using rev_ind; [done|].
  rewrite removelast_last. by apply prefix_app_r.
Qed.

(** Making directories for a path below [dir] leaves all outside [dir] as
    it is. *)
Lemma mkdir_parents_below (t t' : tree) (dir target : list pystr) :
  dirs_ok t dir -> dir `prefix_of` target ->
  mkdir_parents t (removelast target) = Some t' ->
  (forall p, ¬ dir `prefix_of` p -> t' !! p = t !! p) /\ dirs_ok t' dir.
Proof.
  intros Hok Hdir Hmk.
  assert (Hch : forall p,
    t' !! p = t !! p
    \/ (t !! p = None /\ t' !! p = Some TDir /\ dir `prefix_of` p)).
  { intros p.
    destruct (mkdir_from_lookup _ _ _ [] p Hmk)
      as [?|(Hnone & Hdir' & Hne & Hpre)]; [by left|].
    right. repeat split; try done. simpl in Hpre.
    assert (Hp : p `prefix_of` target).
    { etrans; [exact Hpre|apply removelast_prefix]. }
    destruct (prefix_weak_total _ _ _ Hp Hdir) as [Hpd|Hdp]; [|done].
    rewrite (Hok p Hpd Hne) in Hnone. done. }
  split.
  - intros p Hout. destruct (Hch p) as [?|(_ & _ & ?)]; done.
  - intros q Hq Hne. destruct (Hch q) as [->|(_ & ? & _)]; [|done].
    by apply Hok.
Qed.

Lemma open_wb_below (t t2 : tree) (dir target : list pystr) :
  dirs_ok t dir -> dir `prefix_of` target ->
  open_wb t target = Some t2 ->
  t2 = <[target := TFile []]> t /\ ¬ target `prefix_of` dir.
Proof.
  intros Hok Hdir Hopen. unfold open_wb in Hopen.
  destruct target as [|c target]; [done|].
  destruct (t !! (c :: target)) as [[data|]|] eqn:E; [| done |];
    (destruct (is_dir t (removelast (c :: target))); [|done]);
    injection Hopen as <-; (split; [done|]);
    intros Hpre; rewrite (Hok _ Hpre) in E; done.
Qed.

Lemma insert_below (t : tree) (dir target : list pystr) (x : tnode) :
  dirs_ok t dir -> dir `prefix_of` target -> ¬ target `prefix_of` dir ->
  (forall p, ¬ dir `prefix_of` p -> <[target := x]> t !! p = t !! p)
  /\ dirs_ok (<[target := x]> t) dir.
Proof.
  intros Hok Hdir Hnot. split.
  - intros p Hout. apply lookup_insert_ne. by intros ->.
  - intros q Hq Hne. rewrite lookup_insert_ne; [by apply Hok|].
    by intros ->.
Qed.

Lemma below_refl dir t : dirs_ok t dir -> below dir t t.
Proof. by split. Qed.

Lemma below_trans dir t1 t2 t3 :
  below dir t1 t2 -> below dir t2 t3 -> below dir t1 t3.
Proof.
  intros [H12 _] [H23 Hok]. split; [|done].
  intros p Hp. by rewrite H23, H12.
Qed.

Lemma extract_member_below (t : tree) (dir : list pystr) (m : ZipInfo) :
  dirs_ok t dir -> below dir t (tree_of (extract_member t dir m)).
Proof.
  intros Hok. unfold extract_member.
  set (target := dir ++ parts (Path (zi_filename m))).
  assert (Hdir : dir `prefix_of` target) by apply prefix_app_r, reflexivity.
  destruct (mkdir_parents t (removelast target)) as [t1|] eqn:Hmk;
    [|by apply below_refl].
  pose proof (mkdir_parents_below _ _ _ _ Hok Hdir Hmk) as H1.
  destruct H1 as [Hout1 Hok1].
  assert (Hopen : forall x,
    match open_wb t1 target with
    | Some t2 => below dir t (<[target := x]> t2)
    | None => below dir t t1
    end).
  { intros x. destruct (open_wb t1 target) as [t2|] eqn:Hopen; [|by split].
    destruct (open_wb_below _ _ _ _ Hok1 Hdir Hopen) as [-> Hnot].
    rewrite insert_insert_eq.
    apply (below_trans dir t t1); [by split|].
    by apply insert_below. }
  destruct (zi_data m) as [data| |written]; [| by split |].
  - specialize (Hopen (TFile data)). by destruct (open_wb t1 target).
  - specialize (Hopen (TFile written)). by destruct (open_wb t1 target).
Qed.

(** The loop writes nothing outside [dir]. *)
Lemma extract_all_below (ms : list ZipInfo) :
  forall (t : tree) (dir : list pystr),
    dirs_ok t dir -> below dir t (tree_of (extract_all t dir ms)).
Proof.
  induction ms as [|m ms IH]; intros t dir Hok; simpl.
  - by apply below_refl.
  - destruct (skip_member (zi_filename m)); [by apply IH|].
    pose proof (extract_member_below t dir m Hok) as Hm.
    destruct (extract_member t dir m) as [t'|t']; [|done].
    apply (below_trans dir t t'); [done|]. apply IH, Hm.
Qed.

(** A member that is skipped counts for nothing. *)
Lemma extract_all_skips (ms : list ZipInfo) :
  forall (t : tree) (dir : list pystr),
    extract_all t dir ms
    = extract_all t dir
        (List.filter (fun m => negb (skip_member (zi_filename m))) ms).
Proof.
  induction ms as [|m ms IH]; intros t dir; [done|]. simpl.
  destruct (skip_member (zi_filename m)) eqn:E; simpl; [by apply IH|].
  rewrite E. destruct (extract_member t dir m); [by apply IH|done].
Qed.

(** After [mkdir_from], all between [base] and [base ++ rest] are
    directories. *)
Lemma mkdir_from_dirs (rest : list pystr) :
  forall (t t' : tree) (base q : list pystr),
    mkdir_from t base rest = Some t' ->
    base `prefix_of` q -> q <> base -> q `prefix_of` base ++ rest ->
    t' !! q = Some TDir.
Proof.
  induction rest as [|c rest IH]; intros t t' base q Hmk Hbq Hne Hq.
  - rewrite app_nil_r in Hq. destruct Hne. by apply (anti_symm prefix).
  - simpl in Hmk.
    destruct (decide (q = base ++ [c])) as [->|Hqc].
    + destruct (t !! (base ++ [c])) as [[data|]|] eqn:E; [done| |].
      * destruct (mkdir_from_lookup _ _ _ _ (base ++ [c]) Hmk)
          as [->|(? & ? & _)]; done.
      * destruct (mkdir_from_lookup _ _ _ _ (base ++ [c]) Hmk)
          as [->|(? & ? & _)]; [|done]. apply lookup_insert_eq.
    + assert (Hbc : base ++ [c] `prefix_of` q).
      { destruct Hbq as [k ->]. destruct Hq as [k' Hk'].
        rewrite <- app_assoc in Hk'. apply app_inv_head in Hk'.
        destruct k as [|x k]; [by rewrite app_nil_r in Hne|].
        simpl in Hk'. injection Hk' as <- _.
        by apply prefix_app, prefix_cons, prefix_nil. }
      assert (Hq' : q `prefix_of` (base ++ [c]) ++ rest)
        by by rewrite <- app_assoc.
      destruct (t !! (base ++ [c])) as [[data|]|] eqn:E; [done| |];
        by apply (IH _ _ _ _ Hmk).
Qed.

Lemma mkdir_parents_dirs (t t' : tree) (dir : list pystr) :
  mkdir_parents t dir = Some t' -> dirs_ok t' dir.
Proof.
  intros Hmk q Hq Hne.
  apply (mkdir_from_dirs _ _ _ [] q Hmk); [apply prefix_nil|done|done].
Qed.

(** * The file server *)

(** C1, at the input where it fails.  Course [abc] is stored in
    [/data/courses/abc]; the file [link] in it is a symbolic link to
    [/data/courses/abcd/secret.html].  With the right token,
    [serve_course_file] sends [/data/courses/abc/link]: the canonical path
    of what it sends is [/data/courses/abcd/secret.html], whose text starts
    with the text of the storage directory although it does not lie inside
    it. *)
Theorem serve_course_file_leaves_storage :
  serve_course_file linked_host (registry_of two_courses)
                    (py "abc") (Some (py "tok")) (py "link")
  = SendFile (py "/data/courses/abc/link")
  /\ realpath linked_disk (host_cwd linked_host)
              (Path (py "/data/courses/abc/link"))
     = Some (components "/data/courses/abcd/secret.html")
  /\ realpath linked_disk (host_cwd linked_host) (Path (py "/data/courses/abc"))
     = Some (components "/data/courses/abc")
  /\ strictly_inside (components "/data/courses/abc")
                     (components "/data/courses/abcd/secret.html") = false
  /\ startswith (py "/data/courses/abcd/secret.html")
                (py "/data/courses/abc") = true.
Proof. vm_compute. repeat split; reflexivity. Qed.

Lemma token_gate_granted token m t :
  token_gate token (JObj m) = Granted t -> valid_token token m.
Proof.
  unfold token_gate, valid_token. destruct token as [t'|]; [|done].
  destruct (str_eqb t' []) eqn:Hempty; [done|].
  apply str_eqb_neq in Hempty. cbn [py_get].
  destruct (dict_get (py "token") m) as [[| | | |stored| |]|]; try done.
  destruct (str_eqb t' stored) eqn:Heq; [|done].
  apply str_eqb_eq in Heq as <-. intros [= <-]. by exists t'.
Qed.

Lemma token_gate_not_raised token m : token_gate token (JObj m) <> Raised.
Proof.
  unfold token_gate. destruct token as [t|]; [|done].
  destruct (str_eqb t []); [done|]. cbn [py_get].
  destruct (dict_get (py "token") m) as [[| | | |stored| |]|]; try done.
  by destruct (str_eqb t stored).
Qed.

Lemma token_gate_denied token m :
  ~ valid_token token m -> token_gate token (JObj m) = Denied.
Proof.
  intros Hnot. destruct (token_gate token (JObj m)) as [t| |] eqn:E; [|done|].
  - by apply token_gate_granted in E.
  - by apply token_gate_not_raised in E.
Qed.

Lemma truthy_record m : m <> [] -> truthy (JObj m) = true.
Proof. by destruct m. Qed.

(** C2.  For a course of the registry whose record is a dict that is not
    empty: unless the supplied token is present, not empty and equal to the
    token stored in the record, both routes answer 403; so a route that
    sends a file, redirects or lists has been given exactly the stored
    token. *)
Theorem token_gate_exact (h : host) (d m : dict) (course_id : pystr)
    (token : option pystr) (filename : pystr) :
  dict_get course_id d = Some (JObj m) -> m <> [] ->
  (~ valid_token token m ->
     serve_course_file h (JObj d) course_id token filename = Abort 403
     /\ serve_course_index h (JObj d) course_id token = Abort 403)
  /\ (forall p,
        serve_course_file h (JObj d) course_id token filename = SendFile p ->
        valid_token token m)
  /\ (forall r,
        serve_course_index h (JObj d) course_id token = r ->
        (exists l, r = RedirectTo l) \/ (exists body, r = Html body) ->
        valid_token token m).
Proof.
  intros Hget Hm.
  assert (Hfile : forall r,
    serve_course_file h (JObj d) course_id token filename = r ->
    r <> Abort 403 -> valid_token token m).
  { intros r <- Hr. unfold serve_course_file in Hr. cbn [py_get] in Hr.
    rewrite Hget, (truthy_record m Hm) in Hr. cbn [negb] in Hr.
    destruct (token_gate token (JObj m)) eqn:E; [|done|].
    - by apply token_gate_granted in E.
    - by apply token_gate_not_raised in E. }
  assert (Hindex : forall r,
    serve_course_index h (JObj d) course_id token = r ->
    r <> Abort 403 -> r <> ServerError -> valid_token token m).
  { intros r <- Hr Hs. unfold serve_course_index in Hr, Hs.
    cbn [py_get] in Hr, Hs.
    rewrite Hget, (truthy_record m Hm) in Hr, Hs. cbn [negb] in Hr, Hs.
    destruct (token_gate token (JObj m)) eqn:E; [|done|done].
    by apply token_gate_granted in E. }
  split; [|split].
  - intros Hnot. unfold serve_course_file, serve_course_index.
    cbn [py_get]. rewrite Hget, (truthy_record m Hm). cbn [negb].
    by rewrite (token_gate_denied token m Hnot).
  - intros p Hp. by apply (Hfile _ Hp).
  - intros r Hr [[l ->]|[body ->]]; by apply (Hindex _ Hr).
Qed.

Lemma token_gate_exact_witness :
  serve_course_file linked_host (registry_of two_courses)
                    (py "abc") (Some (py "to")) (py "index.html") = Abort 403
  /\ serve_course_index linked_host (registry_of two_courses)
                        (py "abc") (Some (py "TOK")) = Abort 403.
Proof.
  assert (Hget : dict_get (py "abc")
                   (List.map (fun r => (rec_id r, meta r)) two_courses)
                 = Some (meta course_abc)) by reflexivity.
  split.
  - refine (proj1 (proj1 (token_gate_exact linked_host _ _ (py "abc")
                            (Some (py "to")) (py "index.html") Hget _) _)).
    + discriminate.
    + intros (t & [= <-] & _ & Hs). vm_compute in Hs. discriminate.
  - refine (proj2 (proj1 (token_gate_exact linked_host _ _ (py "abc")
                            (Some (py "TOK")) (py "index.html") Hget _) _)).
    + discriminate.
    + intros (t & [= <-] & _ & Hs). vm_compute in Hs. discriminate.
Defined.

(** * Receiving a document *)

Lemma length_N_iter_cons {A} (x : A) (n : N) (l : list A) :
  length (N.iter n (cons x) l) = (N.to_nat n + length l)%nat.
Proof.
  induction n as [|n IH] using N.peano_ind; [done|].
  rewrite N.iter_succ, N2Nat.inj_succ. simpl. by rewrite IH.
Qed.

Lemma oversized_content_size :
  (MAX_ZIP_SIZE < Z.of_nat (length oversized_content))%Z.
Proof.
  unfold oversized_content. rewrite length_N_iter_cons.
  rewrite Nat.add_0_r, N_nat_Z. reflexivity.
Qed.

Lemma recv_document_accepts (b : bot) (chat_id user_id : Z) (doc : document) :
  declared_too_large doc = false ->
  endswith (lower (fname_of doc)) (py ".zip") = true ->
  recv_document b chat_id user_id (Some doc)
  = Returned
      (with_uploads b
         (<[chat_id := {| p_bytes := file_content doc;
                          p_filename := fname_of doc;
                          p_uploader := user_id;
                          p_number := None |}]> (TEMP_UPLOADS b)))
      AskNumber ASK_NUMBER.
Proof. intros Hsize Hname. unfold recv_document. by rewrite Hsize, Hname. Qed.

(** C5 fails for a document that declares no size: its bytes, one more than
    200 MiB, become a pending upload. *)
Lemma undeclared_oversized_accepted :
  ~ rejects_oversized quiet_bot 5 7 undeclared_oversized.
Proof.
  unfold rejects_oversized. intros H.
  rewrite recv_document_accepts in H by reflexivity.
  specialize (H (or_intror oversized_content_size)). discriminate H.
Qed.

Lemma recv_document_too_large (b : bot) (chat_id user_id : Z)
    (doc : document) (n : Z) :
  file_size doc = Some n -> (MAX_ZIP_SIZE < n)%Z ->
  recv_document b chat_id user_id (Some doc) = Returned b TooLarge END.
Proof.
  intros Hsize Hn. unfold recv_document, declared_too_large. rewrite Hsize.
  assert (Hn0 : (n =? 0)%Z = false) by (unfold MAX_ZIP_SIZE in Hn; lia).
  apply Z.ltb_lt in Hn. by rewrite Hn0, Hn.
Qed.

(** C5, amended.  A document whose declared size exceeds 200 MiB is answered
    [TooLarge]; the handler ends the conversation and leaves the registry,
    the pending uploads and the tree as they were. *)
Theorem declared_oversized_rejected (b : bot) (chat_id user_id : Z)
    (doc : document) (n : Z) :
  file_size doc = Some n -> (MAX_ZIP_SIZE < n)%Z ->
  recv_document b chat_id user_id (Some doc) = Returned b TooLarge END.
Proof. apply recv_document_too_large. Qed.

Lemma declared_oversized_rejected_witness :
  recv_document quiet_bot 5 7 (Some unnamed_oversized)
  = Returned quiet_bot TooLarge END.
Proof.
  apply (declared_oversized_rejected quiet_bot 5 7 unnamed_oversized
           209715201%Z); reflexivity.
Defined.

(** C10 fails for a document without a name that declares more than
    200 MiB: the size test comes first and answers [TooLarge]. *)
Lemma unnamed_oversized_rejected :
  ~ unnamed_accepted quiet_bot 5 7 unnamed_oversized.
Proof.
  intros H. destruct (H eq_refl) as (b' & Hb' & _).
  rewrite (recv_document_too_large _ _ _ _ 209715201%Z) in Hb' by reflexivity.
  discriminate Hb'.
Qed.

Lemma fname_of_unnamed (doc : document) :
  file_name doc = None -> fname_of doc = py "upload.zip".
Proof. unfold fname_of. by intros ->. Qed.

(** C10, amended.  A document without a declared name is never answered
    [UnsupportedFormat]; unless its declared size exceeds the maximum it
    becomes the pending upload of its chat, under the name [upload.zip], and
    the conversation goes on to ask for the number. *)
Theorem unnamed_document_accepted (b : bot) (chat_id user_id : Z)
    (doc : document) :
  file_name doc = None ->
  (forall b', recv_document b chat_id user_id (Some doc)
              <> Returned b' UnsupportedFormat END)
  /\ (declared_too_large doc = false ->
      recv_document b chat_id user_id (Some doc)
      = Returned
          (with_uploads b
             (<[chat_id := {| p_bytes := file_content doc;
                              p_filename := py "upload.zip";
                              p_uploader := user_id;
                              p_number := None |}]> (TEMP_UPLOADS b)))
          AskNumber ASK_NUMBER).
Proof.
  intros Hname. pose proof (fname_of_unnamed doc Hname) as Hf. split.
  - intros b'. unfold recv_document. rewrite Hf.
    destruct (declared_too_large doc); done.
  - intros Hsize. rewrite recv_document_accepts; [|done|by rewrite Hf].
    by rewrite Hf.
Qed.

Lemma unnamed_document_accepted_witness :
  recv_document quiet_bot 5 7 (Some unnamed_document)
  = Returned
      (with_uploads quiet_bot
         (<[5%Z := {| p_bytes := [Byte.x50];
                      p_filename := py "upload.zip";
                      p_uploader := 7;
                      p_number := None |}]> (TEMP_UPLOADS quiet_bot)))
      AskNumber ASK_NUMBER.
Proof.
  apply (proj2 (unnamed_document_accepted quiet_bot 5 7 unnamed_document
                  eq_refl)).
  reflexivity.
Defined.

(** * The conversation *)

(** C6, at the input where it fails.  Chat 5 has sent its archive and its
    number and is asked for the title.  When the timeout of its conversation
    fires, the conversation is back to [Idle], no record and no directory
    have been made, and the upload is still in [TEMP_UPLOADS]; the command
    [/cancel] in the same state removes it. *)
Theorem timeout_keeps_pending_upload :
  let a' := fst (dispatch corrupt_ZipFile no_config waiting_app
                          (py "id", py "token", py "now")
                          (ConversationTimeout 5 7)) in
  let c' := fst (dispatch corrupt_ZipFile no_config waiting_app
                          (py "id", py "token", py "now") (CancelCmd 5 7)) in
  state_of waiting_app (5%Z, 7%Z) = AwaitingTitle
  /\ state_of a' (5%Z, 7%Z) = Idle
  /\ COURSES (app_bot a') = COURSES (app_bot waiting_app)
  /\ files (app_bot a') = files (app_bot waiting_app)
  /\ TEMP_UPLOADS (app_bot a') !! 5%Z = Some waiting_upload
  /\ TEMP_UPLOADS (app_bot c') !! 5%Z = None.
Proof. vm_compute. repeat split; reflexivity. Qed.

(** * Loading the registry *)

(** C8.  Whatever [COURSES] held, loading a snapshot that cannot be read
    or parsed leaves the empty registry; [load_db] returns on every
    snapshot. *)
Theorem load_db_fails_soft (current : json) (f : db_file) :
  corrupt f -> load_db current f = JObj [].
Proof. intros [-> | (s & -> & Hs)]; simpl; [done|]. by rewrite Hs. Qed.

Lemma load_db_fails_soft_witness :
  load_db (registry_of two_courses) (Text (py "{bad")) = JObj [].
Proof.
  apply load_db_fails_soft. right. exists (py "{bad"). split; reflexivity.
Defined.

(** * Saving and loading the registry *)

Lemma meta_plain (r : CourseRecord) :
  py_dict_ok (meta r) = true /\ float_free (meta r) = true.
Proof. split; reflexivity. Qed.

Lemma registry_of_keys (rs : list CourseRecord) :
  dict_keys (List.map (fun r => (rec_id r, meta r)) rs) = List.map rec_id rs.
Proof. unfold dict_keys. rewrite List.map_map. done. Qed.

Lemma registry_of_plain (rs : list CourseRecord) :
  NoDup (List.map rec_id rs) ->
  py_dict_ok (registry_of rs) = true /\ float_free (registry_of rs) = true.
Proof.
  intros Hnd. unfold registry_of. cbn [py_dict_ok float_free]. split.
  - apply andb_true_iff. split.
    + apply bool_decide_eq_true. by rewrite registry_of_keys.
    + apply forallb_forall. intros [k v] Hin.
      apply in_map_iff in Hin as (r & [= <- <-] & _). apply meta_plain.
  - apply forallb_forall. intros [k v] Hin.
    apply in_map_iff in Hin as (r & [= <- <-] & _). apply meta_plain.
Qed.

(** C7.  For a registry that holds the records [rs] under their distinct
    ids and whose strings are text that UTF-8 can encode, so that [save_db]
    writes it, loading the snapshot that [save_db] writes gives the registry
    back, whatever [COURSES] held before: the same ids in the same order,
    each with the same eight fields.  Records that are read back equal are
    the same records. *)
Theorem save_then_load (rs : list CourseRecord) (current : json) :
  NoDup (List.map rec_id rs) ->
  encodable (registry_of rs) = true ->
  load_db current (save_db (registry_of rs)) = registry_of rs
  /\ (forall rs', registry_of rs' = registry_of rs -> rs' = rs).
Proof.
  intros Hnd _. split.
  - destruct (registry_of_plain rs Hnd) as [Hok Hff].
    unfold save_db, load_db. by rewrite json_loads_dumps.
  - clear Hnd. unfold registry_of. intros rs' [= H]. revert rs' H.
    induction rs as [|r rs IH]; intros [|r' rs']; try done.
    cbn [List.map]. intros H. injection H as ?. f_equal.
    + destruct r, r'. simpl in *. by subst.
    + by apply IH.
Qed.

Lemma save_then_load_witness :
  load_db (JObj []) (save_db (registry_of two_courses))
  = registry_of two_courses.
Proof.
  apply (save_then_load two_courses (JObj [])).
  - apply (bool_decide_unpack _). vm_compute. exact I.
  - vm_compute. reflexivity.
Defined.

(** * Finding courses *)


Lemma lower_app (a b : pystr) : lower (a ++ b) = lower a ++ lower b.
Proof. unfold lower. apply List.map_app. Qed.

Lemma registry_of_values (rs : list CourseRecord) :
  dict_values (List.map (fun r => (rec_id r, meta r)) rs) = List.map meta rs.
Proof. unfold dict_values. by rewrite List.map_map. Qed.

Lemma filter_raising_records (f : json -> option bool)
    (g : CourseRecord -> bool) (rs : list CourseRecord) :
  (forall r, f (meta r) = Some (g r)) ->
  filter_raising f (List.map meta rs)
  = Some (List.map meta (List.filter g rs)).
Proof.
  intros Hf. induction rs as [|r rs IH]; [done|].
  cbn [List.map filter_raising List.filter]. rewrite Hf, IH.
  by destruct (g r).
Qed.

Lemma filter_filter {A} (f g : A -> bool) (l : list A) :
  List.filter g (List.filter f l) = List.filter (fun x => f x && g x) l.
Proof.
  induction l as [|x l IH]; [done|]. simpl.
  destruct (f x); simpl; [destruct (g x)|]; by rewrite IH.
Qed.

Lemma records_have_keys (rs : list CourseRecord) :
  forallb (fun c => has_key (py "id") c && has_key (py "token") c)
          (List.map meta rs) = true.
Proof. induction rs as [|r rs IH]; [done|]. simpl. exact IH. Qed.



(** * Ingestion *)

(** C3.  When the extraction raises, whether the upload is no archive or
    reading or writing a member fails, [ask_title] answers
    [ExtractionFailed] and ends the conversation; the registry and its
    snapshot are as before, the pending upload is gone, nothing is left at
    or below the directory of the course, and the rest of the tree is as it
    was when that directory had been made. *)
Theorem extraction_failure_rolls_back
    (ZipFile : list Byte.byte -> option (list ZipInfo)) (cfg : config)
    (b : bot) (chat_id : Z) (text course_id token now : pystr)
    (temp : pending) (t0 t1 : tree) :
  TEMP_UPLOADS b !! chat_id = Some temp ->
  mkdir_parents (files b) (DATA_DIR ++ [course_id]) = Some t0 ->
  extraction ZipFile t0 (DATA_DIR ++ [course_id]) (p_bytes temp) = Failed t1 ->
  exists b',
    ask_title ZipFile cfg b chat_id text course_id token now
    = Returned b' ExtractionFailed END
    /\ COURSES b' = COURSES b
    /\ snapshot b' = snapshot b
    /\ TEMP_UPLOADS b' = delete chat_id (TEMP_UPLOADS b)
    /\ (forall p, DATA_DIR ++ [course_id] `prefix_of` p ->
                  files b' !! p = None)
    /\ (forall p, ¬ DATA_DIR ++ [course_id] `prefix_of` p ->
                  files b' !! p = t0 !! p).
Proof.
  intros Htemp Hmk Hfail. eexists. unfold ask_title.
  rewrite Htemp, Hmk, Hfail. split; [done|]. cbn.
  repeat split; try done.
  - intros p Hp. by apply rmtree_inside.
  - intros p Hp. rewrite rmtree_outside by done.
    pose proof (mkdir_parents_dirs _ _ _ Hmk) as Hok.
    unfold extraction in Hfail.
    destruct (ZipFile (p_bytes temp)) as [ms|]; [|by injection Hfail as <-].
    pose proof (extract_all_below ms t0 _ Hok) as [Hout _].
    rewrite Hfail in Hout. by apply Hout.
Qed.

Lemma extraction_failure_rolls_back_witness :
  exists b',
    ask_title corrupt_ZipFile no_config (app_bot waiting_app) 5
              (py "Title") (py "new") (py "secret") (py "now")
    = Returned b' ExtractionFailed END
    /\ COURSES b' = registry_of two_courses
    /\ files b' !! components "data/courses/new" = None.
Proof.
  destruct (extraction_failure_rolls_back corrupt_ZipFile no_config
              (app_bot waiting_app) 5 (py "Title") (py "new") (py "secret")
              (py "now") waiting_upload new_course_dir new_course_dir
              eq_refl eq_refl eq_refl)
    as (b' & Hret & Hcourses & _ & _ & Hin & _).
  exists b'. repeat split; [exact Hret|exact Hcourses|].
  apply Hin. reflexivity.
Defined.

Lemma str_in_In (x : pystr) (xs : list pystr) :
  str_in x xs = true <-> In x xs.
Proof.
  unfold str_in. rewrite existsb_exists. split.
  - intros (y & Hy & Heq). apply str_eqb_eq in Heq. by subst.
  - intros Hx. exists x. split; [done|apply str_eqb_refl].
Qed.

Lemma skip_member_unsafe (nm : pystr) :
  skip_member nm = true <-> unsafe_name nm.
Proof.
  unfold skip_member, unsafe_name.
  rewrite !orb_true_iff, !str_in_In. cbn [parts Path].
  rewrite filter_In. unfold keep_component.
  change (str_eqb DOTDOT []) with false.
  change (str_eqb DOTDOT DOT) with false. cbn [negb andb]. tauto.
Qed.

Lemma dict_get_None (k : pystr) (d : dict) :
  dict_get k d = None -> k ∉ dict_keys d.
Proof.
  induction d as [|[k' v] d IH]; simpl; [intros _; apply not_elem_of_nil|].
  destruct (str_eqb k k') eqn:E; [done|]. intros Hd.
  apply not_elem_of_cons. split; [by apply str_eqb_neq|by apply IH].
Qed.

(** An archive in which a member that is not skipped cannot be copied is
    rolled back, although the unsafe member was passed over: the rollback
    of a failed extraction. *)
Lemma unsafe_and_broken_fails :
  ~ succeeds_despite_unsafe broken_ZipFile no_config (app_bot waiting_app) 5
      (py "Title") (py "new") (py "secret") (py "now").
Proof.
  intros H.
  destruct (H waiting_upload broken_members eq_refl eq_refl)
    as (b' & number & title & url & Hret).
  - eexists. split; [left; reflexivity|].
    right. left. vm_compute. left. reflexivity.
  - vm_compute in Hret. discriminate Hret.
Qed.

(** The members whose name is absolute, has a [..] segment or
    a denied extension are exactly those the loop passes over, and passing
    over them costs nothing: on every tree the loop ends as it does on the
    remaining members alone.  When the remaining members extract without an exception
    and the id is new, [ask_title] answers [Saved], the tree is the one the
    remaining members alone produce, nothing outside the directory of the
    course has changed, and the registry has one record more, under the new
    id. *)
Theorem unsafe_members_skipped
    (ZipFile : list Byte.byte -> option (list ZipInfo)) (cfg : config)
    (b : bot) (chat_id : Z) (text course_id token now : pystr)
    (temp : pending) (ms : list ZipInfo) (d : dict) (t0 t1 : tree) :
  TEMP_UPLOADS b !! chat_id = Some temp ->
  ZipFile (p_bytes temp) = Some ms ->
  COURSES b = JObj d -> dict_get course_id d = None ->
  mkdir_parents (files b) (DATA_DIR ++ [course_id]) = Some t0 ->
  extract_all t0 (DATA_DIR ++ [course_id]) (safe_members ms) = Done t1 ->
  (forall m, In m (safe_members ms)
             <-> In m ms /\ ~ unsafe_name (zi_filename m))
  /\ (forall t dir, extract_all t dir ms = extract_all t dir (safe_members ms))
  /\ exists b' r,
       ask_title ZipFile cfg b chat_id text course_id token now
       = Returned b'
           (Saved course_id (rec_number r) (rec_title r)
                  (webapp_url_of cfg course_id token))
           END
       /\ rec_id r = course_id /\ rec_token r = token
       /\ rec_owner r = p_uploader temp
       /\ files b' = t1
       /\ (forall p, ¬ DATA_DIR ++ [course_id] `prefix_of` p ->
                     t1 !! p = t0 !! p)
       /\ COURSES b' = JObj (d ++ [(course_id, meta r)])
       /\ snapshot b' = save_db (COURSES b')
       /\ length (d ++ [(course_id, meta r)]) = S (length d).
Proof.
  intros Htemp Hzip Hcourses Hfresh Hmk Hdone. split; [|split].
  - intros m. unfold safe_members. rewrite filter_In, negb_true_iff.
    rewrite <- skip_member_unsafe, not_true_iff_false. done.
  - intros t dir. apply extract_all_skips.
  - unfold ask_title, extraction.
    rewrite Htemp, Hmk, Hzip, extract_all_skips.
    fold (safe_members ms). rewrite Hdone, Hcourses.
    rewrite dict_set_fresh by by apply dict_get_None.
    eexists.
    exists {| rec_id := course_id;
              rec_owner := p_uploader temp;
              rec_number := default [] (p_number temp);
              rec_title := strip text;
              rec_filename := p_filename temp;
              rec_path := course_dir_str cfg (DATA_DIR ++ [course_id]);
              rec_token := token;
              rec_created_at := now |}.
    split; [reflexivity|]. cbn.
    repeat split; try done.
    + intros p Hp.
      pose proof (mkdir_parents_dirs _ _ _ Hmk) as Hok.
      pose proof (extract_all_below (safe_members ms) t0 _ Hok) as [Hout _].
      rewrite Hdone in Hout. by apply Hout.
    + rewrite length_app. simpl. lia.
Qed.

Lemma unsafe_members_skipped_witness :
  exists b' r,
    ask_title three_ZipFile no_config (app_bot waiting_app) 5
              (py "Title") (py "new") (py "secret") (py "now")
    = Returned b'
        (Saved (py "new") (rec_number r) (rec_title r)
               (webapp_url_of no_config (py "new") (py "secret")))
        END
    /\ files b' !! components "data/courses/new/index.html" = Some (TFile [Byte.x3c])
    /\ files b' !! components "data/courses/new/docs/a.html" = Some (TFile [Byte.x3e])
    /\ files b' !! components "etc/evil" = None
    /\ COURSES b' = JObj (List.map (fun r => (rec_id r, meta r)) two_courses
                          ++ [(py "new", meta r)]).
Proof.
  pose (t1 := tree_of (extract_all new_course_dir (DATA_DIR ++ [py "new"])
                                   (safe_members three_members))).
  destruct (unsafe_members_skipped three_ZipFile no_config
              (app_bot waiting_app) 5 (py "Title") (py "new") (py "secret")
              (py "now") waiting_upload three_members
              (List.map (fun r => (rec_id r, meta r)) two_courses)
              new_course_dir t1
              eq_refl eq_refl eq_refl eq_refl eq_refl eq_refl)
    as (_ & _ & b' & r & Hret & _ & _ & _ & Hfiles & _ & Hcourses & _).
  exists b', r. rewrite Hfiles.
  split; [exact Hret|]. split; [reflexivity|]. split; [reflexivity|].
  split; [reflexivity|exact Hcourses].
Defined.

(** C4, at an input where it fails.  The archive lists the directory
    [docs/], the file [docs/a.html] and the member [../../etc/evil]; every
    member can be read.  The loop has no test for a member that is a
    directory: it writes [docs] as an empty regular file, after which making
    the parent of [docs/a.html] raises.  [ask_title] rolls the ingestion
    back and answers [ExtractionFailed]; the registry gains no record, and
    the safe member [docs/a.html] is not extracted. *)
Theorem directory_entry_aborts_ingestion :
  readable listed_members
  /\ (exists m, In m listed_members /\ unsafe_name (zi_filename m))
  /\ (exists b',
        ask_title listed_ZipFile no_config (app_bot waiting_app) 5
                  (py "Title") (py "new") (py "secret") (py "now")
        = Returned b' ExtractionFailed END
        /\ COURSES b' = registry_of two_courses
        /\ files b' !! components "data/courses/new/docs/a.html" = None)
  /\ ~ succeeds_despite_unsafe listed_ZipFile no_config
        (app_bot waiting_app) 5 (py "Title") (py "new") (py "secret")
        (py "now").
Proof.
  assert (Hunsafe : exists m,
            In m listed_members /\ unsafe_name (zi_filename m)).
  { eexists. split; [right; right; left; reflexivity|].
    right. left. vm_compute. left. reflexivity. }
  split; [|split; [exact Hunsafe|split]].
  - intros m [<-|[<-|[<-|[]]]]; eexists; reflexivity.
  - eexists. split; [reflexivity|]. split; reflexivity.
  - intros H.
    destruct (H waiting_upload listed_members eq_refl eq_refl Hunsafe)
      as (b' & number & title & url & Hret).
    vm_compute in Hret. discriminate Hret.
Qed.

(** * More on the extraction *)

Lemma extract_all_app (a b : list ZipInfo) :
  forall (t : tree) (dir : list pystr),
    extract_all t dir (a ++ b)
    = match extract_all t dir a with
      | Done t1 => extract_all t1 dir b
      | Failed t1 => Failed t1
      end.
Proof.
  induction a as [|m a IH]; intros t dir; [done|]. simpl.
  destruct (skip_member (zi_filename m)); [apply IH|].
  destruct (extract_member t dir m); [apply IH|done].
Qed.

(** What a member that extracts leaves: its bytes at its target, and
    whatever was elsewhere in the tree. *)
Lemma extract_member_done (t t' : tree) (dir : list pystr) (m : ZipInfo) :
  extract_member t dir m = Done t' ->
  (exists data, zi_data m = ReadOk data
                /\ t' !! target_of dir m = Some (TFile data))
  /\ t !! target_of dir m <> Some TDir
  /\ (forall p x, p <> target_of dir m -> t !! p = Some x -> t' !! p = Some x)
  /\ (forall q, q `prefix_of` removelast (target_of dir m) -> q <> [] ->
                t' !! q = Some TDir).
Proof.
  unfold extract_member. fold (target_of dir m).
  set (target := target_of dir m).
  destruct (mkdir_parents t (removelast target)) as [t1|] eqn:Hmk; [|done].
  assert (Hkeep : forall p x, t !! p = Some x -> t1 !! p = Some x).
  { intros p x Hp.
    destruct (mkdir_from_lookup _ _ _ [] p Hmk) as [->|(Hnone & _)]; [done|].
    congruence. }
  assert (Hdirs : forall q, q `prefix_of` removelast target -> q <> [] ->
                            t1 !! q = Some TDir).
  { intros q Hq Hne.
    apply (mkdir_from_dirs _ _ _ [] q Hmk); [apply prefix_nil|done|done]. }
  assert (Hnot : forall q, q `prefix_of` removelast target -> q <> [] ->
                           q <> target).
  { intros q Hq Hne ->. apply prefix_length in Hq.
    destruct target as [|c l] using rev_ind; [done|].
    rewrite removelast_last, length_app in Hq. simpl in Hq. lia. }
  destruct (zi_data m) as [data| |written]; [|done|];
    (destruct (open_wb t1 target) as [t2|] eqn:Hopen; [|done]);
    [|done].
  intros [= <-]. unfold open_wb in Hopen.
  destruct target as [|c target'] eqn:Etarget; [done|]. rewrite <- Etarget in *.
  assert (Hdir1 : t1 !! target <> Some TDir).
  { intros E. rewrite Etarget, <- Etarget, E in Hopen. done. }
  assert (Ht2 : t2 = <[target := TFile []]> t1).
  { rewrite Etarget, <- Etarget in Hopen.
    destruct (t1 !! target) as [[x|]|]; try done;
      destruct (is_dir t1 (removelast target)); congruence. }
  subst t2. repeat split.
  - exists data. split; [done|]. apply lookup_insert_eq.
  - intros E. apply Hkeep in E. done.
  - intros p x Hp Hx. rewrite !lookup_insert_ne by done. by apply Hkeep.
  - intros q Hq Hne. rewrite !lookup_insert_ne by (symmetry; by apply Hnot).
    by apply Hdirs.
Qed.

(** X1.  When the loop ends without an exception, a member that was not
    passed over and is the last one written to its target has its bytes
    there, unchanged. *)
Theorem extracted_bytes_kept (t t' : tree) (dir : list pystr)
    (before after : list ZipInfo) (m : ZipInfo) (data : list Byte.byte) :
  extract_all t dir (before ++ m :: after) = Done t' ->
  extracted m -> zi_data m = ReadOk data ->
  (forall m', In m' after -> extracted m' ->
              target_of dir m' <> target_of dir m) ->
  t' !! target_of dir m = Some (TFile data).
Proof.
  intros Hdone Hm Hdata Hlast. rewrite extract_all_app in Hdone.
  destruct (extract_all t dir before) as [t1|t1]; [|done].
  simpl in Hdone. unfold extracted in Hm. rewrite Hm in Hdone.
  destruct (extract_member t1 dir m) as [t2|t2] eqn:E2; [|done].
  destruct (extract_member_done _ _ _ _ E2) as ((data' & Hd & Hfile) & _).
  assert (data' = data) as -> by congruence.
  clear E2 Hm Hdata Hd. revert t2 Hfile Hdone.
  induction after as [|m' after IH]; intros t2 Hfile Hdone; simpl in Hdone.
  - by injection Hdone as <-.
  - destruct (skip_member (zi_filename m')) eqn:Hskip.
    + apply (IH (fun x Hx => Hlast x (or_intror Hx)) t2 Hfile Hdone).
    + destruct (extract_member t2 dir m') as [t3|t3] eqn:E3; [|done].
      destruct (extract_member_done _ _ _ _ E3) as (_ & _ & Hkeep & _).
      apply (IH (fun x Hx => Hlast x (or_intror Hx)) t3); [|done].
      apply Hkeep; [|done]. intros Heq.
      apply (Hlast m' (or_introl eq_refl) Hskip). done.
Qed.

Lemma extracted_bytes_kept_witness :
  tree_of (extract_all new_course_dir (DATA_DIR ++ [py "new"]) three_members)
  !! components "data/courses/new/docs/a.html"
  = Some (TFile [Byte.x3e]).
Proof.
  apply (extracted_bytes_kept new_course_dir _ (DATA_DIR ++ [py "new"])
           [ {| zi_filename := py "index.html"; zi_data := ReadOk [Byte.x3c] |};
             {| zi_filename := py "../../etc/evil";
                zi_data := ReadOk [Byte.x21] |} ]
           []
           {| zi_filename := py "docs/a.html"; zi_data := ReadOk [Byte.x3e] |}
           [Byte.x3e]).
  - vm_compute. reflexivity.
  - reflexivity.
  - reflexivity.
  - intros m' [].
Defined.

(** A regular file on the way makes [mkdir_from] raise. *)
Lemma mkdir_from_file (rest : list pystr) :
  forall (t : tree) (base p : list pystr) (x : list Byte.byte),
    base `prefix_of` p -> p <> base -> p `prefix_of` base ++ rest ->
    t !! p = Some (TFile x) ->
    mkdir_from t base rest = None.
Proof.
  induction rest as [|c rest IH]; intros t base p x Hbp Hne Hp Hfile.
  - rewrite app_nil_r in Hp. destruct Hne. by apply (anti_symm prefix).
  - simpl.
    assert (Hbc : base ++ [c] `prefix_of` p).
    { destruct Hbp as [k ->]. destruct Hp as [k' Hk'].
      rewrite <- app_assoc in Hk'. apply app_inv_head in Hk'.
      destruct k as [|y k]; [by rewrite app_nil_r in Hne|].
      simpl in Hk'. injection Hk' as <- _.
      by apply prefix_app, prefix_cons, prefix_nil. }
    assert (Hp' : p `prefix_of` (base ++ [c]) ++ rest)
      by by rewrite <- app_assoc.
    destruct (decide (p = base ++ [c])) as [->|Hpc].
    + by rewrite Hfile.
    + destruct (t !! (base ++ [c])) as [[y|]|] eqn:E; [done| |].
      * by apply (IH _ _ p x).
      * apply (IH _ _ p x); try done. by rewrite lookup_insert_ne.
Qed.

Lemma strict_prefix_removelast {A} (p l : list A) (c : A) (more : list A) :
  l = p ++ c :: more -> p `prefix_of` removelast l.
Proof.
  intros ->. destruct more as [|y more] using rev_ind.
  - rewrite removelast_last. done.
  - rewrite app_comm_cons, app_assoc, removelast_last.
    apply prefix_app_r. done.
Qed.

(** A member below a regular file cannot be written. *)
Lemma extract_member_below_file (t : tree) (dir : list pystr) (m : ZipInfo)
    (p : list pystr) (c : pystr) (more : list pystr) (x : list Byte.byte) :
  p <> [] -> target_of dir m = p ++ c :: more ->
  t !! p = Some (TFile x) ->
  extract_member t dir m = Failed t.
Proof.
  intros Hne Htarget Hfile. unfold extract_member.
  fold (target_of dir m). unfold mkdir_parents.
  rewrite (mkdir_from_file _ t [] p x); try done.
  - apply prefix_nil.
  - simpl. by apply (strict_prefix_removelast p _ c more).
Qed.

(** Both kinds of node at [p] outlast a member that extracts. *)
Lemma extract_member_keeps_kind (t t' : tree) (dir : list pystr)
    (m : ZipInfo) (p : list pystr) :
  extract_member t dir m = Done t' ->
  ((exists x, t !! p = Some (TFile x)) -> exists x, t' !! p = Some (TFile x))
  /\ (t !! p = Some TDir -> t' !! p = Some TDir).
Proof.
  intros Hdone.
  destruct (extract_member_done _ _ _ _ Hdone)
    as ((data & _ & Hfile) & Hnodir & Hkeep & _).
  split.
  - intros [x Hx]. destruct (decide (p = target_of dir m)) as [->|Hp].
    + by exists data.
    + exists x. by apply Hkeep.
  - intros Hdir. apply Hkeep; [|done]. by intros ->.
Qed.

Lemma extract_all_after_file (ms : list ZipInfo) :
  forall (t : tree) (dir : list pystr) (m2 : ZipInfo) (p : list pystr)
         (c : pystr) (more : list pystr),
    p <> [] -> target_of dir m2 = p ++ c :: more ->
    In m2 ms -> extracted m2 ->
    (exists x, t !! p = Some (TFile x)) ->
    exists t', extract_all t dir ms = Failed t'.
Proof.
  induction ms as [|m ms IH]; intros t dir m2 p c more Hne Ht2 Hin Hex Hfile;
    [done|]. simpl.
  destruct (skip_member (zi_filename m)) eqn:Hskip.
  - destruct Hin as [->|Hin]; [unfold extracted in Hex; congruence|].
    by apply (IH _ _ m2 p c more).
  - destruct Hin as [->|Hin].
    + destruct Hfile as [x Hx].
      rewrite (extract_member_below_file t dir m2 p c more x); eauto.
    + destruct (extract_member t dir m) as [t1|t1] eqn:E; [|eauto].
      apply (IH _ _ m2 p c more); try done.
      by apply (extract_member_keeps_kind _ _ _ _ p E).
Qed.

Lemma extract_all_after_dir (ms : list ZipInfo) :
  forall (t : tree) (dir : list pystr) (m1 : ZipInfo),
    In m1 ms -> extracted m1 ->
    t !! target_of dir m1 = Some TDir ->
    exists t', extract_all t dir ms = Failed t'.
Proof.
  induction ms as [|m ms IH]; intros t dir m1 Hin Hex Hdir; [done|]. simpl.
  destruct (skip_member (zi_filename m)) eqn:Hskip.
  - destruct Hin as [->|Hin]; [unfold extracted in Hex; congruence|].
    by apply (IH _ _ m1).
  - destruct (extract_member t dir m) as [t1|t1] eqn:E; [|eauto].
    destruct Hin as [->|Hin].
    + destruct (extract_member_done _ _ _ _ E) as (_ & Hnodir & _). done.
    + apply (IH _ _ m1); try done.
      by apply (extract_member_keeps_kind _ _ _ _ _ E).
Qed.

(** An archive that holds a member and a member below it never extracts. *)
Lemma extract_all_nested (ms : list ZipInfo) :
  forall (t : tree) (dir : list pystr) (m1 m2 : ZipInfo)
         (c : pystr) (more : list pystr),
    dir <> [] ->
    parts (Path (zi_filename m2))
    = parts (Path (zi_filename m1)) ++ c :: more ->
    In m1 ms -> In m2 ms -> extracted m1 -> extracted m2 ->
    exists t', extract_all t dir ms = Failed t'.
Proof.
  induction ms as [|m ms IH];
    intros t dir m1 m2 c more Hdir Hparts Hin1 Hin2 Hex1 Hex2; [done|].
  assert (Ht2 : target_of dir m2 = target_of dir m1 ++ c :: more).
  { unfold target_of. by rewrite Hparts, app_assoc. }
  assert (Hne : target_of dir m1 <> []).
  { unfold target_of. by destruct dir. }
  simpl. destruct (skip_member (zi_filename m)) eqn:Hskip.
  - destruct Hin1 as [->|Hin1]; [unfold extracted in Hex1; congruence|].
    destruct Hin2 as [->|Hin2]; [unfold extracted in Hex2; congruence|].
    by apply (IH _ _ m1 m2 c more).
  - destruct (extract_member t dir m) as [t1|t1] eqn:E; [|eauto].
    destruct (extract_member_done _ _ _ _ E)
      as ((data & _ & Hfile) & _ & _ & Hdirs).
    destruct Hin1 as [->|Hin1]; destruct Hin2 as [->|Hin2].
    + apply (f_equal length) in Ht2. rewrite length_app in Ht2.
      simpl in Ht2. lia.
    + apply (extract_all_after_file ms t1 dir m2 (target_of dir m1) c more);
        eauto.
    + apply (extract_all_after_dir ms t1 dir m1); try done.
      apply Hdirs; [|done].
      by apply (strict_prefix_removelast _ _ c more).
    + by apply (IH _ _ m1 m2 c more).
Qed.

(** X2.  An archive that holds a member for a path and a member for a path
    below it, neither of them passed over, is never ingested, in whatever
    order and among whatever other members they come: [ask_title] answers
    [ExtractionFailed] and the registry stays as it is.  This is the case of
    every archive that lists a directory [docs/] besides a file in it. *)
Theorem nested_members_rejected
    (ZipFile : list Byte.byte -> option (list ZipInfo)) (cfg : config)
    (b : bot) (chat_id : Z) (text course_id token now : pystr)
    (temp : pending) (ms : list ZipInfo) (t0 : tree)
    (m1 m2 : ZipInfo) (c : pystr) (more : list pystr) :
  TEMP_UPLOADS b !! chat_id = Some temp ->
  ZipFile (p_bytes temp) = Some ms ->
  mkdir_parents (files b) (DATA_DIR ++ [course_id]) = Some t0 ->
  In m1 ms -> In m2 ms -> extracted m1 -> extracted m2 ->
  parts (Path (zi_filename m2)) = parts (Path (zi_filename m1)) ++ c :: more ->
  exists b',
    ask_title ZipFile cfg b chat_id text course_id token now
    = Returned b' ExtractionFailed END
    /\ COURSES b' = COURSES b.
Proof.
  intros Htemp Hzip Hmk Hin1 Hin2 Hex1 Hex2 Hparts.
  destruct (extract_all_nested ms t0 (DATA_DIR ++ [course_id]) m1 m2 c more)
    as [t1 Hfail]; try done.
  unfold ask_title, extraction. rewrite Htemp, Hmk, Hzip, Hfail.
  eexists. split; reflexivity.
Qed.

Lemma nested_members_rejected_witness :
  exists b',
    ask_title docs_ZipFile no_config (app_bot waiting_app) 5
              (py "Title") (py "new") (py "secret") (py "now")
    = Returned b' ExtractionFailed END
    /\ COURSES b' = registry_of two_courses.
Proof.
  apply (nested_members_rejected docs_ZipFile no_config (app_bot waiting_app)
           5 (py "Title") (py "new") (py "secret") (py "now")
           waiting_upload docs_members new_course_dir
           {| zi_filename := py "docs/"; zi_data := ReadOk [] |}
           {| zi_filename := py "docs/a.html"; zi_data := ReadOk [Byte.x3e] |}
           (py "a.html") []);
    try reflexivity.
  - left. reflexivity.
  - right. left. reflexivity.
Defined.

(** * More on [ask_title] *)

(** X3.  Whatever way [ask_title] takes once it has found the upload of the
    chat, success, the rollback of a failed extraction or an exception, that
    upload is gone afterwards and the uploads of the other chats are as they
    were; when it returns, it ends the conversation. *)
Theorem ask_title_consumes_upload
    (ZipFile : list Byte.byte -> option (list ZipInfo)) (cfg : config)
    (b : bot) (chat_id : Z) (text course_id token now : pystr)
    (temp : pending) :
  TEMP_UPLOADS b !! chat_id = Some temp ->
  match ask_title ZipFile cfg b chat_id text course_id token now with
  | Returned b' _ next =>
      TEMP_UPLOADS b' = delete chat_id (TEMP_UPLOADS b) /\ next = END
  | Crashed b' => TEMP_UPLOADS b' = delete chat_id (TEMP_UPLOADS b)
  end.
Proof.
  intros Htemp. unfold ask_title. rewrite Htemp.
  destruct (mkdir_parents (files b) (DATA_DIR ++ [course_id])) as [t0|];
    [|done].
  destruct (extraction ZipFile t0 _ (p_bytes temp)); [|done].
  destruct (COURSES b); done.
Qed.

Lemma ask_title_consumes_upload_witness :
  match ask_title three_ZipFile no_config (app_bot waiting_app) 5
                  (py "Title") (py "new") (py "secret") (py "now") with
  | Returned b' _ next =>
      TEMP_UPLOADS b' = delete 5%Z (TEMP_UPLOADS (app_bot waiting_app))
      /\ next = END
  | Crashed b' =>
      TEMP_UPLOADS b' = delete 5%Z (TEMP_UPLOADS (app_bot waiting_app))
  end.
Proof.
  apply (ask_title_consumes_upload three_ZipFile no_config
           (app_bot waiting_app) 5 (py "Title") (py "new") (py "secret")
           (py "now") waiting_upload).
  reflexivity.
Defined.

Lemma dict_get_set_eq (k : pystr) (v : json) (d : dict) :
  dict_get k (dict_set k v d) = Some v.
Proof.
  induction d as [|[k' v'] d IH]; simpl.
  - by rewrite str_eqb_refl.
  - destruct (str_eqb k k') eqn:E; simpl; rewrite E; done.
Qed.

Lemma dict_get_set_ne (k k0 : pystr) (v : json) (d : dict) :
  k0 <> k -> dict_get k0 (dict_set k v d) = dict_get k0 d.
Proof.
  intros Hne. induction d as [|[k' v'] d IH]; simpl.
  - apply str_eqb_neq in Hne. by rewrite Hne.
  - destruct (str_eqb k k') eqn:E; simpl.
    + apply str_eqb_eq in E as <-. apply str_eqb_neq in Hne. by rewrite Hne.
    + by rewrite IH.
Qed.

Lemma dict_set_keys_present (k : pystr) (v : json) (d : dict) :
  k ∈ dict_keys d -> dict_keys (dict_set k v d) = dict_keys d.
Proof.
  induction d as [|[k' v'] d IH]; simpl; [by intros ?%elem_of_nil|].
  intros Hin. destruct (str_eqb k k') eqn:E; simpl; [done|].
  f_equal. apply IH. apply elem_of_cons in Hin as [->|Hin]; [|done].
  by rewrite str_eqb_refl in E.
Qed.

Lemma saved_registry
    (ZipFile : list Byte.byte -> option (list ZipInfo)) (cfg : config)
    (b b' : bot) (chat_id : Z) (text course_id token now : pystr)
    (number title url : pystr) (d : dict) :
  COURSES b = JObj d ->
  ask_title ZipFile cfg b chat_id text course_id token now
  = Returned b' (Saved course_id number title url) END ->
  exists r,
    COURSES b' = JObj (dict_set course_id (meta r) d)
    /\ snapshot b' = save_db (COURSES b')
    /\ rec_id r = course_id /\ rec_token r = token
    /\ rec_number r = number /\ rec_title r = title
    /\ rec_created_at r = now
    /\ (forall temp, TEMP_UPLOADS b !! chat_id = Some temp ->
                     rec_owner r = p_uploader temp
                     /\ rec_filename r = p_filename temp).
Proof.
  intros Hd. unfold ask_title.
  destruct (TEMP_UPLOADS b !! chat_id) as [temp|]; [|done].
  destruct (mkdir_parents (files b) (DATA_DIR ++ [course_id])) as [t0|];
    [|done].
  destruct (extraction ZipFile t0 _ (p_bytes temp)); [|done].
  rewrite Hd. intros [=]. subst b' number title url.
  eexists. split; [reflexivity|].
  cbn. repeat split; try done; congruence.
Qed.

(** X4.  A successful [ask_title] files the new record under the drawn id and
    leaves every other id of the registry with the record it had.  When the
    id was already registered, its record is replaced where it stood and the
    registry has the same ids as before; otherwise the new id comes last. *)
Theorem ask_title_keeps_other_records
    (ZipFile : list Byte.byte -> option (list ZipInfo)) (cfg : config)
    (b b' : bot) (chat_id : Z) (text course_id token now : pystr)
    (number title url : pystr) (d : dict) :
  COURSES b = JObj d ->
  ask_title ZipFile cfg b chat_id text course_id token now
  = Returned b' (Saved course_id number title url) END ->
  exists r d',
    COURSES b' = JObj d'
    /\ dict_get course_id d' = Some (meta r)
    /\ rec_token r = token /\ rec_number r = number /\ rec_title r = title
    /\ (forall k, k <> course_id -> dict_get k d' = dict_get k d)
    /\ (course_id ∈ dict_keys d -> dict_keys d' = dict_keys d)
    /\ (course_id ∉ dict_keys d -> d' = d ++ [(course_id, meta r)]).
Proof.
  intros Hd Hret.
  destruct (saved_registry _ _ _ _ _ _ _ _ _ _ _ _ _ Hd Hret)
    as (r & Hc & _ & _ & Ht & Hn & Hti & _).
  exists r, (dict_set course_id (meta r) d). repeat split; try done.
  - apply dict_get_set_eq.
  - intros k Hk. by apply dict_get_set_ne.
  - apply dict_set_keys_present.
  - apply dict_set_fresh.
Qed.

Lemma ask_title_keeps_other_records_witness :
  exists r d',
    dict_get (py "new") d' = Some (meta r)
    /\ rec_token r = py "secret"
    /\ dict_get (py "abc") d' = Some (meta course_abc).
Proof.
  destruct (ask_title_keeps_other_records three_ZipFile no_config
              (app_bot waiting_app)
              (bot_of (ask_title three_ZipFile no_config (app_bot waiting_app)
                         5 (py "Title") (py "new") (py "secret") (py "now")))
              5 (py "Title") (py "new") (py "secret") (py "now")
              (py "3") (py "Title")
              (webapp_url_of no_config (py "new") (py "secret"))
              (List.map (fun r => (rec_id r, meta r)) two_courses)
              eq_refl)
    as (r & d' & _ & Hget & Htok & _ & _ & Hother & _).
  - vm_compute. reflexivity.
  - exists r, d'. split; [exact Hget|]. split; [exact Htok|].
    rewrite Hother; [reflexivity|discriminate].
Defined.

Lemma dict_set_keys_incl (k : pystr) (v : json) (d : dict) :
  forall x, x ∈ dict_keys (dict_set k v d) -> x = k \/ x ∈ dict_keys d.
Proof.
  induction d as [|[k' v'] d IH]; simpl; intros x Hx.
  - apply list_elem_of_singleton in Hx. by left.
  - destruct (str_eqb k k') eqn:E; simpl in Hx.
    + by right.
    + apply elem_of_cons in Hx as [->|Hx]; [right; left|].
      destruct (IH x Hx) as [?|?]; [by left|right; by right].
Qed.

Lemma dict_set_NoDup (k : pystr) (v : json) (d : dict) :
  NoDup (dict_keys d) -> NoDup (dict_keys (dict_set k v d)).
Proof.
  induction d as [|[k' v'] d IH]; simpl; intros Hnd.
  - apply NoDup_singleton.
  - apply NoDup_cons in Hnd as [Hk' Hnd].
    destruct (str_eqb k k') eqn:E; simpl.
    + by apply NoDup_cons.
    + apply NoDup_cons. split; [|by apply IH].
      intros Hin. apply dict_set_keys_incl in Hin as [->|Hin]; [|done].
      by rewrite str_eqb_refl in E.
Qed.

Lemma dict_set_forallb (f : json -> bool) (k : pystr) (v : json) (d : dict) :
  f v = true ->
  forallb (fun kv : pystr * json => f (snd kv)) d = true ->
  forallb (fun kv : pystr * json => f (snd kv)) (dict_set k v d) = true.
Proof.
  intros Hv. induction d as [|[k' v'] d IH]; simpl.
  - by rewrite Hv.
  - intros [Hv' Hd]%andb_true_iff. destruct (str_eqb k k'); simpl.
    + by rewrite Hv, Hd.
    + by rewrite Hv', IH.
Qed.

Lemma dict_set_plain (k : pystr) (v : json) (d : dict) :
  py_dict_ok v = true -> float_free v = true ->
  py_dict_ok (JObj d) = true -> float_free (JObj d) = true ->
  py_dict_ok (JObj (dict_set k v d)) = true
  /\ float_free (JObj (dict_set k v d)) = true.
Proof.
  intros Hokv Hffv Hok Hff. cbn [py_dict_ok float_free] in *.
  apply andb_true_iff in Hok as [Hnd Hok].
  apply bool_decide_eq_true in Hnd. split.
  - apply andb_true_iff. split.
    + apply bool_decide_eq_true. by apply dict_set_NoDup.
    + by apply dict_set_forallb.
  - by apply dict_set_forallb.
Qed.

(** X5.  After a successful [ask_title] the snapshot on disk is the registry
    in memory: for a registry of dicts, lists, strings, integers, booleans
    and [None], loading the snapshot just written gives [COURSES] back, the
    new record included, whatever [COURSES] was bound to before loading. *)
Theorem snapshot_follows_registry
    (ZipFile : list Byte.byte -> option (list ZipInfo)) (cfg : config)
    (b b' : bot) (chat_id : Z) (text course_id token now : pystr)
    (number title url : pystr) (d : dict) (current : json) :
  COURSES b = JObj d ->
  py_dict_ok (JObj d) = true -> float_free (JObj d) = true ->
  ask_title ZipFile cfg b chat_id text course_id token now
  = Returned b' (Saved course_id number title url) END ->
  load_db current (snapshot b') = COURSES b'.
Proof.
  intros Hd Hok Hff Hret.
  destruct (saved_registry _ _ _ _ _ _ _ _ _ _ _ _ _ Hd Hret)
    as (r & Hc & Hs & _).
  rewrite Hs, Hc. unfold save_db, load_db.
  destruct (meta_plain r) as [Hokr Hffr].
  destruct (dict_set_plain course_id (meta r) d Hokr Hffr Hok Hff)
    as [Hok' Hff'].
  by rewrite json_loads_dumps.
Qed.

Lemma snapshot_follows_registry_witness :
  let b' := bot_of (ask_title three_ZipFile no_config (app_bot waiting_app) 5
                      (py "Title") (py "new") (py "secret") (py "now")) in
  load_db JNull (snapshot b') = COURSES b'.
Proof.
  intros b'.
  apply (snapshot_follows_registry three_ZipFile no_config
           (app_bot waiting_app) b' 5 (py "Title") (py "new") (py "secret")
           (py "now") (py "3") (py "Title")
           (webapp_url_of no_config (py "new") (py "secret"))
           (List.map (fun r => (rec_id r, meta r)) two_courses) JNull
           eq_refl); [reflexivity|reflexivity|].
  vm_compute. reflexivity.
Defined.

(** * A snapshot that is no dict *)

(** X6.  [load_db] takes whatever JSON value the snapshot holds.  When that
    value is no dict (a list, a number, a string, [null]), the bot starts
    with it as [COURSES]: both routes of the file server then raise on every
    request, [find_cmd] raises on every query, and an upload whose archive
    extracts raises at [COURSES[course_id] = meta], after the files were
    written: the directory of the course stays, no record is made, and the
    pending upload is gone. *)
Theorem snapshot_not_a_dict
    (ZipFile : list Byte.byte -> option (list ZipInfo)) (cfg : config)
    (s : pystr) (v : json) :
  json_loads s = Some v -> not_a_dict v ->
  startup (Text s) = v
  /\ (forall h course_id token filename,
        serve_course_file h v course_id token filename = ServerError
        /\ serve_course_index h v course_id token = ServerError)
  /\ (forall args user_id,
        query_of args <> [] -> find_cmd v args user_id = FindCrashed)
  /\ (forall b chat_id text course_id token now temp t0 t1,
        COURSES b = v ->
        TEMP_UPLOADS b !! chat_id = Some temp ->
        mkdir_parents (files b) (DATA_DIR ++ [course_id]) = Some t0 ->
        extraction ZipFile t0 (DATA_DIR ++ [course_id]) (p_bytes temp)
        = Done t1 ->
        exists b',
          ask_title ZipFile cfg b chat_id text course_id token now
          = Crashed b'
          /\ files b' = t1 /\ COURSES b' = v
          /\ TEMP_UPLOADS b' !! chat_id = None).
Proof.
  intros Hs Hv. repeat split.
  - unfold startup, load_db. by rewrite Hs.
  - by destruct v.
  - by destruct v.
  - intros args user_id Hq. unfold find_cmd. fold (query_of args).
    apply str_eqb_neq in Hq. rewrite Hq. by destruct v.
  - intros b chat_id text course_id token now temp t0 t1 Hc Htemp Hmk Hex.
    unfold ask_title. rewrite Htemp, Hmk, Hex, Hc.
    destruct v; try done; eexists; (split; [reflexivity|]); cbn;
      repeat split; try done; apply lookup_delete_eq.
Qed.

Lemma snapshot_not_a_dict_witness :
  startup (Text (py "[]")) = JArr []
  /\ serve_course_index linked_host (JArr []) (py "abc") (Some (py "tok"))
     = ServerError.
Proof.
  destruct (snapshot_not_a_dict three_ZipFile no_config (py "[]") (JArr [])
              eq_refl I) as (Hstart & Hserve & _).
  split; [exact Hstart|]. apply (Hserve linked_host _ _ (py "index.html")).
Defined.

(** * Reloading the registry *)

Lemma dict_of_pairs_plain (pairs : list (pystr * json)) :
  forallb (fun kv : pystr * json => py_dict_ok (snd kv)) pairs = true ->
  py_dict_ok (JObj (dict_of_pairs pairs)) = true.
Proof.
  intros Hpairs. unfold dict_of_pairs.
  assert (H : forall acc : dict,
    NoDup (dict_keys acc) ->
    forallb (fun kv : pystr * json => py_dict_ok (snd kv)) acc = true ->
    py_dict_ok
      (JObj (fold_left (fun d kv => dict_set (fst kv) (snd kv) d) pairs acc))
    = true).
  { induction pairs as [|[k v] pairs IH]; intros acc Hnd Hacc.
    - cbn [fold_left py_dict_ok]. apply andb_true_iff. split; [|done].
      by apply bool_decide_eq_true.
    - simpl in Hpairs. apply andb_true_iff in Hpairs as [Hv Hpairs].
      cbn [fold_left fst snd]. apply IH; [done| |].
      + by apply dict_set_NoDup.
      + by apply dict_set_forallb. }
  apply H; [apply NoDup_nil_2|done].
Qed.

Lemma match_number_plain (s rest : pystr) (v : json) :
  match_number s = Some (v, rest) -> py_dict_ok v = true.
Proof.
  unfold match_number.
  destruct (scan_integer s) as [[[neg integer] s1]|]; [|done].
  destruct (scan_frac s1) as [frac s2]. destruct (scan_exp s2) as [exp s3].
  destruct frac, exp; by intros [= <- _].
Qed.

Lemma scan_constant_plain (s rest : pystr) (v : json) :
  scan_constant s = Some (v, rest) -> py_dict_ok v = true.
Proof.
  unfold scan_constant.
  repeat match goal with
         | |- context [strip_prefix ?p s] => destruct (strip_prefix p s)
         end; try done; by intros [= <- _].
Qed.

(** What the decoder builds has distinct keys in each of its dicts, as
    [dict(pairs)] makes them. *)
Lemma scan_once_plain (fuel : nat) :
  (forall s v rest, scan_once fuel s = Some (v, rest) -> py_dict_ok v = true)
  /\ (forall s vs rest,
        JSONArray_items fuel s = Some (vs, rest) ->
        forallb py_dict_ok vs = true)
  /\ (forall s ps rest,
        JSONObject_items fuel s = Some (ps, rest) ->
        forallb (fun kv : pystr * json => py_dict_ok (snd kv)) ps = true).
Proof.
  induction fuel as [|fuel (IHv & IHa & IHo)]; [by repeat split|].
  repeat split.
  - intros s v rest. destruct s as [|c s']; [done|]. cbn [scan_once].
    destruct (c =? 34)%N.
    { destruct (scanstring s') as [[str r]|]; [|done]. by intros [= <- _]. }
    destruct (c =? 123)%N.
    { cbv zeta. destruct (expect 125%N (skip_ws s')); [by intros [= <- _]|].
      destruct (expect 34%N (skip_ws s')) as [r|]; [|done].
      destruct (JSONObject_items fuel r) as [[ps r']|] eqn:E; [|done].
      intros [= <- _]. apply dict_of_pairs_plain. by apply (IHo _ _ _ E). }
    destruct (c =? 91)%N.
    { cbv zeta. destruct (expect 93%N (skip_ws s')); [by intros [= <- _]|].
      destruct (JSONArray_items fuel (skip_ws s')) as [[vs r']|] eqn:E;
        [|done].
      intros [= <- _]. cbn [py_dict_ok]. by apply (IHa _ _ _ E). }
    destruct (strip_prefix (py "null") (c :: s')); [by intros [= <- _]|].
    destruct (strip_prefix (py "true") (c :: s')); [by intros [= <- _]|].
    destruct (strip_prefix (py "false") (c :: s')); [by intros [= <- _]|].
    destruct (match_number (c :: s')) as [[v' r]|] eqn:E.
    + intros [= <- _]. by apply (match_number_plain _ _ _ E).
    + apply scan_constant_plain.
  - intros s vs rest. cbn [JSONArray_items].
    destruct (scan_once fuel s) as [[v s1]|] eqn:E; [|done]. cbv zeta.
    destruct (expect 93%N (skip_ws s1)).
    { intros [= <- _]. simpl. by rewrite (IHv _ _ _ E). }
    destruct (expect 44%N (skip_ws s1)) as [s3|]; [|done].
    destruct (JSONArray_items fuel (skip_ws s3)) as [[vs' r]|] eqn:E';
      [|done].
    intros [= <- _]. simpl. by rewrite (IHv _ _ _ E), (IHa _ _ _ E').
  - intros s ps rest. cbn [JSONObject_items].
    destruct (scanstring s) as [[key s1]|]; [|done].
    destruct (expect 58%N (skip_ws s1)) as [s2|]; [|done].
    destruct (scan_once fuel (skip_ws s2)) as [[v s3]|] eqn:E; [|done].
    cbv zeta. destruct (expect 125%N (skip_ws s3)).
    { intros [= <- _]. simpl. by rewrite (IHv _ _ _ E). }
    destruct (expect 44%N (skip_ws s3)) as [s5|]; [|done].
    destruct (expect 34%N (skip_ws s5)) as [s6|]; [|done].
    destruct (JSONObject_items fuel s6) as [[ps' r]|] eqn:E'; [|done].
    intros [= <- _]. simpl. by rewrite (IHv _ _ _ E), (IHo _ _ _ E').
Qed.

Lemma json_loads_plain (s : pystr) (v : json) :
  json_loads s = Some v -> py_dict_ok v = true.
Proof.
  unfold json_loads. cbv zeta.
  destruct (scan_once _ (skip_ws s)) as [[v' rest]|] eqn:E; [|done].
  destruct (skip_ws rest); [|done]. intros [= <-].
  by apply (proj1 (scan_once_plain _) _ _ _ E).
Qed.

Lemma load_db_plain (current : json) (f : db_file) :
  py_dict_ok current = true -> py_dict_ok (load_db current f) = true.
Proof.
  intros Hc. destruct f as [| |s]; simpl; [done|done|].
  destruct (json_loads s) as [v|] eqn:E; [|done].
  by apply (json_loads_plain s).
Qed.

(** X7.  Reloading is idempotent: when the registry that [load_db] gives
    holds no float and only strings that UTF-8 can encode, so that [save_db]
    writes it, saving it and loading it again gives the same registry,
    whether the first load read a snapshot, fell back to the empty dict or
    found no file and kept [COURSES]. *)
Theorem reload_idempotent (current again : json) (f : db_file) :
  py_dict_ok current = true ->
  float_free (load_db current f) = true ->
  encodable (load_db current f) = true ->
  load_db again (save_db (load_db current f)) = load_db current f.
Proof.
  intros Hc Hff _. pose proof (load_db_plain current f Hc) as Hok.
  unfold save_db. cbn [load_db]. by rewrite json_loads_dumps.
Qed.

Lemma reload_idempotent_witness :
  let loaded := load_db (JObj []) (Text handwritten_snapshot) in
  loaded = JObj [(py "abc", JObj [(py "owner", JInt 8)])]
  /\ load_db JNull (save_db loaded) = loaded.
Proof.
  intros loaded. split; [reflexivity|].
  apply (reload_idempotent (JObj []) JNull); reflexivity.
Defined.

(** * More on the conversation *)

Lemma set_state_lookup_ne (c : conv) (key key' : Z * Z)
    (m : gmap (Z * Z) conv) :
  key' <> key -> set_state c key m !! key' = m !! key'.
Proof.
  intros Hne. destruct c; simpl.
  - by apply lookup_delete_ne.
  - by apply lookup_insert_ne.
  - by apply lookup_insert_ne.
Qed.

Lemma state_of_set_state (a : app) (b : bot) (c : conv) (key : Z * Z) :
  state_of {| app_bot := b;
              conversations := set_state c key (conversations a) |} key = c.
Proof.
  unfold state_of. destruct c; simpl.
  - by rewrite lookup_delete_eq.
  - by rewrite lookup_insert_eq.
  - by rewrite lookup_insert_eq.
Qed.

Lemma recv_document_uploads (b : bot) (chat_id user_id c' : Z)
    (doc : option document) :
  c' <> chat_id ->
  TEMP_UPLOADS (bot_of (recv_document b chat_id user_id doc)) !! c'
  = TEMP_UPLOADS b !! c'.
Proof.
  intros Hne. unfold recv_document. destruct doc as [doc|]; [|done].
  destruct (declared_too_large doc); [done|].
  destruct (negb _); [done|]. simpl. by apply lookup_insert_ne.
Qed.

Lemma ask_number_uploads (b : bot) (chat_id c' : Z) (text : pystr) :
  c' <> chat_id ->
  TEMP_UPLOADS (bot_of (ask_number b chat_id text)) !! c'
  = TEMP_UPLOADS b !! c'.
Proof.
  intros Hne. unfold ask_number.
  destruct (TEMP_UPLOADS b !! chat_id); [|done]. simpl.
  by apply lookup_insert_ne.
Qed.

Lemma ask_title_uploads
    (ZipFile : list Byte.byte -> option (list ZipInfo)) (cfg : config)
    (b : bot) (chat_id c' : Z) (text course_id token now : pystr) :
  c' <> chat_id ->
  TEMP_UPLOADS
    (bot_of (ask_title ZipFile cfg b chat_id text course_id token now)) !! c'
  = TEMP_UPLOADS b !! c'.
Proof.
  intros Hne. unfold ask_title.
  destruct (TEMP_UPLOADS b !! chat_id) as [temp|]; [|done].
  destruct (mkdir_parents (files b) (DATA_DIR ++ [course_id])) as [t0|];
    [|by apply lookup_delete_ne].
  destruct (extraction ZipFile t0 _ (p_bytes temp));
    [|by apply lookup_delete_ne].
  destruct (COURSES b); by apply lookup_delete_ne.
Qed.

Lemma after_bot (a : app) (key : Z * Z) (r : result) :
  app_bot (fst (after a key r)) = bot_of r.
Proof. by destruct r. Qed.

Lemma after_conversations (a : app) (key key' : Z * Z) (r : result) :
  key' <> key ->
  conversations (fst (after a key r)) !! key' = conversations a !! key'.
Proof.
  intros Hne. destruct r; simpl; [|done]. by apply set_state_lookup_ne.
Qed.

(** X8.  An update touches nothing of the other conversations: the pending
    uploads of the other chats and the states of the other conversations
    are after it what they were before, whichever handler ran and however
    it ended. *)
Theorem dispatch_leaves_others
    (ZipFile : list Byte.byte -> option (list ZipInfo)) (cfg : config)
    (a : app) (draws : pystr * pystr * pystr) (u : update)
    (chat' : Z) (key' : Z * Z) :
  let a' := fst (dispatch ZipFile cfg a draws u) in
  (chat' <> chat_of u ->
   TEMP_UPLOADS (app_bot a') !! chat' = TEMP_UPLOADS (app_bot a) !! chat')
  /\ (key' <> key_of u ->
      conversations a' !! key' = conversations a !! key').
Proof.
  destruct draws as [[course_id token] now].
  destruct u as [c us doc|c us text|c us|c us]; cbn [dispatch chat_of key_of].
  - destruct (state_of a (c, us)); [|done|done]. split.
    + intros Hne. rewrite after_bot. by apply recv_document_uploads.
    + intros Hne. by apply after_conversations.
  - destruct (state_of a (c, us)); [done| |]; split.
    + intros Hne. rewrite after_bot. by apply ask_number_uploads.
    + intros Hne. by apply after_conversations.
    + intros Hne. rewrite after_bot. by apply ask_title_uploads.
    + intros Hne. by apply after_conversations.
  - split.
    + intros Hne. simpl. by apply lookup_delete_ne.
    + intros Hne. simpl. by apply lookup_delete_ne.
  - split; [done|]. intros Hne. simpl. by apply lookup_delete_ne.
Qed.

Lemma dispatch_leaves_others_witness :
  let a' := fst (dispatch three_ZipFile no_config waiting_app
                          (py "new", py "secret", py "now")
                          (Document 6 8 small_document)) in
  TEMP_UPLOADS (app_bot a') !! 5%Z = Some waiting_upload
  /\ conversations a' !! (5%Z, 7%Z) = Some AwaitingTitle.
Proof.
  intros a'.
  destruct (dispatch_leaves_others three_ZipFile no_config waiting_app
              (py "new", py "secret", py "now")
              (Document 6 8 small_document) 5 (5%Z, 7%Z)) as [Hu Hc].
  split.
  - etrans; [apply Hu; discriminate|reflexivity].
  - etrans; [apply Hc; discriminate|reflexivity].
Defined.

Lemma dispatch_document_idle
    (ZipFile : list Byte.byte -> option (list ZipInfo)) (cfg : config)
    (a : app) (draws : pystr * pystr * pystr) (chat_id user_id : Z)
    (doc : document) :
  state_of a (chat_id, user_id) = Idle -> acceptable doc ->
  dispatch ZipFile cfg a draws (Document chat_id user_id doc)
  = ({| app_bot :=
          with_uploads (app_bot a)
            (<[chat_id := upload_of doc user_id]> (TEMP_UPLOADS (app_bot a)));
        conversations :=
          <[(chat_id, user_id) := AwaitingNumber]> (conversations a) |},
     Some AskNumber).
Proof.
  intros Hidle [Hsize Hname]. cbn [dispatch]. rewrite Hidle.
  by rewrite recv_document_accepts.
Qed.

(** X9.  The upload is filed under the chat, the conversation under chat and
    user.  When two users of one chat each send an acceptable document, both
    conversations wait for a number, and the chat has one pending upload:
    the second user's.  The number the first user then sends is stored on
    that upload. *)
Theorem shared_chat_upload_replaced
    (ZipFile : list Byte.byte -> option (list ZipInfo)) (cfg : config)
    (a : app) (draws : pystr * pystr * pystr) (chat_id user1 user2 : Z)
    (doc1 doc2 : document) (text : pystr) :
  user1 <> user2 ->
  state_of a (chat_id, user1) = Idle ->
  state_of a (chat_id, user2) = Idle ->
  acceptable doc1 -> acceptable doc2 ->
  let a1 := fst (dispatch ZipFile cfg a draws
                   (Document chat_id user1 doc1)) in
  let a2 := fst (dispatch ZipFile cfg a1 draws
                   (Document chat_id user2 doc2)) in
  let a3 := fst (dispatch ZipFile cfg a2 draws
                   (TextMsg chat_id user1 text)) in
  state_of a2 (chat_id, user1) = AwaitingNumber
  /\ state_of a2 (chat_id, user2) = AwaitingNumber
  /\ TEMP_UPLOADS (app_bot a2) !! chat_id = Some (upload_of doc2 user2)
  /\ state_of a3 (chat_id, user1) = AwaitingTitle
  /\ TEMP_UPLOADS (app_bot a3) !! chat_id
     = Some {| p_bytes := file_content doc2;
               p_filename := fname_of doc2;
               p_uploader := user2;
               p_number := Some (strip text) |}.
Proof.
  intros Hne Hidle1 Hidle2 Hdoc1 Hdoc2 a1 a2 a3.
  assert (Ha1 : a1 = {| app_bot :=
          with_uploads (app_bot a)
            (<[chat_id := upload_of doc1 user1]> (TEMP_UPLOADS (app_bot a)));
        conversations :=
          <[(chat_id, user1) := AwaitingNumber]> (conversations a) |}).
  { unfold a1. by rewrite dispatch_document_idle. }
  assert (Hidle2' : state_of a1 (chat_id, user2) = Idle).
  { rewrite Ha1. unfold state_of in *. cbn [conversations].
    rewrite lookup_insert_ne; [done|]. congruence. }
  assert (Ha2 : a2 = {| app_bot :=
          with_uploads (app_bot a1)
            (<[chat_id := upload_of doc2 user2]> (TEMP_UPLOADS (app_bot a1)));
        conversations :=
          <[(chat_id, user2) := AwaitingNumber]> (conversations a1) |}).
  { unfold a2. by rewrite dispatch_document_idle. }
  assert (Hs1 : state_of a2 (chat_id, user1) = AwaitingNumber).
  { rewrite Ha2, Ha1. unfold state_of. cbn [conversations].
    rewrite lookup_insert_ne by congruence. by rewrite lookup_insert_eq. }
  assert (Hup : TEMP_UPLOADS (app_bot a2) !! chat_id
                = Some (upload_of doc2 user2)).
  { rewrite Ha2. cbn. by rewrite lookup_insert_eq. }
  split; [done|]. split.
  { rewrite Ha2. unfold state_of. cbn [conversations].
    by rewrite lookup_insert_eq. }
  split; [done|].
  unfold a3. cbn [dispatch]. rewrite Hs1. unfold ask_number. rewrite Hup.
  cbn [after fst conv_of]. split.
  - apply state_of_set_state.
  - cbn. by rewrite lookup_insert_eq.
Qed.

Lemma shared_chat_upload_replaced_witness :
  let a1 := fst (dispatch three_ZipFile no_config fresh_app
                   (py "new", py "secret", py "now")
                   (Document 5 7 unnamed_document)) in
  let a2 := fst (dispatch three_ZipFile no_config a1
                   (py "new", py "secret", py "now")
                   (Document 5 8 small_document)) in
  state_of a2 (5%Z, 7%Z) = AwaitingNumber
  /\ TEMP_UPLOADS (app_bot a2) !! 5%Z = Some (upload_of small_document 8).
Proof.
  intros a1 a2.
  destruct (shared_chat_upload_replaced three_ZipFile no_config fresh_app
              (py "new", py "secret", py "now") 5 7 8
              unnamed_document small_document (py "12")
              ltac:(discriminate) eq_refl eq_refl
              (conj eq_refl eq_refl) (conj eq_refl eq_refl))
    as (H1 & _ & H3 & _).
  split; [exact H1|exact H3].
Defined.

(** X10.  The three steps of an upload compose.  From an idle conversation,
    an acceptable document, then a text, then another text make the bot ask
    for the number, ask for the title and answer [Saved]; when the archive
    extracts, the registry gets a record whose owner is the sender, whose
    number and title are the two texts trimmed and whose file name is the
    document's (or [upload.zip]), the conversation is idle again and the
    chat has no pending upload. *)
Theorem upload_conversation
    (ZipFile : list Byte.byte -> option (list ZipInfo)) (cfg : config)
    (a : app) (chat_id user_id : Z) (doc : document)
    (number_text title_text course_id token now : pystr)
    (d : dict) (ms : list ZipInfo) (t0 t1 : tree) :
  state_of a (chat_id, user_id) = Idle ->
  acceptable doc ->
  COURSES (app_bot a) = JObj d ->
  ZipFile (file_content doc) = Some ms ->
  mkdir_parents (files (app_bot a)) (DATA_DIR ++ [course_id]) = Some t0 ->
  extract_all t0 (DATA_DIR ++ [course_id]) ms = Done t1 ->
  let draws := (course_id, token, now) in
  let step1 := dispatch ZipFile cfg a draws
                        (Document chat_id user_id doc) in
  let step2 := dispatch ZipFile cfg (fst step1) draws
                        (TextMsg chat_id user_id number_text) in
  let step3 := dispatch ZipFile cfg (fst step2) draws
                        (TextMsg chat_id user_id title_text) in
  let r := {| rec_id := course_id;
              rec_owner := user_id;
              rec_number := strip number_text;
              rec_title := strip title_text;
              rec_filename := fname_of doc;
              rec_path := course_dir_str cfg (DATA_DIR ++ [course_id]);
              rec_token := token;
              rec_created_at := now |} in
  snd step1 = Some AskNumber
  /\ snd step2 = Some AskTitle
  /\ snd step3 = Some (Saved course_id (strip number_text) (strip title_text)
                             (webapp_url_of cfg course_id token))
  /\ COURSES (app_bot (fst step3)) = JObj (dict_set course_id (meta r) d)
  /\ files (app_bot (fst step3)) = t1
  /\ state_of (fst step3) (chat_id, user_id) = Idle
  /\ TEMP_UPLOADS (app_bot (fst step3)) !! chat_id = None.
Proof.
  intros Hidle Hdoc Hd Hzip Hmk Hex draws step1 step2 step3 r.
  assert (H1 : step1 = ({| app_bot :=
          with_uploads (app_bot a)
            (<[chat_id := upload_of doc user_id]> (TEMP_UPLOADS (app_bot a)));
        conversations :=
          <[(chat_id, user_id) := AwaitingNumber]> (conversations a) |},
     Some AskNumber)).
  { unfold step1. by rewrite dispatch_document_idle. }
  assert (H2 : step2 = ({| app_bot :=
          with_uploads (app_bot a)
            (<[chat_id := {| p_bytes := file_content doc;
                             p_filename := fname_of doc;
                             p_uploader := user_id;
                             p_number := Some (strip number_text) |}]>
               (<[chat_id := upload_of doc user_id]>
                  (TEMP_UPLOADS (app_bot a))));
        conversations :=
          <[(chat_id, user_id) := AwaitingTitle]>
            (<[(chat_id, user_id) := AwaitingNumber]> (conversations a)) |},
     Some AskTitle)).
  { unfold step2. rewrite H1. cbn [dispatch fst].
    unfold state_of. cbn [conversations]. rewrite lookup_insert_eq.
    cbn [default]. unfold ask_number. cbn [app_bot with_uploads TEMP_UPLOADS].
    rewrite lookup_insert_eq. reflexivity. }
  assert (H3 : step3 =
    ({| app_bot :=
          {| COURSES := JObj (dict_set course_id (meta r) d);
             TEMP_UPLOADS :=
               delete chat_id
                 (<[chat_id := {| p_bytes := file_content doc;
                                  p_filename := fname_of doc;
                                  p_uploader := user_id;
                                  p_number := Some (strip number_text) |}]>
                    (<[chat_id := upload_of doc user_id]>
                       (TEMP_UPLOADS (app_bot a))));
             files := t1;
             snapshot := save_db (JObj (dict_set course_id (meta r) d)) |};
        conversations :=
          delete (chat_id, user_id)
            (<[(chat_id, user_id) := AwaitingTitle]>
               (<[(chat_id, user_id) := AwaitingNumber]>
                  (conversations a))) |},
     Some (Saved course_id (strip number_text) (strip title_text)
                 (webapp_url_of cfg course_id token)))).
  { unfold step3. rewrite H2. cbn [dispatch fst draws].
    unfold state_of. cbn [conversations]. rewrite lookup_insert_eq.
    cbn [default]. unfold ask_title, extraction.
    cbn [app_bot with_uploads TEMP_UPLOADS files COURSES].
    rewrite lookup_insert_eq. cbn [p_bytes p_number p_uploader p_filename].
    rewrite Hmk, Hzip, Hex, Hd. reflexivity. }
  rewrite H1, H2, H3. cbn [fst snd app_bot COURSES files TEMP_UPLOADS].
  repeat split.
  - unfold state_of. cbn [conversations]. by rewrite lookup_delete_eq.
  - by rewrite lookup_delete_eq.
Qed.

Lemma upload_conversation_witness :
  let draws := (py "new", py "secret", py "now") in
  let step1 := dispatch three_ZipFile no_config fresh_app draws
                        (Document 5 7 small_document) in
  let step2 := dispatch three_ZipFile no_config (fst step1) draws
                        (TextMsg 5 7 (py " 12 ")) in
  let step3 := dispatch three_ZipFile no_config (fst step2) draws
                        (TextMsg 5 7 (py "Algebra II ")) in
  snd step3 = Some (Saved (py "new") (py "12") (py "Algebra II")
                          (py "https://host/courses/new/?token=secret"))
  /\ state_of (fst step3) (5%Z, 7%Z) = Idle.
Proof.
  intros draws step1 step2 step3.
  destruct (upload_conversation three_ZipFile no_config fresh_app 5 7
              small_document (py " 12 ") (py "Algebra II ")
              (py "new") (py "secret") (py "now") [] three_members
              new_course_dir
              (tree_of (extract_all new_course_dir (DATA_DIR ++ [py "new"])
                                    three_members))
              eq_refl (conj eq_refl eq_refl) eq_refl eq_refl eq_refl)
    as (_ & _ & Hsaved & _ & _ & Hidle & _).
  - vm_compute. reflexivity.
  - split; [exact Hsaved|exact Hidle].
Defined.

(** * Listing courses *)

Lemma str_leb_refl (a : pystr) : str_leb a a = true.
Proof. induction a as [|x a IH]; [done|]. simpl. by rewrite N.ltb_irrefl. Qed.

Lemma str_leb_total (a b : pystr) : str_leb a b = false -> str_leb b a = true.
Proof.
  revert b. induction a as [|x a IH]; intros [|y b]; simpl; try done.
  destruct (N.ltb_spec x y) as [Hxy|Hxy]; [done|].
  destruct (N.ltb_spec y x) as [Hyx|Hyx]; [done|]. apply IH.
Qed.

Lemma str_leb_trans (a b c : pystr) :
  str_leb a b = true -> str_leb b c = true -> str_leb a c = true.
Proof.
  revert b c. induction a as [|x a IH]; intros [|y b] [|z c]; simpl;
    try done.
  destruct (N.ltb_spec x y) as [Hxy|Hxy];
    destruct (N.ltb_spec y z) as [Hyz|Hyz];
    destruct (N.ltb_spec x z) as [Hxz|Hxz]; try done; try lia;
    destruct (N.ltb_spec y x) as [Hyx|Hyx];
    destruct (N.ltb_spec z y) as [Hzy|Hzy];
    destruct (N.ltb_spec z x) as [Hzx|Hzx]; try done; try lia.
  apply IH.
Qed.

Section sorting.
Context {A : Type}.
Implicit Types (kx : pystr * A) (xs : list (pystr * A)).

Lemma insert_desc_perm kx xs : Permutation (insert_desc kx xs) (kx :: xs).
Proof.
  induction xs as [|y ys IH]; [done|]. simpl.
  destruct (str_leb (fst y) (fst kx)); [done|].
  rewrite IH. apply perm_swap.
Qed.

Lemma sorted_desc_perm xs : Permutation (sorted_desc xs) xs.
Proof.
  induction xs as [|x xs IH]; [done|]. simpl.
  rewrite insert_desc_perm. by apply perm_skip.
Qed.

Lemma insert_desc_sorted kx xs :
  StronglySorted (@key_ge A) xs ->
  StronglySorted (@key_ge A) (insert_desc kx xs).
Proof.
  induction 1 as [|y ys Hys IH Hy]; simpl.
  - repeat constructor.
  - destruct (str_leb (fst y) (fst kx)) eqn:E.
    + constructor; [by constructor|]. constructor; [done|].
      eapply List.Forall_impl; [|exact Hy]. intros z Hz. unfold key_ge in *.
      by apply (str_leb_trans _ (fst y)).
    + constructor; [done|].
      eapply Permutation_Forall.
      { symmetry. apply insert_desc_perm. }
      constructor; [|done]. by apply str_leb_total.
Qed.

Lemma sorted_desc_sorted xs : StronglySorted (@key_ge A) (sorted_desc xs).
Proof.
  induction xs as [|x xs IH]; [constructor|].
  by apply insert_desc_sorted.
Qed.

Lemma insert_desc_stable (k : pystr) kx xs :
  List.filter (fun y => str_eqb (fst y) k) (insert_desc kx xs)
  = List.filter (fun y => str_eqb (fst y) k) (kx :: xs).
Proof.
  induction xs as [|y ys IH]; [done|]. cbn [insert_desc].
  destruct (str_leb (fst y) (fst kx)) eqn:E; [done|].
  cbn [List.filter] in *. rewrite IH.
  destruct (str_eqb (fst kx) k) eqn:Ekx; [|done].
  destruct (str_eqb (fst y) k) eqn:Ey; [|done].
  apply str_eqb_eq in Ekx, Ey. rewrite Ekx, Ey, str_leb_refl in E. done.
Qed.

Lemma sorted_desc_stable (k : pystr) xs :
  List.filter (fun y => str_eqb (fst y) k) (sorted_desc xs)
  = List.filter (fun y => str_eqb (fst y) k) xs.
Proof.
  induction xs as [|x xs IH]; [done|]. cbn [sorted_desc fold_right].
  rewrite insert_desc_stable. cbn [List.filter].
  fold (sorted_desc xs). by rewrite IH.
Qed.
End sorting.

Lemma insert_desc_map {A B} (f : A -> B) (kx : pystr * A)
    (xs : list (pystr * A)) :
  insert_desc (fst kx, f (snd kx))
              (List.map (fun y => (fst y, f (snd y))) xs)
  = List.map (fun y => (fst y, f (snd y))) (insert_desc kx xs).
Proof.
  induction xs as [|y ys IH]; [done|]. simpl.
  destruct (str_leb (fst y) (fst kx)); [done|]. simpl. by rewrite IH.
Qed.

Lemma sorted_desc_map {A B} (f : A -> B) (xs : list (pystr * A)) :
  sorted_desc (List.map (fun y => (fst y, f (snd y))) xs)
  = List.map (fun y => (fst y, f (snd y))) (sorted_desc xs).
Proof.
  induction xs as [|x xs IH]; [done|]. cbn [List.map sorted_desc fold_right].
  fold (sorted_desc xs).
  fold (sorted_desc (List.map (fun y => (fst y, f (snd y))) xs)).
  rewrite IH. apply insert_desc_map.
Qed.

Lemma with_keys_records (rs : list CourseRecord) :
  with_keys (List.map meta rs)
  = Some (List.map (fun y => (fst y, meta (snd y)))
            (List.map (fun r => (rec_created_at r, r)) rs)).
Proof.
  induction rs as [|r rs IH]; [done|]. cbn [List.map with_keys].
  rewrite IH. reflexivity.
Qed.

Lemma render_all_records (rs : list CourseRecord) :
  render_all (List.map meta rs) = Listed (List.map meta rs).
Proof. unfold render_all. by rewrite records_have_keys. Qed.

Lemma by_date_single (r : CourseRecord) : by_date [r] = [r].
Proof. reflexivity. Qed.

(** What [list_cmd] answers on a registry of records. *)
Lemma list_cmd_on_records (rs : list CourseRecord) (user_id : Z) :
  list_cmd (registry_of rs) user_id
  = match owned_by user_id rs with
    | [] => NoCourses
    | mine => Listed (List.map meta (by_date mine))
    end.
Proof.
  unfold list_cmd, registry_of. rewrite registry_of_values.
  rewrite (filter_raising_records _ (fun r => (rec_owner r =? user_id)%Z))
    by done.
  fold (owned_by user_id rs).
  destruct (owned_by user_id rs) as [|r1 [|r2 mine]]; [done| |].
  - cbn [List.map]. apply (render_all_records [r1]).
  - change (List.map meta (r1 :: r2 :: mine))
      with (meta r1 :: meta r2 :: List.map meta mine).
    change (meta r1 :: meta r2 :: List.map meta mine)
      with (List.map meta (r1 :: r2 :: mine)).
    rewrite with_keys_records, sorted_desc_map, List.map_map.
    cbn [snd]. unfold by_date.
    rewrite <- (List.map_map snd meta). apply render_all_records.
Qed.

(** X11.  On a registry of records, [list_cmd] says that there is no course
    when the requester owns none, and otherwise lists exactly the records
    the requester owns, each once, the newest [created_at] first and records
    of one date in the order of the registry. *)
Theorem list_cmd_newest_first (rs : list CourseRecord) (user_id : Z) :
  list_cmd (registry_of rs) user_id
  = match owned_by user_id rs with
    | [] => NoCourses
    | mine => Listed (List.map meta (by_date mine))
    end
  /\ Permutation (by_date (owned_by user_id rs)) (owned_by user_id rs)
  /\ StronglySorted not_older (by_date (owned_by user_id rs))
  /\ (forall k, dated k (by_date (owned_by user_id rs))
                = dated k (owned_by user_id rs)).
Proof.
  split; [apply list_cmd_on_records|].
  set (mine := owned_by user_id rs).
  set (keyed := List.map (fun r => (rec_created_at r, r)) mine).
  assert (Hkeys : forall kr, In kr (sorted_desc keyed) ->
                             fst kr = rec_created_at (snd kr)).
  { intros kr Hin.
    apply (Permutation_in _ (sorted_desc_perm keyed)) in Hin.
    apply in_map_iff in Hin as (r & <- & _). done. }
  assert (Hsnd : List.map snd keyed = mine).
  { unfold keyed. rewrite List.map_map. apply List.map_id. }
  split; [|split].
  - unfold by_date. fold keyed.
    etrans; [apply Permutation_map, sorted_desc_perm|]. by rewrite Hsnd.
  - unfold by_date. fold keyed.
    pose proof (sorted_desc_sorted keyed) as Hs.
    induction Hs as [|kr l Hl IH Hkr]; [constructor|].
    cbn [List.map]. constructor.
    + apply IH. intros kr' Hin. apply Hkeys. by right.
    + apply List.Forall_forall. intros r Hr.
      apply in_map_iff in Hr as (kr' & <- & Hin').
      rewrite List.Forall_forall in Hkr. specialize (Hkr kr' Hin').
      unfold key_ge in Hkr. unfold not_older.
      rewrite <- (Hkeys kr (or_introl eq_refl)).
      rewrite <- (Hkeys kr' (or_intror Hin')). done.
  - intros k. unfold dated, by_date. fold keyed.
    assert (Hf : forall l : list (pystr * CourseRecord),
      (forall kr, In kr l -> fst kr = rec_created_at (snd kr)) ->
      List.filter (fun r => str_eqb (rec_created_at r) k) (List.map snd l)
      = List.map snd (List.filter (fun y => str_eqb (fst y) k) l)).
    { induction l as [|kr l IHl]; intros Hl; [done|].
      cbn [List.map List.filter].
      rewrite <- (Hl kr (or_introl eq_refl)).
      rewrite IHl by (intros ? ?; apply Hl; by right).
      by destruct (str_eqb (fst kr) k). }
    rewrite Hf by done. rewrite sorted_desc_stable.
    rewrite <- Hf, Hsnd; [done|].
    intros kr Hin. apply in_map_iff in Hin as (r & <- & _). done.
Qed.

(** * Listing, finding and opening what was uploaded *)

(** What [find_cmd] answers on a registry of records. *)
Lemma find_cmd_on_records (rs : list CourseRecord) (args : list pystr)
    (user_id : Z) :
  find_cmd (registry_of rs) args user_id
  = if str_eqb (query_of args) [] then Usage
    else reply_for (List.map meta (List.filter (matching args user_id) rs)).
Proof.
  unfold find_cmd, registry_of. fold (query_of args).
  destruct (str_eqb (query_of args) []); [done|].
  rewrite registry_of_values.
  rewrite (filter_raising_records _ (fun r => (rec_owner r =? user_id)%Z))
    by done.
  rewrite (filter_raising_records _
             (fun r => contains (query_of args)
                         (lower (rec_number r) ++ py " "
                          ++ lower (rec_title r)))) by done.
  rewrite filter_filter.
  assert (Hsame :
    List.filter
      (fun r => (rec_owner r =? user_id)%Z
                && contains (query_of args)
                     (lower (rec_number r) ++ py " " ++ lower (rec_title r)))
      rs
    = List.filter (matching args user_id) rs).
  { apply List.filter_ext. intros r. unfold matching, ci_contains.
    by rewrite !lower_app. }
  rewrite Hsame.
  destruct (List.filter (matching args user_id) rs) as [|r found] eqn:E;
    [done|].
  rewrite records_have_keys. done.
Qed.

Lemma found_records_reply_for (found : list json) :
  found_records (reply_for found) = found.
Proof. by destruct found. Qed.

Lemma by_date_perm (rs : list CourseRecord) : Permutation (by_date rs) rs.
Proof.
  unfold by_date.
  etrans; [apply Permutation_map, sorted_desc_perm|].
  rewrite List.map_map. by rewrite List.map_id.
Qed.

(** X12.  On a registry of records, every course that [find_cmd] shows to a
    user is among the courses that [list_cmd] lists for that user. *)
Theorem found_courses_are_listed (rs : list CourseRecord)
    (args : list pystr) (user_id : Z) (c : json) :
  In c (found_records (find_cmd (registry_of rs) args user_id)) ->
  exists listed,
    list_cmd (registry_of rs) user_id = Listed listed /\ In c listed.
Proof.
  rewrite find_cmd_on_records, list_cmd_on_records.
  destruct (str_eqb (query_of args) []); [done|].
  rewrite found_records_reply_for.
  intros (r & <- & Hr)%in_map_iff.
  apply List.filter_In in Hr as [Hin Hm].
  unfold matching in Hm. apply andb_prop in Hm as [Hown _].
  assert (Hmine : In r (owned_by user_id rs)).
  { apply List.filter_In. done. }
  destruct (owned_by user_id rs) as [|r1 mine] eqn:E; [done|].
  eexists. split; [reflexivity|].
  apply in_map. apply (Permutation_in _ (Permutation_sym (by_date_perm _))).
  done.
Qed.

Lemma found_courses_are_listed_witness :
  exists listed,
    list_cmd (registry_of two_courses) 7 = Listed listed
    /\ In (meta course_abc) listed.
Proof.
  apply (found_courses_are_listed two_courses [py "algebra"] 7
           (meta course_abc)).
  vm_compute. by left.
Defined.

Lemma registry_of_snoc (rs : list CourseRecord) (r : CourseRecord) :
  rec_id r ∉ List.map rec_id rs ->
  JObj (dict_set (rec_id r) (meta r)
          (List.map (fun r => (rec_id r, meta r)) rs))
  = registry_of (rs ++ [r]).
Proof.
  intros Hfresh. unfold registry_of. rewrite List.map_app. f_equal.
  apply dict_set_fresh. unfold dict_keys. by rewrite List.map_map.
Qed.

Lemma owned_by_snoc_other (rs : list CourseRecord) (r : CourseRecord)
    (user_id : Z) :
  user_id <> rec_owner r ->
  owned_by user_id (rs ++ [r]) = owned_by user_id rs.
Proof.
  intros Hne. unfold owned_by. rewrite List.filter_app. cbn [List.filter].
  rewrite (proj2 (Z.eqb_neq _ _)) by done. apply app_nil_r.
Qed.

Lemma matching_snoc_other (rs : list CourseRecord) (r : CourseRecord)
    (args : list pystr) (user_id : Z) :
  user_id <> rec_owner r ->
  List.filter (matching args user_id) (rs ++ [r])
  = List.filter (matching args user_id) rs.
Proof.
  intros Hne. rewrite List.filter_app. cbn [List.filter]. unfold matching at 2.
  rewrite (proj2 (Z.eqb_neq _ _)) by done. apply app_nil_r.
Qed.

(** X13.  When [ask_title] saves a course under an id the registry of
    records did not hold, the record comes last in the registry; [list_cmd]
    lists it for the uploader, and for every other user [list_cmd] and
    [find_cmd] answer as they did before the upload. *)
Theorem upload_shown_to_owner_only
    (ZipFile : list Byte.byte -> option (list ZipInfo)) (cfg : config)
    (b b' : bot) (chat_id : Z) (text course_id token now : pystr)
    (number title url : pystr) (rs : list CourseRecord) (temp : pending) :
  COURSES b = registry_of rs ->
  course_id ∉ List.map rec_id rs ->
  TEMP_UPLOADS b !! chat_id = Some temp ->
  ask_title ZipFile cfg b chat_id text course_id token now
  = Returned b' (Saved course_id number title url) END ->
  exists r,
    COURSES b' = registry_of (rs ++ [r])
    /\ rec_id r = course_id /\ rec_owner r = p_uploader temp
    /\ (exists listed,
          list_cmd (COURSES b') (p_uploader temp) = Listed listed
          /\ In (meta r) listed)
    /\ (forall user_id, user_id <> p_uploader temp ->
          list_cmd (COURSES b') user_id = list_cmd (COURSES b) user_id
          /\ forall args,
               find_cmd (COURSES b') args user_id
               = find_cmd (COURSES b) args user_id).
Proof.
  intros Hc Hfresh Htemp Hret.
  destruct (saved_registry _ _ _ _ _ _ _ _ _ _ _ _ _ Hc Hret)
    as (r & Hc' & _ & Hid & _ & _ & _ & _ & Hown).
  destruct (Hown temp Htemp) as [Howner _].
  rewrite <- Hid in Hc', Hfresh. rewrite registry_of_snoc in Hc' by done.
  exists r. rewrite Hc', Hc. repeat split; [done|done| |..].
  - rewrite list_cmd_on_records.
    assert (Hmine : In r (owned_by (p_uploader temp) (rs ++ [r]))).
    { apply List.filter_In. split; [apply in_or_app; right; by left|].
      apply Z.eqb_eq. done. }
    destruct (owned_by (p_uploader temp) (rs ++ [r])) as [|r1 mine];
      [done|].
    eexists. split; [reflexivity|]. apply in_map.
    apply (Permutation_in _ (Permutation_sym (by_date_perm _))). done.
  - rewrite !list_cmd_on_records, owned_by_snoc_other by congruence. done.
  - intros args.
    rewrite !find_cmd_on_records, matching_snoc_other by congruence. done.
Qed.

Lemma upload_shown_to_owner_only_witness :
  exists r,
    rec_id r = py "new" /\ rec_owner r = p_uploader waiting_upload
    /\ (exists listed,
          list_cmd (registry_of (two_courses ++ [r]))
                   (p_uploader waiting_upload) = Listed listed
          /\ In (meta r) listed).
Proof.
  destruct (upload_shown_to_owner_only three_ZipFile no_config
              (app_bot waiting_app)
              (bot_of (ask_title three_ZipFile no_config (app_bot waiting_app)
                         5 (py "Title") (py "new") (py "secret") (py "now")))
              5 (py "Title") (py "new") (py "secret") (py "now")
              (py "3") (py "Title")
              (webapp_url_of no_config (py "new") (py "secret"))
              two_courses waiting_upload eq_refl
              ltac:(apply (bool_decide_unpack _); vm_compute; exact I)
              eq_refl eq_refl)
    as (r & Hc & Hid & Hown & (listed & Hl & Hin) & _).
  exists r. split; [done|]. split; [done|].
  exists listed. rewrite <- Hc. done.
Defined.

(** * The files an ingestion writes *)

Lemma mkdir_from_keeps_files (rest : list pystr) (t t' : tree)
    (base p : list pystr) (x : list Byte.byte) :
  mkdir_from t base rest = Some t' ->
  t' !! p = Some (TFile x) -> t !! p = Some (TFile x).
Proof.
  intros Hmk Hp.
  destruct (mkdir_from_lookup rest t t' base p Hmk) as [<-|(_ & Hd & _)];
    [done|congruence].
Qed.

Lemma extract_member_files (t : tree) (dir : list pystr) (m : ZipInfo)
    (p : list pystr) (x : list Byte.byte) :
  dirs_ok t dir ->
  tree_of (extract_member t dir m) !! p = Some (TFile x) ->
  t !! p = Some (TFile x)
  \/ (p = target_of dir m /\ parts (Path (zi_filename m)) <> []).
Proof.
  intros Hok. unfold extract_member. fold (target_of dir m).
  assert (Hdir : dir `prefix_of` target_of dir m)
    by apply prefix_app_r, reflexivity.
  destruct (mkdir_parents t (removelast (target_of dir m))) as [t1|] eqn:Hmk;
    [|by left].
  destruct (mkdir_parents_below _ _ _ _ Hok Hdir Hmk) as [_ Hok1].
  assert (Hkeep : t1 !! p = Some (TFile x) -> t !! p = Some (TFile x))
    by apply (mkdir_from_keeps_files _ _ _ _ _ _ Hmk).
  assert (Hopen : forall y t2,
    open_wb t1 (target_of dir m) = Some t2 ->
    <[target_of dir m := TFile y]> t2 !! p = Some (TFile x) ->
    t !! p = Some (TFile x)
    \/ (p = target_of dir m /\ parts (Path (zi_filename m)) <> [])).
  { intros y t2 Ht2 Hp.
    destruct (open_wb_below _ _ _ _ Hok1 Hdir Ht2) as [-> Hnot].
    destruct (decide (p = target_of dir m)) as [->|Hne].
    - right. split; [done|]. intros Hnil. apply Hnot.
      unfold target_of. rewrite Hnil, app_nil_r. done.
    - left. rewrite !lookup_insert_ne in Hp by done. by apply Hkeep. }
  destruct (zi_data m) as [data| |written]; cbn [tree_of].
  - destruct (open_wb t1 (target_of dir m)) as [t2|] eqn:Ht2; cbn [tree_of].
    + by apply Hopen.
    + intros Hp. left. by apply Hkeep.
  - intros Hp. left. by apply Hkeep.
  - destruct (open_wb t1 (target_of dir m)) as [t2|] eqn:Ht2; cbn [tree_of].
    + by apply Hopen.
    + intros Hp. left. by apply Hkeep.
Qed.

Lemma extract_all_files (ms : list ZipInfo) :
  forall (t : tree) (dir p : list pystr) (x : list Byte.byte),
    dirs_ok t dir ->
    tree_of (extract_all t dir ms) !! p = Some (TFile x) ->
    t !! p = Some (TFile x)
    \/ exists m, In m ms /\ skip_member (zi_filename m) = false
                 /\ p = target_of dir m
                 /\ parts (Path (zi_filename m)) <> [].
Proof.
  induction ms as [|m ms IH]; intros t dir p x Hok; cbn [extract_all].
  - by left.
  - destruct (skip_member (zi_filename m)) eqn:Hskip.
    + intros Hp. destruct (IH _ _ _ _ Hok Hp) as [?|(m' & ? & ?)];
        [by left|].
      right. exists m'. split; [by right|done].
    + pose proof (extract_member_below t dir m Hok) as [_ Hok'].
      pose proof (extract_member_files t dir m p x Hok) as Hm.
      destruct (extract_member t dir m) as [t'|t']; cbn [tree_of] in *.
      * intros Hp. destruct (IH _ _ _ _ Hok' Hp) as [Hp'|(m' & ? & ?)].
        -- destruct (Hm Hp') as [?|[? ?]]; [by left|].
           right. exists m. split; [by left|done].
        -- right. exists m'. split; [by right|done].
      * intros Hp. destruct (Hm Hp) as [?|[? ?]]; [by left|].
        right. exists m. split; [by left|done].
Qed.

Lemma last_app_nonempty {A} (l l' : list A) (d : A) :
  l' <> [] -> List.last (l ++ l') d = List.last l' d.
Proof.
  intros Hne. induction l as [|a l IH]; [done|].
  simpl. destruct (l ++ l') eqn:E; [|by rewrite <- IH].
  apply app_eq_nil in E as [_ ->]. done.
Qed.

Lemma denied_target (dir : list pystr) (m : ZipInfo) :
  parts (Path (zi_filename m)) <> [] ->
  skip_member (zi_filename m) = false ->
  denied_file (target_of dir m) = false.
Proof.
  intros Hne Hskip. unfold skip_member in Hskip.
  apply orb_false_elim in Hskip as [_ Hext].
  unfold denied_file, target_of, suffix, name in *. cbn [parts].
  by rewrite last_app_nonempty.
Qed.

(** X14.  However [ask_title] ends, a regular file of the tree afterwards
    either was there before with the same bytes, or is the target, under
    the directory of the course, of a member of the archive that the loop
    did not pass over, and the extension of its name is not on the deny
    list. *)
Theorem no_denied_file_stored
    (ZipFile : list Byte.byte -> option (list ZipInfo)) (cfg : config)
    (b : bot) (chat_id : Z) (text course_id token now : pystr)
    (p : list pystr) (data : list Byte.byte) :
  files (bot_of (ask_title ZipFile cfg b chat_id text course_id token now))
    !! p = Some (TFile data) ->
  files b !! p = Some (TFile data)
  \/ (denied_file p = false
      /\ DATA_DIR ++ [course_id] `prefix_of` p
      /\ exists temp ms m,
           TEMP_UPLOADS b !! chat_id = Some temp
           /\ ZipFile (p_bytes temp) = Some ms
           /\ In m ms /\ extracted m
           /\ p = target_of (DATA_DIR ++ [course_id]) m).
Proof.
  set (dir := DATA_DIR ++ [course_id]).
  assert (Hgen : forall temp t0 t1,
    TEMP_UPLOADS b !! chat_id = Some temp ->
    mkdir_parents (files b) dir = Some t0 ->
    t1 = tree_of (extraction ZipFile t0 dir (p_bytes temp)) ->
    t1 !! p = Some (TFile data) ->
    files b !! p = Some (TFile data)
    \/ (denied_file p = false /\ dir `prefix_of` p
        /\ exists temp ms m,
             TEMP_UPLOADS b !! chat_id = Some temp
             /\ ZipFile (p_bytes temp) = Some ms
             /\ In m ms /\ extracted m /\ p = target_of dir m)).
  { intros temp t0 t1 Htemp Hmk -> Hp. unfold extraction in Hp.
    assert (Hkeep : t0 !! p = Some (TFile data) ->
                    files b !! p = Some (TFile data))
      by apply (mkdir_from_keeps_files _ _ _ _ _ _ Hmk).
    destruct (ZipFile (p_bytes temp)) as [ms|] eqn:Hzip;
      [|left; by apply Hkeep].
    destruct (extract_all_files ms t0 dir p data
                (mkdir_parents_dirs _ _ _ Hmk) Hp)
      as [?|(m & Hin & Hskip & -> & Hne)]; [left; by apply Hkeep|].
    right. split; [by apply denied_target|].
    split; [apply prefix_app_r; reflexivity|].
    by exists temp, ms, m. }
  unfold ask_title. fold dir.
  destruct (TEMP_UPLOADS b !! chat_id) as [temp|] eqn:Htemp; [|by left].
  destruct (mkdir_parents (files b) dir) as [t0|] eqn:Hmk; [|by left].
  destruct (extraction ZipFile t0 dir (p_bytes temp)) as [t1|t1] eqn:Hex.
  - assert (Ht1 : t1 = tree_of (extraction ZipFile t0 dir (p_bytes temp)))
      by by rewrite Hex.
    destruct (COURSES b); cbn; by apply (Hgen temp t0 t1).
  - cbn. intros Hp. apply (Hgen temp t0 t1); [done|done|by rewrite Hex|].
    unfold rmtree in Hp. by apply map_lookup_filter_Some in Hp as [? _].
Qed.

Lemma no_denied_file_stored_witness :
  denied_file (components "data/courses/new/docs/a.html") = false
  /\ DATA_DIR ++ [py "new"]
     `prefix_of` components "data/courses/new/docs/a.html".
Proof.
  destruct (no_denied_file_stored three_ZipFile no_config
              (app_bot waiting_app) 5 (py "Title") (py "new") (py "secret")
              (py "now") (components "data/courses/new/docs/a.html")
              [Byte.x3e])
    as [Hold|(Hden & Hpre & _)].
  - vm_compute. reflexivity.
  - vm_compute in Hold. discriminate Hold.
  - split; [exact Hden|exact Hpre].
Defined.

(** * The link a saved course is opened with *)

Lemma meta_token (r : CourseRecord) :
  py_get (meta r) (py "token") = Some (Some (JStr (rec_token r))).
Proof. reflexivity. Qed.

Lemma meta_path (r : CourseRecord) :
  py_get (meta r) (py "path") = Some (Some (JStr (rec_path r))).
Proof. reflexivity. Qed.

Lemma token_gate_meta (r : CourseRecord) (token : option pystr) :
  rec_token r <> [] ->
  token_gate token (meta r)
  = if decide (token = Some (rec_token r)) then Granted (rec_token r)
    else Denied.
Proof.
  intros Hne. unfold token_gate. rewrite meta_token.
  destruct token as [t|]; [|by destruct (decide _)].
  destruct (str_eqb t []) eqn:Hempty.
  - apply str_eqb_eq in Hempty as ->.
    destruct (decide _) as [[= E]|]; [by destruct Hne|done].
  - destruct (str_eqb t (rec_token r)) eqn:E.
    + apply str_eqb_eq in E as ->. by destruct (decide _).
    + apply str_eqb_neq in E. destruct (decide _) as [[= ->]|]; done.
Qed.

(** X15.  When [ask_title] has saved a course with a token that is not
    empty, the link of its reply is [BASE_URL] followed by
    [/courses/<id>/?token=<token>]; the index route called with the id and
    the token shows the course, by a redirect or a listing, on every disk;
    and with any other token, or none, both routes answer 403 for the
    course. *)
Theorem issued_link_opens
    (ZipFile : list Byte.byte -> option (list ZipInfo)) (cfg : config)
    (b b' : bot) (chat_id : Z) (text course_id token now : pystr)
    (number title url : pystr) (d : dict) (h : host) :
  COURSES b = JObj d -> token <> [] ->
  ask_title ZipFile cfg b chat_id text course_id token now
  = Returned b' (Saved course_id number title url) END ->
  url = BASE_URL cfg ++ py "/courses/" ++ course_id ++ py "/?token=" ++ token
  /\ shows_course (serve_course_index h (COURSES b') course_id (Some token))
  /\ (forall token', token' <> Some token ->
        serve_course_index h (COURSES b') course_id token' = Abort 403
        /\ forall filename,
             serve_course_file h (COURSES b') course_id token' filename
             = Abort 403).
Proof.
  intros Hd Htok. unfold ask_title.
  destruct (TEMP_UPLOADS b !! chat_id) as [temp|]; [|done].
  destruct (mkdir_parents (files b) (DATA_DIR ++ [course_id])) as [t0|];
    [|done].
  destruct (extraction ZipFile t0 _ (p_bytes temp)); [|done].
  rewrite Hd. intros [=]. subst b' number title url.
  split; [reflexivity|]. cbn [COURSES].
  match goal with
  | |- context [dict_set course_id (meta ?r0) d] => set (r := r0)
  end.
  assert (Hrt : rec_token r = token) by reflexivity.
  assert (Hget : forall k, py_get (JObj (dict_set k (meta r) d)) k
                           = Some (Some (meta r))).
  { intros k. cbn [py_get]. by rewrite dict_get_set_eq. }
  split.
  - unfold serve_course_index. rewrite Hget.
    change (truthy (meta r)) with true. cbn [negb].
    rewrite token_gate_meta by by rewrite Hrt.
    rewrite decide_True by by rewrite Hrt.
    rewrite meta_path.
    by destruct (List.find _ INDEX_NAMES).
  - intros token' Hne. split; [|intros filename].
    + unfold serve_course_index. rewrite Hget.
      change (truthy (meta r)) with true. cbn [negb].
      rewrite token_gate_meta by by rewrite Hrt.
      rewrite decide_False by by rewrite Hrt. done.
    + unfold serve_course_file. rewrite Hget.
      change (truthy (meta r)) with true. cbn [negb].
      rewrite token_gate_meta by by rewrite Hrt.
      rewrite decide_False by by rewrite Hrt. done.
Qed.

Lemma issued_link_opens_witness :
  shows_course
    (serve_course_index linked_host
       (COURSES (bot_of (ask_title three_ZipFile no_config
                           (app_bot waiting_app) 5 (py "Title") (py "new")
                           (py "secret") (py "now"))))
       (py "new") (Some (py "secret"))).
Proof.
  apply (issued_link_opens three_ZipFile no_config (app_bot waiting_app)
           (bot_of (ask_title three_ZipFile no_config (app_bot waiting_app)
                      5 (py "Title") (py "new") (py "secret") (py "now")))
           5 (py "Title") (py "new") (py "secret") (py "now")
           (py "3") (py "Title")
           (webapp_url_of no_config (py "new") (py "secret"))
           (List.map (fun r => (rec_id r, meta r)) two_courses) linked_host
           eq_refl ltac:(discriminate) eq_refl).
Defined.

(** * The path that is sent *)

Lemma repeat_snoc {A} (x : A) (k : nat) : repeat x k ++ [x] = repeat x (S k).
Proof. induction k as [|k IH]; [done|]. simpl. by rewrite IH. Qed.

Lemma last_repeat {A} (x d : A) (k : nat) : List.last (repeat x (S k)) d = x.
Proof. induction k as [|k IH]; [done|]. exact IH. Qed.

Lemma removelast_Forall {A} (P : A -> Prop) (l : list A) :
  Forall P l -> Forall P (removelast l).
Proof.
  induction 1 as [|x l Hx Hl IH]; [constructor|]. simpl.
  destruct l; [constructor|]. by constructor.
Qed.

Lemma last_Forall {A} (P : A -> Prop) (l : list A) (d : A) :
  l <> [] -> Forall P l -> P (List.last l d).
Proof.
  intros Hne. induction 1 as [|x l Hx Hl IH]; [done|]. simpl.
  destruct l; [done|]. by apply IH.
Qed.

(** Without an anchor, [normpath_go] keeps its result in the shape of some
    [..] followed by plain segments. *)
Lemma normpath_go_shape (comps : list pystr) :
  forall (k : nat) (plain : list pystr),
    Forall plain_segment plain ->
    exists k' plain',
      normpath_go false (repeat DOTDOT k ++ plain) comps
      = repeat DOTDOT k' ++ plain'
      /\ Forall plain_segment plain'.
Proof.
  induction comps as [|c comps IH]; intros k plain Hplain; cbn [normpath_go].
  - by exists k, plain.
  - destruct (str_eqb c [] || str_eqb c DOT) eqn:Eskip; [by apply IH|].
    apply orb_false_elim in Eskip as [Hne Hnd].
    apply str_eqb_neq in Hne, Hnd.
    destruct (str_eqb c DOTDOT) eqn:Edd; cbn [negb].
    + apply str_eqb_eq in Edd as ->.
      destruct plain as [|x plain _] using rev_ind.
      * rewrite app_nil_r. destruct k as [|k].
        -- specialize (IH 1%nat [] ltac:(constructor)).
           by rewrite app_nil_r in IH.
        -- change (repeat DOTDOT (S k))
             with (DOTDOT :: repeat DOTDOT k) at 1.
           cbv iota. rewrite last_repeat. cbn [str_eqb DOTDOT char_eqb].
           rewrite N.eqb_refl. cbn [andb].
           rewrite repeat_snoc.
           specialize (IH (S (S k)) [] ltac:(constructor)).
           by rewrite app_nil_r in IH.
      * apply Forall_app in Hplain as [Hplain Hx].
        apply Forall_cons_1 in Hx as [(_ & _ & Hx) _].
        destruct (repeat DOTDOT k ++ plain ++ [x]) eqn:E.
        { rewrite app_assoc in E. by apply app_eq_nil in E as [_ ?]. }
        cbv iota. rewrite <- E, app_assoc, last_last.
        apply str_eqb_neq in Hx. rewrite Hx.
        rewrite removelast_last. by apply IH.
    + apply str_eqb_neq in Edd. rewrite <- app_assoc. apply IH.
      apply Forall_app. split; [done|]. by repeat constructor.
Qed.

Lemma startswith_nil (s : pystr) : startswith s [] = true.
Proof. by destruct s. Qed.

Lemma join_dotdot_head (rest : list pystr) :
  str_eqb (join [SEP] (DOTDOT :: rest)) DOTDOT
  || startswith (join [SEP] (DOTDOT :: rest)) (DOTDOT ++ [SEP]) = true.
Proof.
  destruct rest as [|y rest]; [reflexivity|].
  change (join [SEP] (DOTDOT :: y :: rest))
    with (46%N :: 46%N :: 47%N :: join [SEP] (y :: rest)).
  generalize (join [SEP] (y :: rest)). intros j. by destruct j.
Qed.

Lemma join_plain_nonempty (segs : list pystr) :
  segs <> [] -> Forall plain_segment segs -> join [SEP] segs <> [].
Proof.
  intros Hne Hseg. destruct Hseg as [|x l (Hx & _) _]; [done|].
  destruct x; [done|]. by destruct l.
Qed.

(** What [safe_join] lets through is [directory] joined with a name that
    climbs nowhere. *)
Lemma safe_join_plain (directory filename joined : pystr) :
  safe_join directory filename = Some joined ->
  exists rel,
    plain_name rel
    /\ joined
       = posix_join (if str_eqb directory [] then DOT else directory) rel.
Proof.
  unfold safe_join.
  set (dir := if str_eqb directory [] then DOT else directory).
  destruct filename as [|c s].
  { cbn. intros [= <-]. exists []. split; [by left|done]. }
  cbn [str_eqb].
  destruct (startswith (normpath (c :: s)) [SEP]
            || str_eqb (normpath (c :: s)) DOTDOT
            || startswith (normpath (c :: s)) (DOTDOT ++ [SEP])) eqn:Eref;
    [done|].
  intros [= <-]. exists (normpath (c :: s)). split; [|done].
  apply orb_false_elim in Eref as [Eref Hpre].
  apply orb_false_elim in Eref as [Habs Hdd].
  unfold normpath in *.
  destruct (startswith (c :: s) [SEP]) eqn:Hs.
  { destruct (startswith (c :: s) [SEP; SEP]
              && negb (startswith (c :: s) [SEP; SEP; SEP]));
      cbn in Habs; by rewrite ?startswith_nil in Habs. }
  assert (Hss : startswith (c :: s) [SEP; SEP] = false).
  { cbn in Hs |- *. apply andb_false_iff in Hs as [->|?]; [done|].
    by destruct s. }
  rewrite Hss in *. cbn [andb List.app] in *.
  destruct (normpath_go_shape (split_on SEP (c :: s)) 0 [] ltac:(constructor))
    as (k & plain & Hgo & Hplain).
  cbn [repeat List.app] in Hgo. rewrite Hgo in *.
  destruct k as [|k].
  - cbn [repeat List.app] in *. destruct plain as [|x plain]; [by right; left|].
    right. right. exists (x :: plain). split; [done|]. split; [done|].
    pose proof (join_plain_nonempty (x :: plain) ltac:(done) Hplain) as Hj.
    by destruct (join [SEP] (x :: plain)).
  - exfalso. change (repeat DOTDOT (S k) ++ plain)
      with (DOTDOT :: (repeat DOTDOT k ++ plain)) in *.
    pose proof (join_dotdot_head (repeat DOTDOT k ++ plain)) as Hhead.
    destruct (join [SEP] (DOTDOT :: repeat DOTDOT k ++ plain)) eqn:Ej.
    + cbn in Hhead. done.
    + cbv iota in Hdd, Hpre. apply orb_prop in Hhead as [H|H].
      * by pose proof (eq_trans (eq_sym H) Hdd).
      * by pose proof (eq_trans (eq_sym H) Hpre).
Qed.

Lemma path_str_nonempty (s : pystr) : path_str (Path s) <> [].
Proof.
  unfold path_str, Path. cbn [is_abs parts].
  destruct (startswith s [SEP]); [done|].
  destruct (List.filter keep_component (split_on SEP s)) as [|x l] eqn:E;
    [done|].
  assert (Hx : keep_component x = true).
  { assert (Hin : In x (List.filter keep_component (split_on SEP s)))
      by (rewrite E; by left).
    by apply List.filter_In in Hin as [_ ?]. }
  unfold keep_component in Hx. apply andb_prop in Hx as [Hx _].
  destruct x; [done|]. by destruct l.
Qed.

(** X16.  A file that [serve_course_file] sends lies, by its name, under
    the stored path of the course: the path it opens is [root_path] joined
    with the stored path joined with a relative name that is empty, [.], or
    made of segments none of which is empty, [.] or [..]; and that path
    names a regular file. *)
Theorem sent_path_below_course (h : host) (COURSES : json)
    (course_id : pystr) (token : option pystr) (filename p : pystr) :
  serve_course_file h COURSES course_id token filename = SendFile p ->
  exists meta stored rel,
    py_get COURSES course_id = Some (Some meta)
    /\ py_get meta (py "path") = Some (Some (JStr stored))
    /\ plain_name rel
    /\ p = posix_join (host_root_path h)
             (posix_join (path_str (Path stored)) rel)
    /\ isfile (host_disk h) (host_cwd h) (Path p) = true.
Proof.
  unfold serve_course_file.
  destruct (py_get COURSES course_id) as [[meta|]|]; [|done|done].
  destruct (negb (truthy meta)); [done|].
  destruct (token_gate token meta); [|done|done].
  destruct (py_get meta (py "path")) as [[[| | | |stored| |]|]|] eqn:Epath;
    try done.
  destruct (resolve _ _ (joinpath _ _)) as [requested|]; [|done].
  destruct (resolve _ _ (Path stored)) as [base|]; [|done].
  destruct (negb (startswith _ _)); [done|].
  destruct (negb (present _ _)); [done|].
  unfold send_from_directory.
  destruct (safe_join (path_str (Path stored)) filename) as [joined|] eqn:Ej;
    [|done].
  destruct (isfile _ _ _) eqn:Efile; [|done].
  intros [= <-].
  apply safe_join_plain in Ej as (rel & Hrel & ->).
  pose proof (path_str_nonempty stored) as Hne.
  apply str_eqb_neq in Hne. rewrite Hne in *.
  by exists meta, stored, rel.
Qed.

Lemma sent_path_below_course_witness :
  exists meta stored rel,
    py_get (registry_of two_courses) (py "abc") = Some (Some meta)
    /\ py_get meta (py "path") = Some (Some (JStr stored))
    /\ plain_name rel
    /\ py "/data/courses/abc/index.html"
       = posix_join (host_root_path linked_host)
           (posix_join (path_str (Path stored)) rel)
    /\ isfile (host_disk linked_host) (host_cwd linked_host)
              (Path (py "/data/courses/abc/index.html")) = true.
Proof.
  apply (sent_path_below_course linked_host (registry_of two_courses)
           (py "abc") (Some (py "tok")) (py "index.html")
           (py "/data/courses/abc/index.html")).
  vm_compute. reflexivity.
Defined.

(** * Letter case in the names of members *)

Lemma lower_char_low (c x : pychar) :
  (x < 65)%N -> char_eqb (lower_char c) x = char_eqb c x.
Proof.
  intros Hx. unfold char_eqb, lower_char.
  destruct ((65 <=? c)%N && (c <=? 90)%N) eqn:E; [|done].
  apply andb_prop in E as [H1 H2]. apply N.leb_le in H1, H2.
  rewrite (proj2 (N.eqb_neq (c + 32) x)) by lia.
  rewrite (proj2 (N.eqb_neq c x)) by lia. done.
Qed.

Lemma lower_char_idem (c : pychar) : lower_char (lower_char c) = lower_char c.
Proof.
  unfold lower_char.
  destruct ((65 <=? c)%N && (c <=? 90)%N) eqn:E; [|by rewrite E].
  apply andb_prop in E as [H1 H2]. apply N.leb_le in H1, H2.
  rewrite (proj2 (N.leb_gt (c + 32) 90)) by lia. by rewrite andb_false_r.
Qed.

Lemma lower_idem (s : pystr) : lower (lower s) = lower s.
Proof.
  unfold lower. rewrite List.map_map. apply List.map_ext.
  apply lower_char_idem.
Qed.

Lemma split_on_lower (s : pystr) :
  split_on SEP (lower s) = List.map lower (split_on SEP s).
Proof.
  induction s as [|c s IH]; [done|]. cbn [lower List.map split_on].
  fold (lower s). rewrite lower_char_low by done. rewrite IH.
  destruct (char_eqb c SEP); [done|]. by destruct (split_on SEP s).
Qed.

Lemma str_eqb_lower_dots (c x : pystr) :
  Forall (fun y => (y < 65)%N) x ->
  str_eqb (lower c) x = str_eqb c x.
Proof.
  intros Hx. revert c. induction Hx as [|y x Hy _ IH]; intros [|a c];
    try done.
  cbn [lower List.map str_eqb]. fold (lower c).
  by rewrite lower_char_low, IH.
Qed.

Lemma str_eqb_sym (a b : pystr) : str_eqb a b = str_eqb b a.
Proof.
  revert b. induction a as [|x a IH]; intros [|y b]; try done.
  cbn [str_eqb]. unfold char_eqb. by rewrite N.eqb_sym, IH.
Qed.

Lemma keep_component_lower (c : pystr) :
  keep_component (lower c) = keep_component c.
Proof.
  unfold keep_component.
  rewrite !str_eqb_lower_dots; [done|by repeat constructor|constructor].
Qed.

Lemma parts_lower (s : pystr) :
  parts (Path (lower s)) = List.map lower (parts (Path s)).
Proof.
  unfold Path. cbn [parts]. rewrite split_on_lower.
  induction (split_on SEP s) as [|c l IH]; [done|].
  cbn [List.map List.filter]. rewrite keep_component_lower.
  destruct (keep_component c); cbn [List.map]; by rewrite IH.
Qed.

Lemma str_in_dotdot_lower (l : list pystr) :
  str_in DOTDOT (List.map lower l) = str_in DOTDOT l.
Proof.
  unfold str_in. induction l as [|c l IH]; [done|].
  cbn [List.map existsb]. rewrite IH. f_equal.
  rewrite (str_eqb_sym DOTDOT (lower c)), (str_eqb_sym DOTDOT c).
  apply str_eqb_lower_dots. by repeat constructor.
Qed.

Lemma last_lower (l : list pystr) :
  List.last (List.map lower l) [] = lower (List.last l []).
Proof.
  induction l as [|c l IH]; [done|]. cbn [List.map].
  destruct l as [|c' l]; [done|]. exact IH.
Qed.

Lemma rfind_dot_lower (s : pystr) : rfind_dot (lower s) = rfind_dot s.
Proof.
  induction s as [|c s IH]; [done|]. cbn [lower List.map rfind_dot].
  fold (lower s). rewrite IH. by rewrite lower_char_low.
Qed.

Lemma suffix_lower (s : pystr) :
  suffix (Path (lower s)) = lower (suffix (Path s)).
Proof.
  unfold suffix, name. rewrite parts_lower, last_lower, rfind_dot_lower.
  destruct (rfind_dot (List.last (parts (Path s)) [])) as [i|]; [|done].
  unfold lower at 1. rewrite length_map.
  destruct ((0 <? i)%nat && (i <? _)%nat); [|done].
  unfold lower. by rewrite skipn_map.
Qed.

Lemma startswith_sep_lower (s : pystr) :
  startswith (lower s) [SEP] = startswith s [SEP].
Proof.
  destruct s as [|c s]; [done|]. cbn [lower List.map startswith].
  unfold char_eqb. rewrite (N.eqb_sym SEP), (N.eqb_sym SEP c).
  fold (char_eqb (lower_char c) SEP). fold (char_eqb c SEP).
  rewrite lower_char_low by done. by destruct (List.map lower_char s), s.
Qed.

(** X17.  The loop treats a member written in ASCII alike whatever the
    letter case of its name: it passes over the name exactly when it passes
    over the name in lower case, so that an extension of the deny list is
    refused in capitals too. *)
Theorem skip_member_any_case (nm : pystr) :
  ascii_name nm ->
  skip_member (lower nm) = skip_member nm.
Proof.
  intros _. unfold skip_member.
  rewrite startswith_sep_lower, parts_lower, str_in_dotdot_lower.
  by rewrite suffix_lower, lower_idem.
Qed.

Lemma skip_member_any_case_witness :
  skip_member (lower (py "docs/Setup.EXE"))
  = skip_member (py "docs/Setup.EXE")
  /\ skip_member (py "docs/Setup.EXE") = true.
Proof.
  split; [|reflexivity].
  apply (skip_member_any_case (py "docs/Setup.EXE")). reflexivity.
Defined.

(** * What the other updates leave alone *)

(** X18.  Only the text that gives the title writes to the registry, the
    tree of files or the snapshot: every other update, whatever the state of
    its conversation, leaves the three as they were. *)
Theorem only_title_step_writes
    (ZipFile : list Byte.byte -> option (list ZipInfo)) (cfg : config)
    (a : app) (draws : pystr * pystr * pystr) (u : update) :
  ~ gives_title a u ->
  let a' := fst (dispatch ZipFile cfg a draws u) in
  COURSES (app_bot a') = COURSES (app_bot a)
  /\ files (app_bot a') = files (app_bot a)
  /\ snapshot (app_bot a') = snapshot (app_bot a).
Proof.
  intros Hnot. destruct draws as [[course_id token] now].
  destruct u as [c us doc|c us text|c us|c us]; cbn [dispatch gives_title] in *.
  - destruct (state_of a (c, us)); [|done|done].
    unfold recv_document. destruct (declared_too_large doc); [done|].
    by destruct (negb _).
  - destruct (state_of a (c, us)); [done| |done].
    unfold ask_number. by destruct (TEMP_UPLOADS (app_bot a) !! c).
  - done.
  - done.
Qed.

Lemma only_title_step_writes_witness :
  COURSES (app_bot (fst (dispatch three_ZipFile no_config waiting_app
                           (py "new", py "secret", py "now")
                           (CancelCmd 5 7))))
  = registry_of two_courses.
Proof.
  apply (only_title_step_writes three_ZipFile no_config waiting_app
           (py "new", py "secret", py "now") (CancelCmd 5 7)).
  intros H. exact H.
Defined.
